(** * The statistics cache handle of tinysql ([statistics/handle/handle.go])

    A shallow embedding of the handle: the in-memory snapshot
    ([statsCache]) with its copy-on-write update and version-gated
    publication, the storage reader that decodes catalog rows into table,
    column and index statistics, the periodic refresh ([Update]), the
    on-demand histogram loader and the transactional writer path.

    Machine integers are [Z] with the wrap-around of the Go types written
    out ([i64], [u64]).  Go maps are [gmap]s.  Calls that reach the SQL
    layer run in a small state-and-error monad over a [Store] that holds the
    catalog tables, the open transaction, the log of executed statements and
    a failure oracle. *)

From Stdlib Require Import ZArith List Lia Bool Sorting.Sorted.
From stdpp Require Import base gmap strings list pretty.

Local Open Scope Z_scope.

(** ** Machine integers *)

(** Go's [int64]: two's complement, wraps on overflow. *)
Definition i64 (z : Z) : Z := (z + 2 ^ 63) mod 2 ^ 64 - 2 ^ 63.

(** Go's [uint64]: wraps modulo [2^64]. *)
Definition u64 (z : Z) : Z := z mod 2 ^ 64.

Definition int64_range (z : Z) : Prop := - 2 ^ 63 <= z < 2 ^ 63.
Definition uint64_range (z : Z) : Prop := 0 <= z < 2 ^ 64.

(** ** Errors and results *)

Definition error := string.

Inductive result (A : Type) : Type :=
| Ok (a : A)
| Err (e : error).
Arguments Ok {A} a.
Arguments Err {A} e.

Definition bytes := list Byte.byte.

(** ** The black-box value types of the [statistics], [types] and [mysql]
    packages.  The handle only moves these values around, converts them and
    tests a flag; what they are is left open. *)
Class Statistics := {
  Datum : Type;
  FieldType : Type;
  CMSketch : Type;
  float64 : Type;
  StatementContext : Type;
  (** [types.NewFieldType(mysql.TypeBlob)] *)
  TypeBlob : FieldType;
  (** [&stmtctx.StatementContext{TimeZone: time.UTC}] *)
  UTC : StatementContext;
  (** [h.mu.ctx.GetSessionVars().StmtCtx] *)
  SessionStmtCtx : StatementContext;
  (** [d.ConvertTo(sc, tp)] *)
  ConvertTo : Datum -> StatementContext -> FieldType -> result Datum;
  (** [d.GetBytes()] *)
  GetBytes : Datum -> bytes;
  (** [row.GetDatum(i, tp)] on a blob column *)
  BytesDatum : bytes -> Datum;
  EncodeCMSketch : option CMSketch -> result bytes;
  DecodeCMSketch : bytes -> result (option CMSketch);
  (** [mysql.HasPriKeyFlag(flag)] *)
  HasPriKeyFlag : Z -> bool;
  (** the [float64] constant [0] *)
  float64_zero : float64
}.

Section Handle.
Context {stats : Statistics}.

(** ** Schema metadata ([model.TableInfo], [infoschema.InfoSchema]) *)

Record ColumnInfo := {
  ci_ID : Z;
  ci_Flag : Z;
  ci_FieldType : FieldType
}.

Record IndexInfo := {
  ii_ID : Z
}.

Record TableInfo := {
  ti_ID : Z;
  ti_Name : string;
  ti_Columns : list ColumnInfo;
  ti_Indices : list IndexInfo;
  ti_PKIsHandle : bool;
  (** [GetPartitionInfo()]: [None] for a table that is not partitioned,
      else the IDs of the partition definitions. *)
  ti_Partition : option (list Z)
}.

Record DBInfo := {
  db_Name : string;
  db_Tables : list TableInfo
}.

Record InfoSchema := {
  SchemaMetaVersion : Z;
  AllSchemas : list DBInfo;
  TableByID : Z -> option TableInfo;
  TableByName : string -> string -> option TableInfo
}.

(** ** Statistics structures *)

(** Modelled from the spec: the [statistics] package is not part of the
    source at hand.  A histogram is an ordered sequence of buckets, each
    with its lower and upper bound, cumulative count and repeat count, and
    the aggregates NDV, null count, correlation and total size. *)
Record Bucket := {
  bkt_lower : Datum;
  bkt_upper : Datum;
  bkt_Count : Z;
  bkt_Repeat : Z
}.

Record Histogram := {
  hg_ID : Z;
  hg_NDV : Z;
  hg_NullCount : Z;
  hg_LastUpdateVersion : Z;
  hg_Tp : FieldType;
  hg_Buckets : list Bucket;
  hg_TotColSize : Z;
  hg_Correlation : float64
}.

(** Modelled from the spec: [statistics.NewHistogram] builds the metadata
    skeleton with no bucket; the bucket capacity is an allocation hint. *)
Definition NewHistogram (id ndv nullCount ver : Z) (tp : FieldType)
    (bucketSize : Z) (totColSize : Z) : Histogram :=
  {| hg_ID := id; hg_NDV := ndv; hg_NullCount := nullCount;
     hg_LastUpdateVersion := ver; hg_Tp := tp; hg_Buckets := [];
     hg_TotColSize := totColSize; hg_Correlation := float64_zero |}.

Definition set_Correlation (hg : Histogram) (corr : float64) : Histogram :=
  {| hg_ID := hg_ID hg; hg_NDV := hg_NDV hg; hg_NullCount := hg_NullCount hg;
     hg_LastUpdateVersion := hg_LastUpdateVersion hg; hg_Tp := hg_Tp hg;
     hg_Buckets := hg_Buckets hg; hg_TotColSize := hg_TotColSize hg;
     hg_Correlation := corr |}.

Definition set_TotColSize (hg : Histogram) (sz : Z) : Histogram :=
  {| hg_ID := hg_ID hg; hg_NDV := hg_NDV hg; hg_NullCount := hg_NullCount hg;
     hg_LastUpdateVersion := hg_LastUpdateVersion hg; hg_Tp := hg_Tp hg;
     hg_Buckets := hg_Buckets hg; hg_TotColSize := sz;
     hg_Correlation := hg_Correlation hg |}.

(** Modelled from the spec: [hg.AppendBucket(lower, upper, count, repeat)]
    adds one bucket at the end. *)
Definition AppendBucket (hg : Histogram) (lower upper : Datum)
    (count repeats : Z) : Histogram :=
  {| hg_ID := hg_ID hg; hg_NDV := hg_NDV hg; hg_NullCount := hg_NullCount hg;
     hg_LastUpdateVersion := hg_LastUpdateVersion hg; hg_Tp := hg_Tp hg;
     hg_Buckets := hg_Buckets hg ++
       [{| bkt_lower := lower; bkt_upper := upper;
           bkt_Count := count; bkt_Repeat := repeats |}];
     hg_TotColSize := hg_TotColSize hg;
     hg_Correlation := hg_Correlation hg |}.

(** [hg.Len()]: the number of buckets. *)
Definition hg_Len (hg : Histogram) : Z := Z.of_nat (length (hg_Buckets hg)).

Record Column := {
  col_Histogram : Histogram;
  col_CMSketch : option CMSketch;
  col_PhysicalID : Z;
  col_Count : Z;
  col_Info : ColumnInfo;
  col_IsHandle : bool
}.

Record Index := {
  idx_Histogram : Histogram;
  idx_CMSketch : option CMSketch;
  idx_Info : IndexInfo
}.

(** [statistics.Table], with the embedded [HistColl] flattened. *)
Record Table := {
  PhysicalID : Z;
  HavePhysicalID : bool;
  Columns : gmap Z Column;
  Indices : gmap Z Index;
  Pseudo : bool;
  Count : Z;
  ModifyCount : Z;
  Version : Z;
  Name : string
}.

(** ** The catalog tables *)

Record MetaRow := {
  meta_version : Z;
  meta_table_id : Z;
  meta_modify_count : Z;
  meta_count : Z
}.

Record HistRow := {
  hist_table_id : Z;
  hist_is_index : Z;
  hist_hist_id : Z;
  hist_distinct_count : Z;
  hist_version : Z;
  hist_null_count : Z;
  hist_tot_col_size : Z;
  hist_stats_ver : Z;
  hist_flag : Z;
  hist_correlation : float64;
  hist_last_analyze_pos : bytes;
  hist_cm_sketch : bytes
}.

Record BucketRow := {
  bucket_table_id : Z;
  bucket_is_index : Z;
  bucket_hist_id : Z;
  bucket_bucket_id : Z;
  bucket_count : Z;
  bucket_repeats : Z;
  bucket_lower_bound : bytes;
  bucket_upper_bound : bytes
}.

Record Catalog := {
  stats_meta : list MetaRow;
  stats_histograms : list HistRow;
  stats_buckets : list BucketRow
}.

(** The SQL statements the handle issues, one constructor per format
    string of the source. *)
Inductive SQL : Type :=
| Begin
| Commit
| Rollback
| SelectMeta (lastVersion : Z)
| SelectHistograms (physicalID : Z)
| SelectCMSketch (tblID isIndex histID : Z)
| SelectBuckets (tableID isIndex colID : Z)
| SelectSumCount (tableID colID : Z)
| ReplaceMeta (version tableID count : Z)
| UpdateMetaVersion (version tableID : Z)
| ReplaceMetaModify (version tableID count modifyCount : Z)
| ReplaceHistogram (tableID isIndex histID ndv version nullCount : Z)
    (data : bytes) (totColSize : Z) (corr : float64)
| DeleteBuckets (tableID isIndex histID : Z)
| InsertBucket (tableID isIndex histID bucketID count repeats : Z)
    (lower upper : bytes).

(** ** The store behind the SQL executors *)

(** Modelled from the spec: the SQL layer is an external collaborator.  The
    store keeps the committed catalog, the working copy of an open
    transaction, every statement it was asked to run, and a failure oracle
    [fault] that may refuse a statement given the statements run so far. *)
Record Store := {
  committed : Catalog;
  txn : option Catalog;
  log : list SQL;
  fault : list SQL -> SQL -> option error;
  (** [txn.StartTS()] of the transaction the session opens *)
  startTS : Z;
  (** the error of [h.mu.ctx.Txn(true)], if it fails *)
  txn_fault : option error
}.

Definition set_log (s : Store) (l : list SQL) : Store :=
  {| committed := committed s; txn := txn s; log := l; fault := fault s;
     startTS := startTS s; txn_fault := txn_fault s |}.

Definition set_committed (s : Store) (c : Catalog) : Store :=
  {| committed := c; txn := txn s; log := log s; fault := fault s;
     startTS := startTS s; txn_fault := txn_fault s |}.

Definition set_txn (s : Store) (t : option Catalog) : Store :=
  {| committed := committed s; txn := t; log := log s; fault := fault s;
     startTS := startTS s; txn_fault := txn_fault s |}.

(** What the session sees: its open transaction, else the committed data. *)
Definition view (s : Store) : Catalog :=
  match txn s with
  | Some c => c
  | None => committed s
  end.

Definition same_hist (tableID isIndex histID : Z) (t i h : Z) : bool :=
  (t =? tableID) && (i =? isIndex) && (h =? histID).

(** The effect of a data statement on the catalog. *)
Definition apply_data (sql : SQL) (c : Catalog) : Catalog :=
  match sql with
  | ReplaceMeta ver tid cnt =>
      {| stats_meta :=
           filter (fun r => negb (meta_table_id r =? tid)) (stats_meta c) ++
           [{| meta_version := ver; meta_table_id := tid;
               meta_modify_count := 0; meta_count := cnt |}];
         stats_histograms := stats_histograms c;
         stats_buckets := stats_buckets c |}
  | ReplaceMetaModify ver tid cnt mc =>
      {| stats_meta :=
           filter (fun r => negb (meta_table_id r =? tid)) (stats_meta c) ++
           [{| meta_version := ver; meta_table_id := tid;
               meta_modify_count := mc; meta_count := cnt |}];
         stats_histograms := stats_histograms c;
         stats_buckets := stats_buckets c |}
  | UpdateMetaVersion ver tid =>
      {| stats_meta :=
           map (fun r => if meta_table_id r =? tid
                         then {| meta_version := ver;
                                 meta_table_id := meta_table_id r;
                                 meta_modify_count := meta_modify_count r;
                                 meta_count := meta_count r |}
                         else r) (stats_meta c);
         stats_histograms := stats_histograms c;
         stats_buckets := stats_buckets c |}
  | ReplaceHistogram tid isIdx hid ndv ver nulls data sz corr =>
      {| stats_meta := stats_meta c;
         stats_histograms :=
           filter (fun r => negb (same_hist tid isIdx hid (hist_table_id r)
                                    (hist_is_index r) (hist_hist_id r)))
                  (stats_histograms c) ++
           [{| hist_table_id := tid; hist_is_index := isIdx;
               hist_hist_id := hid; hist_distinct_count := ndv;
               hist_version := ver; hist_null_count := nulls;
               hist_tot_col_size := sz; hist_stats_ver := 0; hist_flag := 0;
               hist_correlation := corr; hist_last_analyze_pos := [];
               hist_cm_sketch := data |}];
         stats_buckets := stats_buckets c |}
  | DeleteBuckets tid isIdx hid =>
      {| stats_meta := stats_meta c;
         stats_histograms := stats_histograms c;
         stats_buckets :=
           filter (fun r => negb (same_hist tid isIdx hid (bucket_table_id r)
                                    (bucket_is_index r) (bucket_hist_id r)))
                  (stats_buckets c) |}
  | InsertBucket tid isIdx hid bid cnt rep lo up =>
      {| stats_meta := stats_meta c;
         stats_histograms := stats_histograms c;
         stats_buckets := stats_buckets c ++
           [{| bucket_table_id := tid; bucket_is_index := isIdx;
               bucket_hist_id := hid; bucket_bucket_id := bid;
               bucket_count := cnt; bucket_repeats := rep;
               bucket_lower_bound := lo; bucket_upper_bound := up |}] |}
  | _ => c
  end.

(** The effect of a statement that ran without error. *)
Definition run_stmt (sql : SQL) (s : Store) : Store :=
  match sql with
  | Begin => set_txn s (Some (view s))
  | Commit => set_txn (set_committed s (view s)) None
  | Rollback => set_txn s None
  | _ =>
      match txn s with
      | Some c => set_txn s (Some (apply_data sql c))
      | None => set_committed s (apply_data sql (committed s))
      end
  end.

(** ** The monad of storage calls *)

Definition M (A : Type) : Type := Store -> result A * Store.

Definition ret {A} (a : A) : M A := fun s => (Ok a, s).

Definition bind {A B} (m : M A) (f : A -> M B) : M B :=
  fun s =>
    match m s with
    | (Ok a, s') => f a s'
    | (Err e, s') => (Err e, s')
    end.

Definition fail {A} (e : error) : M A := fun s => (Err e, s).

(** Run [m] and hand its outcome, error or not, to the caller. *)
Definition try {A} (m : M A) : M (result A) :=
  fun s => let '(r, s') := m s in (Ok r, s').

Notation "'let*' x ':=' m 'in' k" := (bind m (fun x => k))
  (at level 10, x pattern, m at level 100, k at level 200).

Definition lift {A} (r : result A) : M A := fun s => (r, s).

(** [exec.Execute(ctx, sql)] of the session. *)
Definition Execute (sql : SQL) : M unit :=
  fun s =>
    let s1 := set_log s (log s ++ [sql]) in
    match fault s (log s) sql with
    | Some e => (Err e, s1)
    | None => (Ok tt, run_stmt sql s1)
    end.

(** [h.restrictedExec.ExecRestrictedSQL(sql)]: a read of the committed
    data; [rows] shapes the result set. *)
Definition ExecRestrictedSQL {A} (sql : SQL) (rows : Catalog -> A) : M A :=
  fun s =>
    let s1 := set_log s (log s ++ [sql]) in
    match fault s (log s) sql with
    | Some e => (Err e, s1)
    | None => (Ok (rows (committed s)), s1)
    end.

(** [historyStatsExec.ExecRestrictedSQLWithSnapshot(sql)]: the same read
    against the historical snapshot the executor is pinned to. *)
Definition ExecRestrictedSQLWithSnapshot {A} (snapshot : Catalog) (sql : SQL)
    (rows : Catalog -> A) : M A :=
  fun s =>
    let s1 := set_log s (log s ++ [sql]) in
    match fault s (log s) sql with
    | Some e => (Err e, s1)
    | None => (Ok (rows snapshot), s1)
    end.

(** [h.mu.ctx.Txn(true)] followed by [txn.StartTS()]. *)
Definition Txn : M Z :=
  fun s =>
    match txn_fault s with
    | Some e => (Err e, s)
    | None => (Ok (startTS s), s)
    end.

(** ** Result sets *)

Fixpoint insert_by {A} (key : A -> Z) (x : A) (l : list A) : list A :=
  match l with
  | [] => [x]
  | y :: l' => if key x <=? key y then x :: l else y :: insert_by key x l'
  end.

(** [ORDER BY key]: a stable insertion sort. *)
Definition order_by {A} (key : A -> Z) (l : list A) : list A :=
  foldr (insert_by key) [] l.

Definition rows_meta (lastVersion : Z) (c : Catalog) : list MetaRow :=
  order_by meta_version
    (filter (fun r => lastVersion <? meta_version r) (stats_meta c)).

Definition rows_histograms (physicalID : Z) (c : Catalog) : list HistRow :=
  filter (fun r => hist_table_id r =? physicalID) (stats_histograms c).

Definition rows_cm_sketch (tblID isIndex histID : Z) (c : Catalog) : list bytes :=
  map hist_cm_sketch
    (filter (fun r => same_hist tblID isIndex histID (hist_table_id r)
                        (hist_is_index r) (hist_hist_id r))
            (stats_histograms c)).

Definition rows_buckets (tableID isIndex colID : Z) (c : Catalog) : list BucketRow :=
  order_by bucket_bucket_id
    (filter (fun r => same_hist tableID isIndex colID (bucket_table_id r)
                        (bucket_is_index r) (bucket_hist_id r))
            (stats_buckets c)).

(** [SUM(count)]: SQL NULL ([None]) over no row, else the exact sum. *)
Definition rows_sum_count (tableID colID : Z) (c : Catalog) : option Z :=
  match filter (fun r => same_hist tableID 0 colID (bucket_table_id r)
                           (bucket_is_index r) (bucket_hist_id r))
               (stats_buckets c) with
  | [] => None
  | rs => Some (foldr (fun r acc => bucket_count r + acc) 0 rs)
  end.

(** ** The snapshot and the handle *)

(** [statsCache] caches the tables in memory for [Handle]. *)
Record statsCache := {
  tables : gmap Z Table;
  (** the latest version of the cache *)
  version : Z
}.

(** [Handle]: the fields guarded by [mu], the current snapshot (the
    [atomic.Value]) and the lease in nanoseconds. *)
Record Handle := {
  mu_pid2tid : gmap Z Z;
  mu_schemaVersion : Z;
  h_statsCache : statsCache;
  h_lease : Z
}.

Definition set_statsCache (h : Handle) (sc : statsCache) : Handle :=
  {| mu_pid2tid := mu_pid2tid h; mu_schemaVersion := mu_schemaVersion h;
     h_statsCache := sc; h_lease := h_lease h |}.

Definition NewHandle (lease : Z) : Handle :=
  {| mu_pid2tid := ∅; mu_schemaVersion := 0;
     h_statsCache := {| tables := ∅; version := 0 |};
     h_lease := lease |}.

(** [Clear]: the session variables it also sets are not part of the model. *)
Definition Clear (h : Handle) : Handle :=
  set_statsCache h {| tables := ∅; version := 0 |}.

Definition Lease (h : Handle) : Z := h_lease h.

Definition SetLease (h : Handle) (lease : Z) : Handle :=
  {| mu_pid2tid := mu_pid2tid h; mu_schemaVersion := mu_schemaVersion h;
     h_statsCache := h_statsCache h; h_lease := lease |}.

Definition physicalShiftBits : Z := 18.

(** Modelled from the spec: [oracle.ComposeTS] is not part of the source at
    hand; [composeTS(physicalMillis, logical) = (physicalMillis << 18) |
    logical], on [int64] operands, converted to [uint64]. *)
Definition ComposeTS (physical logical : Z) : Z :=
  u64 (Z.lor (i64 (Z.shiftl physical physicalShiftBits)) logical).

(** [DurationToTS] converts duration to timestamp; [d] is in nanoseconds
    and the division truncates as Go's does. *)
Definition DurationToTS (d : Z) : Z :=
  ComposeTS (Z.quot d 1000000) 0.

Definition updateStatsCache (h : Handle) (newCache : statsCache) : Handle :=
  let oldCache := h_statsCache h in
  if version oldCache <=? version newCache
  then set_statsCache h newCache
  else h.

Definition statsCache_copy (sc : statsCache) : statsCache :=
  {| tables := tables sc; version := version sc |}.

(** [update] updates the statistics table cache using copy on write. *)
Definition statsCache_update (sc : statsCache) (tbls : list Table)
    (deletedIDs : list Z) (newVersion : Z) : statsCache :=
  let newCache := statsCache_copy sc in
  let inserted :=
    foldl (fun m tbl => <[PhysicalID tbl := tbl]> m) (tables newCache) tbls in
  {| tables := foldl (fun m id => delete id m) inserted deletedIDs;
     version := newVersion |}.

(** [LastUpdateVersion] gets the last update version. *)
Definition LastUpdateVersion (h : Handle) : Z := version (h_statsCache h).

(** [SetLastUpdateVersion] sets the last update version. *)
Definition SetLastUpdateVersion (h : Handle) (ver : Z) : Handle :=
  let sc := h_statsCache h in
  updateStatsCache h (statsCache_update sc [] [] ver).

(** ** Table values *)

Definition set_PhysicalID (t : Table) (pid : Z) : Table :=
  {| PhysicalID := pid; HavePhysicalID := HavePhysicalID t;
     Columns := Columns t; Indices := Indices t; Pseudo := Pseudo t;
     Count := Count t; ModifyCount := ModifyCount t; Version := Version t;
     Name := Name t |}.

Definition set_Pseudo (t : Table) (b : bool) : Table :=
  {| PhysicalID := PhysicalID t; HavePhysicalID := HavePhysicalID t;
     Columns := Columns t; Indices := Indices t; Pseudo := b;
     Count := Count t; ModifyCount := ModifyCount t; Version := Version t;
     Name := Name t |}.

Definition set_Columns (t : Table) (cols : gmap Z Column) : Table :=
  {| PhysicalID := PhysicalID t; HavePhysicalID := HavePhysicalID t;
     Columns := cols; Indices := Indices t; Pseudo := Pseudo t;
     Count := Count t; ModifyCount := ModifyCount t; Version := Version t;
     Name := Name t |}.

Definition set_Indices (t : Table) (idxs : gmap Z Index) : Table :=
  {| PhysicalID := PhysicalID t; HavePhysicalID := HavePhysicalID t;
     Columns := Columns t; Indices := idxs; Pseudo := Pseudo t;
     Count := Count t; ModifyCount := ModifyCount t; Version := Version t;
     Name := Name t |}.

(** The four assignments of [Update] to a freshly loaded table. *)
Definition set_meta (t : Table) (ver cnt modifyCount : Z) (name : string) : Table :=
  {| PhysicalID := PhysicalID t; HavePhysicalID := HavePhysicalID t;
     Columns := Columns t; Indices := Indices t; Pseudo := Pseudo t;
     Count := cnt; ModifyCount := modifyCount; Version := ver;
     Name := name |}.

(** Modelled from the spec: [Table.Copy] is a shallow clone, with maps of
    its own that hold the same column and index entries. *)
Definition Table_Copy (t : Table) : Table :=
  {| PhysicalID := PhysicalID t; HavePhysicalID := HavePhysicalID t;
     Columns := Columns t; Indices := Indices t; Pseudo := Pseudo t;
     Count := Count t; ModifyCount := ModifyCount t; Version := Version t;
     Name := Name t |}.

(** The table [tableStatsFromStorage] starts from when the cache has none. *)
Definition empty_Table (physicalID : Z) : Table :=
  {| PhysicalID := physicalID; HavePhysicalID := true;
     Columns := ∅; Indices := ∅; Pseudo := false;
     Count := 0; ModifyCount := 0; Version := 0; Name := "" |}.

(** ** Resolving a physical ID *)

Definition buildPartitionID2TableID (is_ : InfoSchema) : gmap Z Z :=
  foldl (fun mapper db =>
    foldl (fun mapper tbl =>
      match ti_Partition tbl with
      | None => mapper
      | Some defs => foldl (fun mapper def => <[def := ti_ID tbl]> mapper) mapper defs
      end) mapper (db_Tables db))
    ∅ (AllSchemas is_).

Definition getTableByPhysicalID (h : Handle) (is_ : InfoSchema) (physicalID : Z)
    : option TableInfo * Handle :=
  let h :=
    if negb (SchemaMetaVersion is_ =? mu_schemaVersion h)
    then {| mu_pid2tid := buildPartitionID2TableID is_;
            mu_schemaVersion := SchemaMetaVersion is_;
            h_statsCache := h_statsCache h; h_lease := h_lease h |}
    else h in
  match mu_pid2tid h !! physicalID with
  | Some id => (TableByID is_ id, h)
  | None => (TableByID is_ physicalID, h)
  end.

Fixpoint getFullTableName_from (is_ : InfoSchema) (tblInfo : TableInfo)
    (schemas : list DBInfo) : string :=
  match schemas with
  | [] => pretty (ti_ID tblInfo)
  | schema :: rest =>
      match TableByName is_ (db_Name schema) (ti_Name tblInfo) with
      | Some t =>
          if ti_ID t =? ti_ID tblInfo
          then db_Name schema +:+ "." +:+ ti_Name tblInfo
          else getFullTableName_from is_ tblInfo rest
      | None => getFullTableName_from is_ tblInfo rest
      end
  end.

Definition getFullTableName (is_ : InfoSchema) (tblInfo : TableInfo) : string :=
  getFullTableName_from is_ tblInfo (AllSchemas is_).

(** ** The public read API *)

(** The pseudo constructor of the [statistics] package, taken as given:
    [PseudoTable] synthesizes default statistics from the table metadata and
    marks them [Pseudo]. *)
Variable PseudoTable : TableInfo -> Table.

(** [GetPartitionStats] retrieves the partition stats from cache. *)
Definition GetPartitionStats (h : Handle) (tblInfo : TableInfo) (pid : Z)
    : Table * Handle :=
  let sc := h_statsCache h in
  match tables sc !! pid with
  | None =>
      let tbl := PseudoTable tblInfo in
      let tbl := set_PhysicalID tbl pid in
      (tbl, updateStatsCache h (statsCache_update sc [tbl] [] (version sc)))
  | Some tbl => (tbl, h)
  end.

(** [GetTableStats] retrieves the statistics table from cache. *)
Definition GetTableStats (h : Handle) (tblInfo : TableInfo) : Table * Handle :=
  GetPartitionStats h tblInfo (ti_ID tblInfo).

(** ** The storage reader *)

(** The executor a read goes to: the historical one when it is given, else
    the handle's own. *)
Definition restrictedRead {A} (historyStatsExec : option Catalog) (sql : SQL)
    (rows : Catalog -> A) : M A :=
  match historyStatsExec with
  | Some snapshot => ExecRestrictedSQLWithSnapshot snapshot sql rows
  | None => ExecRestrictedSQL sql rows
  end.

Definition cmSketchFromStorage (tblID isIndex histID : Z)
    (historyStatsExec : option Catalog) : M (option CMSketch) :=
  let* rows := restrictedRead historyStatsExec
                 (SelectCMSketch tblID isIndex histID)
                 (rows_cm_sketch tblID isIndex histID) in
  match rows with
  | [] => ret None
  | data :: _ => lift (DecodeCMSketch data)
  end.

(** The loop of [histogramFromStorage] over the bucket rows: the stored
    count of each row is added to the running [totalCount], which becomes
    the count of the appended bucket. *)
Fixpoint histogramFromStorage_rows (isIndex : Z) (tp : FieldType)
    (rows : list BucketRow) (hg : Histogram) (totalCount : Z)
    : result Histogram :=
  match rows with
  | [] => Ok hg
  | row :: rest =>
      let count := bucket_count row in
      let repeats := bucket_repeats row in
      let bounds :=
        if isIndex =? 1
        then Ok (BytesDatum (bucket_lower_bound row),
                 BytesDatum (bucket_upper_bound row))
        else
          match ConvertTo (BytesDatum (bucket_lower_bound row)) UTC tp with
          | Err e => Err e
          | Ok lowerBound =>
              match ConvertTo (BytesDatum (bucket_upper_bound row)) UTC tp with
              | Err e => Err e
              | Ok upperBound => Ok (lowerBound, upperBound)
              end
          end in
      match bounds with
      | Err e => Err e
      | Ok (lowerBound, upperBound) =>
          let totalCount := i64 (totalCount + count) in
          histogramFromStorage_rows isIndex tp rest
            (AppendBucket hg lowerBound upperBound totalCount repeats)
            totalCount
      end
  end.

(** [PreCalculateScalar], which ends the load, only caches scalar forms of
    the bounds and leaves the fields of the model as they are. *)
Definition histogramFromStorage (tableID colID : Z) (tp : FieldType)
    (distinct isIndex ver nullCount totColSize : Z) (corr : float64)
    (historyStatsExec : option Catalog) : M Histogram :=
  let* rows := restrictedRead historyStatsExec
                 (SelectBuckets tableID isIndex colID)
                 (rows_buckets tableID isIndex colID) in
  let bucketSize := Z.of_nat (length rows) in
  let hg := NewHistogram colID distinct nullCount ver tp bucketSize totColSize in
  let hg := set_Correlation hg corr in
  lift (histogramFromStorage_rows isIndex tp rows hg 0).

(** Modelled from the spec: [types.MyDecimal] is not part of the source at
    hand.  The summary query returns SUM(bucket.count), an integer-valued
    decimal; [ToInt] gives its value when it fits [int64] and is taken to
    return an overflow error when it does not. *)
Definition MyDecimal_ToInt (d : Z) : result Z :=
  if (- 2 ^ 63 <=? d) && (d <? 2 ^ 63) then Ok d else Err "overflow".

Definition columnCountFromStorage (tableID colID : Z) : M Z :=
  let* sum := ExecRestrictedSQL (SelectSumCount tableID colID)
                (rows_sum_count tableID colID) in
  match sum with
  | None => ret 0
  | Some d => lift (MyDecimal_ToInt d)
  end.

Definition indexStatsFromStorage (row : HistRow) (table : Table)
    (tableInfo : TableInfo) (historyStatsExec : option Catalog) : M Table :=
  let histID := hist_hist_id row in
  let distinct := hist_distinct_count row in
  let histVer := hist_version row in
  let nullCount := hist_null_count row in
  let idx := Indices table !! histID in
  let* idx :=
    match find (fun idxInfo => histID =? ii_ID idxInfo) (ti_Indices tableInfo) with
    | None => ret idx
    | Some idxInfo =>
        if match idx with
           | None => true
           | Some i => hg_LastUpdateVersion (idx_Histogram i) <? histVer
           end
        then
          let* hg := histogramFromStorage (PhysicalID table) histID TypeBlob
                       distinct 1 histVer nullCount 0 float64_zero
                       historyStatsExec in
          let* cms := cmSketchFromStorage (PhysicalID table) 1 (ii_ID idxInfo)
                        historyStatsExec in
          ret (Some {| idx_Histogram := hg; idx_CMSketch := cms;
                       idx_Info := idxInfo |})
        else ret idx
    end in
  match idx with
  | Some i => ret (set_Indices table (<[histID := i]> (Indices table)))
  | None => ret table
  end.

(** [int64(hg.TotalRowCount())] of the [statistics] package, taken as
    given. *)
Variable TotalRowCount : Histogram -> Z.

(** [col.Len()] of a cached column. *)
Definition col_Len (c : Column) : Z := hg_Len (col_Histogram c).

(** The condition under which [columnStatsFromStorage] does not load the
    buckets: lease > 0, the column is not the handle, it has no buckets
    yet, and [loadAll] is false. *)
Definition notNeedLoad (h : Handle) (isHandle : bool) (col : option Column)
    (histVer : Z) (loadAll : bool) : bool :=
  (0 <? Lease h) &&
  negb isHandle &&
  match col with
  | None => true
  | Some c => (col_Len c =? 0) &&
              (hg_LastUpdateVersion (col_Histogram c) <? histVer)
  end &&
  negb loadAll.

Definition columnStatsFromStorage (h : Handle) (row : HistRow) (table : Table)
    (tableInfo : TableInfo) (loadAll : bool)
    (historyStatsExec : option Catalog) : M Table :=
  let histID := hist_hist_id row in
  let distinct := hist_distinct_count row in
  let histVer := hist_version row in
  let nullCount := hist_null_count row in
  let totColSize := hist_tot_col_size row in
  let correlation := hist_correlation row in
  let col := Columns table !! histID in
  let* col :=
    match find (fun colInfo => histID =? ci_ID colInfo) (ti_Columns tableInfo) with
    | None => ret col
    | Some colInfo =>
        let isHandle := ti_PKIsHandle tableInfo && HasPriKeyFlag (ci_Flag colInfo) in
        if notNeedLoad h isHandle col histVer loadAll
        then
          let* count := columnCountFromStorage (PhysicalID table) histID in
          ret (Some
            {| col_PhysicalID := PhysicalID table;
               col_Histogram :=
                 set_Correlation
                   (NewHistogram histID distinct nullCount histVer
                      (ci_FieldType colInfo) 0 totColSize)
                   correlation;
               col_Info := colInfo;
               col_CMSketch := None;
               col_Count := i64 (count + nullCount);
               col_IsHandle :=
                 ti_PKIsHandle tableInfo && HasPriKeyFlag (ci_Flag colInfo) |})
        else if match col with
                | None => true
                | Some c => (hg_LastUpdateVersion (col_Histogram c) <? histVer)
                            || loadAll
                end
        then
          let* hg := histogramFromStorage (PhysicalID table) histID
                       (ci_FieldType colInfo) distinct 0 histVer nullCount
                       totColSize correlation historyStatsExec in
          let* cms := cmSketchFromStorage (PhysicalID table) 0 (ci_ID colInfo)
                        historyStatsExec in
          ret (Some
            {| col_PhysicalID := PhysicalID table;
               col_Histogram := hg;
               col_Info := colInfo;
               col_CMSketch := cms;
               col_Count := TotalRowCount hg;
               col_IsHandle :=
                 ti_PKIsHandle tableInfo && HasPriKeyFlag (ci_Flag colInfo) |})
        else
          match col with
          | None => ret col
          | Some c =>
              if negb (hg_TotColSize (col_Histogram c) =? totColSize)
              then ret (Some
                {| col_PhysicalID := col_PhysicalID c;
                   col_Histogram := set_TotColSize (col_Histogram c) totColSize;
                   col_Info := col_Info c;
                   col_CMSketch := col_CMSketch c;
                   col_Count := col_Count c;
                   col_IsHandle := col_IsHandle c |})
              else ret col
          end
    end in
  match col with
  | Some c => ret (set_Columns table (<[hg_ID (col_Histogram c) := c]> (Columns table)))
  | None => ret table
  end.

(** The loop of [tableStatsFromStorage] over the histogram rows; the first
    error ends the load. *)
Fixpoint tableStatsFromStorage_rows (h : Handle) (rows : list HistRow)
    (table : Table) (tableInfo : TableInfo) (loadAll : bool)
    (historyStatsExec : option Catalog) : M Table :=
  match rows with
  | [] => ret table
  | row :: rest =>
      let* table :=
        if 0 <? hist_is_index row
        then indexStatsFromStorage row table tableInfo historyStatsExec
        else columnStatsFromStorage h row table tableInfo loadAll historyStatsExec in
      tableStatsFromStorage_rows h rest table tableInfo loadAll historyStatsExec
  end.

(** [tableStatsFromStorage] loads table stats info from storage.  The
    result is [None] for Go's [nil] table. *)
Definition tableStatsFromStorage (h : Handle) (tableInfo : TableInfo)
    (physicalID : Z) (loadAll : bool) (historyStatsExec : option Catalog)
    : M (option Table) :=
  let table :=
    match tables (h_statsCache h) !! physicalID, historyStatsExec with
    | Some table, None => Table_Copy table
    | _, _ => empty_Table physicalID
    end in
  let table := set_Pseudo table false in
  let* res := try (restrictedRead historyStatsExec
                     (SelectHistograms physicalID)
                     (rows_histograms physicalID)) in
  match res with
  | Err _ => ret None
  | Ok [] => ret None
  | Ok rows =>
      let* table := tableStatsFromStorage_rows h rows table tableInfo loadAll
                      historyStatsExec in
      ret (Some table)
  end.

(** ** The refresh *)

(** The look-back: the version [Update] reads the meta rows from. *)
Definition Update_lastVersion (h : Handle) : Z :=
  let oldCache := h_statsCache h in
  let lastVersion := version oldCache in
  let offset := DurationToTS (i64 (3 * Lease h)) in
  if offset <=? version oldCache
  then u64 (lastVersion - offset)
  else 0.

(** The loop of [Update] over the meta rows.  It carries the handle (the
    resolver may rebuild its partition index), the tables to install, the
    IDs to delete and the last version seen. *)
Fixpoint Update_rows (is_ : InfoSchema) (rows : list MetaRow) (h : Handle)
    (tbls : list Table) (deletedTableIDs : list Z) (lastVersion : Z)
    : M (Handle * list Table * list Z * Z) :=
  match rows with
  | [] => ret (h, tbls, deletedTableIDs, lastVersion)
  | row :: rest =>
      let ver := meta_version row in
      let physicalID := meta_table_id row in
      let modifyCount := meta_modify_count row in
      let count := meta_count row in
      let lastVersion := ver in
      let '(table, h) := getTableByPhysicalID h is_ physicalID in
      match table with
      | None =>
          Update_rows is_ rest h tbls (deletedTableIDs ++ [physicalID]) lastVersion
      | Some tableInfo =>
          let* res := try (tableStatsFromStorage h tableInfo physicalID false None) in
          match res with
          | Err _ =>
              Update_rows is_ rest h tbls deletedTableIDs lastVersion
          | Ok None =>
              Update_rows is_ rest h tbls (deletedTableIDs ++ [physicalID]) lastVersion
          | Ok (Some tbl) =>
              let tbl := set_meta tbl ver count modifyCount
                           (getFullTableName is_ tableInfo) in
              Update_rows is_ rest h (tbls ++ [tbl]) deletedTableIDs lastVersion
          end
      end
  end.

(** [Update] reads stats meta from store and updates the stats map.  An
    error (of the meta query) leaves the handle as it was. *)
Definition Update (h : Handle) (is_ : InfoSchema) : M Handle :=
  let oldCache := h_statsCache h in
  let lastVersion := Update_lastVersion h in
  let* rows := ExecRestrictedSQL (SelectMeta lastVersion) (rows_meta lastVersion) in
  let* (h, tbls, deletedTableIDs, lastVersion) :=
    Update_rows is_ rows h [] [] lastVersion in
  ret (updateStatsCache h (statsCache_update oldCache tbls deletedTableIDs lastVersion)).

(** ** The on-demand loader *)

(** A key of [statistics.HistogramNeededColumns]. *)
Record tableColumnID := {
  TableID : Z;
  ColumnID : Z
}.

Definition tableColumnID_eqb (a b : tableColumnID) : bool :=
  (TableID a =? TableID b) && (ColumnID a =? ColumnID b).

(** Modelled from the spec: the needed-histogram set is a process-wide set
    of (TableID, ColumnID) pairs; it is kept as the list of its keys,
    [AllCols] returns them and [Delete] removes one. *)
Definition neededColumns := list tableColumnID.

Definition AllCols (needed : neededColumns) : list tableColumnID := needed.

Definition neededColumns_Delete (needed : neededColumns) (col : tableColumnID)
    : neededColumns :=
  filter (fun c => negb (tableColumnID_eqb c col)) needed.

(** The loop of [LoadNeededHistograms].  The handle and the needed set are
    updated as it goes, so they are returned with the error as well. *)
Fixpoint LoadNeededHistograms_cols (cols : list tableColumnID) (h : Handle)
    (needed : neededColumns)
    : Store -> (option error * Handle * neededColumns) * Store :=
  match cols with
  | [] => fun s => ((None, h, needed), s)
  | col :: rest => fun s =>
      let sc := h_statsCache h in
      match tables sc !! TableID col with
      | None => LoadNeededHistograms_cols rest h needed s
      | Some tbl =>
          let tbl := Table_Copy tbl in
          match Columns tbl !! ColumnID col with
          | None =>
              LoadNeededHistograms_cols rest h (neededColumns_Delete needed col) s
          | Some c =>
              if 0 <? col_Len c
              then LoadNeededHistograms_cols rest h (neededColumns_Delete needed col) s
              else
                let chg := col_Histogram c in
                match histogramFromStorage (TableID col) (hg_ID chg)
                        (ci_FieldType (col_Info c)) (hg_NDV chg) 0
                        (hg_LastUpdateVersion chg) (hg_NullCount chg)
                        (hg_TotColSize chg) (hg_Correlation chg) None s with
                | (Err e, s1) => ((Some e, h, needed), s1)
                | (Ok hg, s1) =>
                    match cmSketchFromStorage (TableID col) 0 (ColumnID col) None s1 with
                    | (Err e, s2) => ((Some e, h, needed), s2)
                    | (Ok cms, s2) =>
                        let newCol :=
                          {| col_PhysicalID := TableID col;
                             col_Histogram := hg;
                             col_Info := col_Info c;
                             col_CMSketch := cms;
                             col_Count := TotalRowCount hg;
                             col_IsHandle := col_IsHandle c |} in
                        let tbl := set_Columns tbl (<[hg_ID chg := newCol]> (Columns tbl)) in
                        let h := updateStatsCache h
                                   (statsCache_update sc [tbl] [] (version sc)) in
                        LoadNeededHistograms_cols rest h
                          (neededColumns_Delete needed col) s2
                    end
                end
          end
      end
  end.

(** [LoadNeededHistograms] will load histograms for those needed columns. *)
Definition LoadNeededHistograms (h : Handle) (needed : neededColumns)
    : Store -> (option error * Handle * neededColumns) * Store :=
  LoadNeededHistograms_cols (AllCols needed) h needed.

(** ** The writer path *)

(** [finishTransaction] will execute [commit] when error is nil, otherwise
    [rollback]; the error of the rollback is only logged. *)
Definition finishTransaction (err : option error) : Store -> option error * Store :=
  fun s =>
    match err with
    | None =>
        match Execute Commit s with
        | (Ok _, s') => (None, s')
        | (Err e, s') => (Some e, s')
        end
    | Some e =>
        let '(_, s') := Execute Rollback s in
        (Some e, s')
    end.

Fixpoint execSQLs (sqls : list SQL) : M unit :=
  match sqls with
  | [] => ret tt
  | sql :: rest =>
      let* _ := Execute sql in
      execSQLs rest
  end.

(** The loop of [SaveStatsToStorage] over the buckets: [i] is the index of
    the first bucket of [buckets] and [prevCount] the count of the bucket
    before it. *)
Fixpoint SaveStatsToStorage_buckets (tableID isIndex hgID : Z) (i : Z)
    (prevCount : Z) (buckets : list Bucket) (sqls : list SQL)
    : result (list SQL) :=
  match buckets with
  | [] => Ok sqls
  | b :: rest =>
      let count := bkt_Count b in
      let count := if 0 <? i then i64 (count - prevCount) else count in
      match ConvertTo (bkt_upper b) SessionStmtCtx TypeBlob with
      | Err e => Err e
      | Ok upperBound =>
          match ConvertTo (bkt_lower b) SessionStmtCtx TypeBlob with
          | Err e => Err e
          | Ok lowerBound =>
              SaveStatsToStorage_buckets tableID isIndex hgID (i + 1)
                (bkt_Count b) rest
                (sqls ++ [InsertBucket tableID isIndex hgID i count
                            (bkt_Repeat b) (GetBytes lowerBound)
                            (GetBytes upperBound)])
          end
      end
  end.

(** The statements of [SaveStatsToStorage], in the order they are built. *)
Definition SaveStatsToStorage_sqls (ver tableID count isIndex : Z)
    (hg : Histogram) (cms : option CMSketch) : result (list SQL) :=
  let sqls :=
    if 0 <=? count
    then [ReplaceMeta ver tableID count]
    else [UpdateMetaVersion ver tableID] in
  match EncodeCMSketch cms with
  | Err e => Err e
  | Ok data =>
      let sqls := sqls ++
        [ReplaceHistogram tableID isIndex (hg_ID hg) (hg_NDV hg) ver
           (hg_NullCount hg) data (hg_TotColSize hg) (hg_Correlation hg)] in
      let sqls := sqls ++ [DeleteBuckets tableID isIndex (hg_ID hg)] in
      SaveStatsToStorage_buckets tableID isIndex (hg_ID hg) 0 0
        (hg_Buckets hg) sqls
  end.

(** What [SaveStatsToStorage] does between [begin] and the deferred
    [finishTransaction]. *)
Definition SaveStatsToStorage_body (tableID count isIndex : Z)
    (hg : Histogram) (cms : option CMSketch) : M unit :=
  let* ver := Txn in
  let* sqls := lift (SaveStatsToStorage_sqls ver tableID count isIndex hg cms) in
  execSQLs sqls.

Definition err_of {A} (r : result A) : option error :=
  match r with
  | Ok _ => None
  | Err e => Some e
  end.

(** [SaveStatsToStorage] saves the stats to storage.  The result is the
    returned error, [None] for [nil]. *)
Definition SaveStatsToStorage (tableID count isIndex : Z) (hg : Histogram)
    (cms : option CMSketch) : Store -> option error * Store :=
  fun s =>
    match Execute Begin s with
    | (Err e, s1) => (Some e, s1)
    | (Ok _, s1) =>
        let '(r, s2) := SaveStatsToStorage_body tableID count isIndex hg cms s1 in
        finishTransaction (err_of r) s2
    end.

(** [SaveMetaToStorage] will save stats_meta to storage. *)
Definition SaveMetaToStorage (tableID count modifyCount : Z)
    : Store -> option error * Store :=
  fun s =>
    match Execute Begin s with
    | (Err e, s1) => (Some e, s1)
    | (Ok _, s1) =>
        let '(r, s2) :=
          (let* ver := Txn in
           Execute (ReplaceMetaModify ver tableID count modifyCount)) s1 in
        finishTransaction (err_of r) s2
    end.

(** ** Publication traces *)

(** The current snapshot after each of a sequence of [updateStatsCache]
    calls, one entry per candidate. *)
Fixpoint snapshots (h : Handle) (cands : list statsCache) : list statsCache :=
  match cands with
  | [] => []
  | c :: rest =>
      let h' := updateStatsCache h c in
      h_statsCache h' :: snapshots h' rest
  end.

(** Every entry of a snapshot sits under its own physical ID. *)
Definition keyed_by_PhysicalID (sc : statsCache) : Prop :=
  forall id tbl, tables sc !! id = Some tbl -> PhysicalID tbl = id.

(** ** Vocabulary of the writer-path properties *)

(** The statements that change catalog rows, as opposed to the three that
    delimit a transaction. *)
Definition is_data (sql : SQL) : Prop :=
  match sql with
  | Begin | Commit | Rollback => False
  | _ => True
  end.

(** No statement of [sqls], run in order from the log [l], is refused. *)
Definition runs_clean (f : list SQL -> SQL -> option error) (l : list SQL)
    (sqls : list SQL) : Prop :=
  forall pre sql post, sqls = pre ++ sql :: post -> f (l ++ pre) sql = None.

(** The row an [INSERT INTO stats_buckets] statement writes. *)
Definition bucket_row_of (sql : SQL) : option BucketRow :=
  match sql with
  | InsertBucket tid isIdx hid bid cnt rep lo up =>
      Some {| bucket_table_id := tid; bucket_is_index := isIdx;
              bucket_hist_id := hid; bucket_bucket_id := bid;
              bucket_count := cnt; bucket_repeats := rep;
              bucket_lower_bound := lo; bucket_upper_bound := up |}
  | _ => None
  end.

(** In the spec's words: the per-bucket deltas [c1, c2 - c1, ..., cn -
    c(n-1)] of a cumulative sequence; [prev] is the count before the first. *)
Fixpoint deltas_from (prev : Z) (cs : list Z) : list Z :=
  match cs with
  | [] => []
  | c :: rest => (c - prev) :: deltas_from c rest
  end.

Definition deltas (cs : list Z) : list Z := deltas_from 0 cs.

(** The bounds of a bucket survive the trip: they convert to blob on the
    way out and, for a column, back to the column type on the way in. *)
Definition bounds_convertible (isIndex : Z) (tp : FieldType) (b : Bucket) : Prop :=
  exists lo up,
    ConvertTo (bkt_lower b) SessionStmtCtx TypeBlob = Ok lo /\
    ConvertTo (bkt_upper b) SessionStmtCtx TypeBlob = Ok up /\
    (isIndex = 1 \/
     (exists lo' up',
        ConvertTo (BytesDatum (GetBytes lo)) UTC tp = Ok lo' /\
        ConvertTo (BytesDatum (GetBytes up)) UTC tp = Ok up')).

(** [rows] are the rows that the bucket loop of [SaveStatsToStorage] writes
    for the buckets [bs], the first of which has index [i] and follows a
    bucket of count [prev]. *)
Fixpoint saved_as (tableID isIndex hgID : Z) (i prev : Z) (bs : list Bucket)
    (rows : list BucketRow) : Prop :=
  match bs, rows with
  | [], [] => True
  | b :: bs', r :: rows' =>
      bucket_table_id r = tableID /\
      bucket_is_index r = isIndex /\
      bucket_hist_id r = hgID /\
      bucket_bucket_id r = i /\
      bucket_count r = (if 0 <? i then i64 (bkt_Count b - prev) else bkt_Count b) /\
      bucket_repeats r = bkt_Repeat b /\
      (exists lo up,
         ConvertTo (bkt_lower b) SessionStmtCtx TypeBlob = Ok lo /\
         ConvertTo (bkt_upper b) SessionStmtCtx TypeBlob = Ok up /\
         bucket_lower_bound r = GetBytes lo /\
         bucket_upper_bound r = GetBytes up) /\
      saved_as tableID isIndex hgID (i + 1) (bkt_Count b) bs' rows'
  | _, _ => False
  end.

Definition is_insert (sql : SQL) : Prop :=
  match sql with
  | InsertBucket _ _ _ _ _ _ _ _ => True
  | _ => False
  end.

(** ** Vocabulary of the lazy-load properties *)

(** The summary query of [columnCountFromStorage]. *)
Definition is_sum_count (sql : SQL) : Prop :=
  match sql with
  | SelectSumCount _ _ => True
  | _ => False
  end.

(** The stored bucket counts of a column, summed; no row gives 0. *)
Definition stored_count_sum (tableID colID : Z) (c : Catalog) : Z :=
  foldr (fun r acc => bucket_count r + acc) 0
    (filter (fun r => same_hist tableID 0 colID (bucket_table_id r)
                        (bucket_is_index r) (bucket_hist_id r))
            (stats_buckets c)).

(** ** Vocabulary of the reader properties *)

(** A computation reads when all it does to the store is to add the
    statements it ran to the log. *)
Definition reads {A} (m : M A) : Prop :=
  forall s, exists l, snd (m s) = set_log s (log s ++ l).

(** ** Vocabulary of the further properties *)

(** The table that [update] leaves under [id] among the ones it was given:
    the last of them with that physical ID. *)
Definition last_with_id (id : Z) (tbls : list Table) : option Table :=
  last (filter (fun t => PhysicalID t =? id) tbls).

(** The (partition ID, owning table ID) pairs of a schema, in the order in
    which [buildPartitionID2TableID] meets them. *)
Definition partition_pairs (is_ : InfoSchema) : list (Z * Z) :=
  flat_map (fun db =>
    flat_map (fun tbl =>
      match ti_Partition tbl with
      | None => []
      | Some defs => map (fun def => (def, ti_ID tbl)) defs
      end) (db_Tables db))
    (AllSchemas is_).

(** The partition index of the handle was built from this schema, or will
    be rebuilt at the next lookup. *)
Definition resolver_fresh (h : Handle) (is_ : InfoSchema) : Prop :=
  mu_schemaVersion h = SchemaMetaVersion is_ ->
  mu_pid2tid h = buildPartitionID2TableID is_.

(** The fields of a table that decoding a histogram row cannot change. *)
Definition same_header (t t' : Table) : Prop :=
  PhysicalID t' = PhysicalID t /\
  HavePhysicalID t' = HavePhysicalID t /\
  Pseudo t' = Pseudo t /\
  Count t' = Count t /\
  ModifyCount t' = ModifyCount t /\
  Version t' = Version t /\
  Name t' = Name t.

(** A request that [LoadNeededHistograms] settles without a read: its
    table is not cached, or its column is not in the cached table, or the
    cached column has buckets already. *)
Definition no_load_needed (h : Handle) (col : tableColumnID) : Prop :=
  match tables (h_statsCache h) !! TableID col with
  | None => True
  | Some tbl =>
      match Columns tbl !! ColumnID col with
      | None => True
      | Some c => 0 < col_Len c
      end
  end.

(** The parts of the result of [LoadNeededHistograms]. *)
Definition loader_error (out : (option error * Handle * neededColumns) * Store)
    : option error := fst (fst (fst out)).
Definition loader_handle (out : (option error * Handle * neededColumns) * Store)
    : Handle := snd (fst (fst out)).
Definition loader_needed (out : (option error * Handle * neededColumns) * Store)
    : neededColumns := snd (fst out).

(** The running totals of a sequence of stored counts, in [int64]
    arithmetic, starting from [total]. *)
Fixpoint running_totals (total : Z) (counts : list Z) : list Z :=
  match counts with
  | [] => []
  | c :: rest => i64 (total + c) :: running_totals (i64 (total + c)) rest
  end.

(** The catalog a read is served from. *)
Definition read_source (hist : option Catalog) (s : Store) : Catalog :=
  match hist with
  | Some snapshot => snapshot
  | None => committed s
  end.

(** Every column of a table sits under the ID of its own histogram. *)
Definition columns_keyed (t : Table) : Prop :=
  forall id c, Columns t !! id = Some c -> hg_ID (col_Histogram c) = id.

(** The table a load starts from: the cached entry when there is one and
    no history executor is given, a fresh table otherwise. *)
Definition load_start (h : Handle) (physicalID : Z) (hist : option Catalog)
    : Table :=
  match tables (h_statsCache h) !! physicalID, hist with
  | Some cached, None => cached
  | _, _ => empty_Table physicalID
  end.

(** A table that [Update] made from one of the meta rows [rows]: a loaded
    table, so not a pseudo one, with the version, count and modify count of
    the row and the full name of a table of the schema. *)
Definition installed_from (is_ : InfoSchema) (rows : list MetaRow) (t : Table)
    : Prop :=
  Pseudo t = false /\
  exists row tid tableInfo,
    row ∈ rows /\
    TableByID is_ tid = Some tableInfo /\
    Version t = meta_version row /\
    Count t = meta_count row /\
    ModifyCount t = meta_modify_count row /\
    Name t = getFullTableName is_ tableInfo.

(** The test of [getFullTableName] on one schema: a table of the name of
    [tblInfo] is found in it and has the ID of [tblInfo]. *)
Definition schema_has (is_ : InfoSchema) (tblInfo : TableInfo) (schema : DBInfo)
    : bool :=
  match TableByName is_ (db_Name schema) (ti_Name tblInfo) with
  | Some t => ti_ID t =? ti_ID tblInfo
  | None => false
  end.

End Handle.

(** * Concrete inputs *)

(** An instance of the black-box types: data are byte strings, a
    conversion keeps the value, and the primary-key flag is bit 1. *)
Definition example_stats : Statistics :=
  {| Datum := bytes;
     FieldType := Z;
     CMSketch := bytes;
     float64 := Z;
     StatementContext := unit;
     TypeBlob := 252;
     UTC := tt;
     SessionStmtCtx := tt;
     ConvertTo := fun d _ _ => Ok d;
     GetBytes := fun d => d;
     BytesDatum := fun b => b;
     EncodeCMSketch := fun c => Ok (default [] c);
     DecodeCMSketch := fun b => Ok (Some b);
     HasPriKeyFlag := fun flag => Z.testbit flag 1;
     float64_zero := 0 |}.

Section Examples.
#[local] Existing Instance example_stats.

(** The count of the last bucket plus the null count. *)
Definition example_TotalRowCount (hg : Histogram) : Z :=
  i64 (List.last (map bkt_Count (hg_Buckets hg)) 0 + hg_NullCount hg).

Definition example_PseudoTable (tblInfo : TableInfo) : Table :=
  {| PhysicalID := ti_ID tblInfo; HavePhysicalID := true;
     Columns := ∅; Indices := ∅; Pseudo := true;
     Count := 10000; ModifyCount := 0; Version := 0; Name := "" |}.

Definition example_column : ColumnInfo :=
  {| ci_ID := 1; ci_Flag := 0; ci_FieldType := 3 |}.

Definition example_t7 : TableInfo :=
  {| ti_ID := 7; ti_Name := "t1"; ti_Columns := [example_column];
     ti_Indices := []; ti_PKIsHandle := false; ti_Partition := None |}.

Definition example_t9 : TableInfo :=
  {| ti_ID := 9; ti_Name := "t2"; ti_Columns := [example_column];
     ti_Indices := []; ti_PKIsHandle := false; ti_Partition := None |}.

Definition example_t11 : TableInfo :=
  {| ti_ID := 11; ti_Name := "t3"; ti_Columns := [example_column];
     ti_Indices := []; ti_PKIsHandle := false; ti_Partition := None |}.

Definition example_schema : InfoSchema :=
  {| SchemaMetaVersion := 1;
     AllSchemas :=
       [ {| db_Name := "test";
            db_Tables := [example_t7; example_t9; example_t11] |} ];
     TableByID := fun id =>
       if id =? 7 then Some example_t7
       else if id =? 9 then Some example_t9
       else if id =? 11 then Some example_t11
       else None;
     TableByName := fun db name =>
       if String.eqb db "test" && String.eqb name "t1" then Some example_t7
       else if String.eqb db "test" && String.eqb name "t2" then Some example_t9
       else if String.eqb db "test" && String.eqb name "t3" then Some example_t11
       else None |}.

(** A schema from which table 7 has been dropped. *)
Definition dropped_schema : InfoSchema :=
  {| SchemaMetaVersion := 2;
     AllSchemas := [ {| db_Name := "test"; db_Tables := [example_t9] |} ];
     TableByID := fun id => if id =? 9 then Some example_t9 else None;
     TableByName := fun db name =>
       if String.eqb db "test" && String.eqb name "t2" then Some example_t9
       else None |}.

Definition no_fault : list SQL -> SQL -> option error := fun _ _ => None.

Definition example_store (c : Catalog) (f : list SQL -> SQL -> option error) : Store :=
  {| committed := c; txn := None; log := []; fault := f;
     startTS := 1000; txn_fault := None |}.

(** Scenario S1: two meta rows, no histogram row. *)
Definition cold_catalog : Catalog :=
  {| stats_meta :=
       [ {| meta_version := 100; meta_table_id := 7;
            meta_modify_count := 0; meta_count := 10 |};
         {| meta_version := 200; meta_table_id := 9;
            meta_modify_count := 0; meta_count := 20 |} ];
     stats_histograms := [];
     stats_buckets := [] |}.

(** A catalog with statistics of column 1 of table 7: three buckets with
    the stored counts 10, 15, 15 and two null values. *)
Definition example_bucket_row (bid cnt rep : Z) : BucketRow :=
  {| bucket_table_id := 7; bucket_is_index := 0; bucket_hist_id := 1;
     bucket_bucket_id := bid; bucket_count := cnt; bucket_repeats := rep;
     bucket_lower_bound := []; bucket_upper_bound := [] |}.

Definition example_catalog : Catalog :=
  {| stats_meta :=
       [ {| meta_version := 300; meta_table_id := 7;
            meta_modify_count := 0; meta_count := 42 |} ];
     stats_histograms :=
       [ {| hist_table_id := 7; hist_is_index := 0; hist_hist_id := 1;
            hist_distinct_count := 30; hist_version := 300;
            hist_null_count := 2; hist_tot_col_size := 0;
            hist_stats_ver := 0; hist_flag := 0; hist_correlation := 0;
            hist_last_analyze_pos := []; hist_cm_sketch := [] |} ];
     stats_buckets :=
       [ example_bucket_row 0 10 1; example_bucket_row 1 15 2;
         example_bucket_row 2 15 3 ] |}.

(** Scenario S5: three tables with one meta row and one column histogram
    each, at versions 10, 20 and 30. *)
Definition example_hist (tid ver : Z) : HistRow :=
  {| hist_table_id := tid; hist_is_index := 0; hist_hist_id := 1;
     hist_distinct_count := 1; hist_version := ver;
     hist_null_count := 0; hist_tot_col_size := 0;
     hist_stats_ver := 0; hist_flag := 0; hist_correlation := 0;
     hist_last_analyze_pos := []; hist_cm_sketch := [] |}.

Definition three_tables_catalog : Catalog :=
  {| stats_meta :=
       [ {| meta_version := 10; meta_table_id := 7;
            meta_modify_count := 0; meta_count := 1 |};
         {| meta_version := 20; meta_table_id := 9;
            meta_modify_count := 0; meta_count := 2 |};
         {| meta_version := 30; meta_table_id := 11;
            meta_modify_count := 0; meta_count := 3 |} ];
     stats_histograms := [example_hist 7 10; example_hist 9 20; example_hist 11 30];
     stats_buckets := [] |}.

(** The buckets of table 9 cannot be read. *)
Definition fault_buckets9 : list SQL -> SQL -> option error :=
  fun _ sql =>
    match sql with
    | SelectBuckets 9 _ _ => Some "read error"
    | _ => None
    end.

(** A cached entry for table 7, loaded at version 50. *)
Definition example_cached7 : Table :=
  {| PhysicalID := 7; HavePhysicalID := true; Columns := ∅; Indices := ∅;
     Pseudo := false; Count := 5; ModifyCount := 0; Version := 50;
     Name := "test.t1" |}.

Definition example_handle (lease : Z) : Handle :=
  {| mu_pid2tid := ∅; mu_schemaVersion := 0;
     h_statsCache := {| tables := {[ 7 := example_cached7 ]}; version := 50 |};
     h_lease := lease |}.

(** The histogram catalog cannot be read for table 7. *)
Definition fault_histograms7 : list SQL -> SQL -> option error :=
  fun _ sql =>
    match sql with
    | SelectHistograms 7 => Some "read error"
    | _ => None
    end.

(** The buckets catalog cannot be read. *)
Definition fault_buckets : list SQL -> SQL -> option error :=
  fun _ sql =>
    match sql with
    | SelectBuckets _ _ _ => Some "read error"
    | _ => None
    end.

Definition example_needed : tableColumnID := {| TableID := 7; ColumnID := 1 |}.

(** Scenario S3: cumulative counts 10, 25, 40 with repeats 1, 2, 3. *)
Definition example_bucket (cnt rep : Z) : Bucket :=
  {| bkt_lower := []; bkt_upper := []; bkt_Count := cnt; bkt_Repeat := rep |}.

Definition example_hg : Histogram :=
  {| hg_ID := 1; hg_NDV := 30; hg_NullCount := 2; hg_LastUpdateVersion := 0;
     hg_Tp := 3;
     hg_Buckets := [example_bucket 10 1; example_bucket 25 2; example_bucket 40 3];
     hg_TotColSize := 0; hg_Correlation := 0 |}.

(** The store refuses the DELETE on stats_buckets. *)
Definition fault_delete : list SQL -> SQL -> option error :=
  fun _ sql =>
    match sql with
    | DeleteBuckets _ _ _ => Some "write conflict"
    | _ => None
    end.

(** The histogram row of column 1 of table 7 in [example_catalog]. *)
Definition example_hist_row : HistRow :=
  {| hist_table_id := 7; hist_is_index := 0; hist_hist_id := 1;
     hist_distinct_count := 30; hist_version := 300;
     hist_null_count := 2; hist_tot_col_size := 0;
     hist_stats_ver := 0; hist_flag := 0; hist_correlation := 0;
     hist_last_analyze_pos := []; hist_cm_sketch := [] |}.

End Examples.


(** ** Further concrete inputs *)

Section MoreExamples.
#[local] Existing Instance example_stats.

(** Column 1 of table 7 cached in summary form at version 300: no bucket,
    no sketch, [Count = 40 + 2]. *)
Definition summary_column : Column :=
  {| col_Histogram :=
       {| hg_ID := 1; hg_NDV := 30; hg_NullCount := 2;
          hg_LastUpdateVersion := 300; hg_Tp := 3; hg_Buckets := [];
          hg_TotColSize := 0; hg_Correlation := 0 |};
     col_CMSketch := None; col_PhysicalID := 7; col_Count := 42;
     col_Info := example_column; col_IsHandle := false |}.

Definition example_index_info : IndexInfo := {| ii_ID := 2 |}.

(** Index 2 of table 7 cached at version 300. *)
Definition example_index : Index :=
  {| idx_Histogram :=
       {| hg_ID := 2; hg_NDV := 12; hg_NullCount := 0;
          hg_LastUpdateVersion := 300; hg_Tp := 252;
          hg_Buckets := [example_bucket 12 1];
          hg_TotColSize := 0; hg_Correlation := 0 |};
     idx_CMSketch := None; idx_Info := example_index_info |}.

Definition summary_cached7 : Table :=
  {| PhysicalID := 7; HavePhysicalID := true;
     Columns := {[ 1 := summary_column ]};
     Indices := {[ 2 := example_index ]};
     Pseudo := false; Count := 42; ModifyCount := 0; Version := 300;
     Name := "test.t1" |}.

Definition summary_handle (lease : Z) : Handle :=
  {| mu_pid2tid := ∅; mu_schemaVersion := 0;
     h_statsCache := {| tables := {[ 7 := summary_cached7 ]}; version := 300 |};
     h_lease := lease |}.

(** The histogram row of column 1 of table 7 with a new total size. *)
Definition resized_hist_row : HistRow :=
  {| hist_table_id := 7; hist_is_index := 0; hist_hist_id := 1;
     hist_distinct_count := 31; hist_version := 300;
     hist_null_count := 3; hist_tot_col_size := 64;
     hist_stats_ver := 0; hist_flag := 0; hist_correlation := 0;
     hist_last_analyze_pos := []; hist_cm_sketch := [] |}.

(** The histogram row of index 2 of table 7. *)
Definition example_index_row : HistRow :=
  {| hist_table_id := 7; hist_is_index := 1; hist_hist_id := 2;
     hist_distinct_count := 12; hist_version := 300;
     hist_null_count := 0; hist_tot_col_size := 0;
     hist_stats_ver := 0; hist_flag := 0; hist_correlation := 0;
     hist_last_analyze_pos := []; hist_cm_sketch := [] |}.

(** Table 20 with the partitions 21 and 22. *)
Definition example_t20 : TableInfo :=
  {| ti_ID := 20; ti_Name := "p1"; ti_Columns := [example_column];
     ti_Indices := []; ti_PKIsHandle := false;
     ti_Partition := Some [21; 22] |}.

Definition partitioned_schema : InfoSchema :=
  {| SchemaMetaVersion := 5;
     AllSchemas :=
       [ {| db_Name := "test"; db_Tables := [example_t7; example_t20] |} ];
     TableByID := fun id =>
       if id =? 7 then Some example_t7
       else if id =? 20 then Some example_t20
       else None;
     TableByName := fun db name =>
       if String.eqb db "test" && String.eqb name "t1" then Some example_t7
       else if String.eqb db "test" && String.eqb name "p1" then Some example_t20
       else None |}.

End MoreExamples.

(** An instance whose conversion to blob refuses a datum of more than two
    bytes. *)
Definition strict_stats : Statistics :=
  {| Datum := bytes;
     FieldType := Z;
     CMSketch := bytes;
     float64 := Z;
     StatementContext := unit;
     TypeBlob := 252;
     UTC := tt;
     SessionStmtCtx := tt;
     ConvertTo := fun d _ _ =>
       if (length d <=? 2)%nat then Ok d else Err "data too long";
     GetBytes := fun d => d;
     BytesDatum := fun b => b;
     EncodeCMSketch := fun c => Ok (default [] c);
     DecodeCMSketch := fun b => Ok (Some b);
     HasPriKeyFlag := fun flag => Z.testbit flag 1;
     float64_zero := 0 |}.

Section StrictExamples.
#[local] Existing Instance strict_stats.

Definition strict_store : Store :=
  {| committed := {| stats_meta := []; stats_histograms := []; stats_buckets := [] |};
     txn := None; log := []; fault := fun _ _ => None;
     startTS := 1000; txn_fault := None |}.

(** A histogram whose second bucket has an upper bound of three bytes. *)
Definition long_bound_hg : Histogram :=
  {| hg_ID := 1; hg_NDV := 2; hg_NullCount := 0; hg_LastUpdateVersion := 0;
     hg_Tp := 3;
     hg_Buckets :=
       [ {| bkt_lower := []; bkt_upper := [Byte.x01];
            bkt_Count := 1; bkt_Repeat := 1 |};
         {| bkt_lower := [Byte.x02];
            bkt_upper := [Byte.x02; Byte.x03; Byte.x04];
            bkt_Count := 2; bkt_Repeat := 1 |} ];
     hg_TotColSize := 0; hg_Correlation := 0 |}.

End StrictExamples.
(** * Properties *)

Section Properties.
Context {stats : Statistics}.
Variable TotalRowCount : Histogram -> Z.
Variable PseudoTable : TableInfo -> Table.
Hypothesis PseudoTable_Pseudo : forall tblInfo, Pseudo (PseudoTable tblInfo) = true.

(** ** Machine arithmetic *)

Lemma i64_id z : int64_range z -> i64 z = z.
Proof.
  unfold int64_range, i64. intros Hz.
  rewrite Z.mod_small by lia. lia.
Qed.

Lemma i64_range z : int64_range (i64 z).
Proof.
  unfold int64_range, i64.
  pose proof (Z.mod_pos_bound (z + 2 ^ 63) (2 ^ 64) ltac:(lia)). lia.
Qed.

Lemma i64_add_l x y : i64 (i64 x + y) = i64 (x + y).
Proof.
  unfold i64. f_equal.
  replace ((x + 2 ^ 63) mod 2 ^ 64 - 2 ^ 63 + y + 2 ^ 63)
    with ((x + 2 ^ 63) mod 2 ^ 64 + y) by lia.
  rewrite Zplus_mod_idemp_l. f_equal. lia.
Qed.

Lemma u64_id z : uint64_range z -> u64 z = z.
Proof. unfold uint64_range, u64. intros Hz. apply Z.mod_small. lia. Qed.

Lemma u64_range z : uint64_range (u64 z).
Proof. unfold uint64_range, u64. apply Z.mod_pos_bound. lia. Qed.

(** ** The snapshot *)

Lemma updateStatsCache_accept h c :
  version (h_statsCache h) <= version c ->
  updateStatsCache h c = set_statsCache h c.
Proof.
  intros Hle. unfold updateStatsCache.
  destruct (Z.leb_spec (version (h_statsCache h)) (version c)); [done | lia].
Qed.

Lemma updateStatsCache_reject h c :
  version c < version (h_statsCache h) ->
  updateStatsCache h c = h.
Proof.
  intros Hlt. unfold updateStatsCache.
  destruct (Z.leb_spec (version (h_statsCache h)) (version c)); [lia | done].
Qed.

Lemma updateStatsCache_version_le h c :
  version (h_statsCache h) <= version (h_statsCache (updateStatsCache h c)).
Proof.
  unfold updateStatsCache.
  destruct (Z.leb_spec (version (h_statsCache h)) (version c)); simpl; lia.
Qed.

Lemma snapshots_lower_bound cands : forall h,
  Forall (fun sc => version (h_statsCache h) <= version sc) (snapshots h cands).
Proof.
  induction cands as [|c rest IH]; intros h; simpl; [constructor |].
  pose proof (updateStatsCache_version_le h c) as Hmono.
  constructor; [done |].
  eapply Forall_impl; [apply IH |]. simpl. intros sc Hsc. lia.
Qed.

Lemma snapshots_sorted cands : forall h,
  StronglySorted (fun a b => version a <= version b) (snapshots h cands).
Proof.
  induction cands as [|c rest IH]; intros h; simpl; constructor.
  - apply IH.
  - apply snapshots_lower_bound.
Qed.

Lemma StronglySorted_lookup_lt {A} (R : A -> A -> Prop) (l : list A) :
  StronglySorted R l ->
  forall (i j : nat) a b,
    (i < j)%nat -> l !! i = Some a -> l !! j = Some b -> R a b.
Proof.
  induction 1 as [|x l Hs IH Hx]; intros i j a b Hij Hi Hj; [done |].
  destruct j as [|j]; [lia |]. destruct i as [|i]; simpl in *.
  - injection Hi as <-.
    eapply (proj1 (list.Forall_forall _ _) Hx).
    eapply list_elem_of_lookup_2. exact Hj.
  - eapply IH; [| exact Hi | exact Hj]. lia.
Qed.

(** C3. Snapshot publication is monotone.  A call to [updateStatsCache]
    makes the candidate the current snapshot if and only if the
    candidate's version is at least the current version, and otherwise
    leaves the handle as it is; the current version never decreases; over
    any sequence of calls the current snapshots, the starting one
    included, come in non-decreasing version order; so of any two
    candidates that were installed, the later has the greater or equal
    version. *)
Theorem updateStatsCache_monotone (h : Handle) (newCache : statsCache)
    (cands : list statsCache) :
  (h_statsCache (updateStatsCache h newCache) = newCache <->
     version (h_statsCache h) <= version newCache) /\
  (~ version (h_statsCache h) <= version newCache ->
     updateStatsCache h newCache = h) /\
  version (h_statsCache h) <= version (h_statsCache (updateStatsCache h newCache)) /\
  StronglySorted (fun a b => version a <= version b)
    (h_statsCache h :: snapshots h cands) /\
  (forall (i j : nat) ci cj,
     (i < j)%nat ->
     cands !! i = Some ci -> snapshots h cands !! i = Some ci ->
     cands !! j = Some cj -> snapshots h cands !! j = Some cj ->
     version ci <= version cj).
Proof.
  split.
  { split.
    - intros Heq.
      destruct (Z.le_gt_cases (version (h_statsCache h)) (version newCache))
        as [Hle|Hlt]; [done |].
      rewrite updateStatsCache_reject in Heq by lia. rewrite Heq in Hlt. lia.
    - intros Hle. rewrite updateStatsCache_accept by done. done. }
  split.
  { intros Hn. apply updateStatsCache_reject. lia. }
  split; [apply updateStatsCache_version_le |].
  split.
  { constructor; [apply snapshots_sorted | apply snapshots_lower_bound]. }
  intros i j ci cj Hij _ Hi _ Hj.
  exact (StronglySorted_lookup_lt _ _ (snapshots_sorted cands h) i j ci cj Hij Hi Hj).
Qed.

(** [update] keeps every entry under its own physical ID. *)
Lemma statsCache_update_keyed sc tbls deletedIDs newVersion :
  keyed_by_PhysicalID sc ->
  keyed_by_PhysicalID (statsCache_update sc tbls deletedIDs newVersion).
Proof.
  unfold keyed_by_PhysicalID, statsCache_update. simpl. intros Hsc.
  assert (Hins : forall id tbl,
    foldl (fun m t => <[PhysicalID t := t]> m) (tables sc) tbls !! id = Some tbl ->
    PhysicalID tbl = id).
  { revert Hsc. generalize (tables sc).
    induction tbls as [|t rest IH]; intros m Hm id tbl; simpl; [apply Hm |].
    apply IH. intros id' tbl'. rewrite lookup_insert.
    case_decide; [intros [= <-]; done | apply Hm]. }
  revert Hins.
  generalize (foldl (fun m t => <[PhysicalID t := t]> m) (tables sc) tbls).
  induction deletedIDs as [|d rest IH]; intros m Hm id tbl; simpl; [apply Hm |].
  apply IH. intros id' tbl'. rewrite lookup_delete.
  case_decide; [done | apply Hm].
Qed.

Lemma statsCache_update_nil sc ver :
  statsCache_update sc [] [] ver = {| tables := tables sc; version := ver |}.
Proof. reflexivity. Qed.

(** C10. [SetLastUpdateVersion v] with [v] strictly below the current
    version is rejected by the version check of [updateStatsCache]: the
    handle, and with it the tables and the version of the installed
    snapshot, stays exactly as it was. *)
Theorem SetLastUpdateVersion_lower_noop (h : Handle) (v : Z) :
  v < version (h_statsCache h) ->
  SetLastUpdateVersion h v = h /\
  tables (h_statsCache (SetLastUpdateVersion h v)) = tables (h_statsCache h) /\
  LastUpdateVersion (SetLastUpdateVersion h v) = LastUpdateVersion h.
Proof.
  intros Hlt.
  assert (Heq : SetLastUpdateVersion h v = h).
  { unfold SetLastUpdateVersion. rewrite statsCache_update_nil.
    apply updateStatsCache_reject. simpl. lia. }
  rewrite Heq. done.
Qed.

(** C9. Pseudo promotion.  [GetPartitionStats] on a physical ID that the
    current snapshot does not hold returns the pseudo table synthesized
    from the table metadata with its [PhysicalID] set to the requested ID,
    and publishes it: the new snapshot has the version of the old one and
    the old tables plus this entry, so it holds, under the requested ID, a
    table with [Pseudo = true] and that [PhysicalID]. *)
Theorem GetPartitionStats_pseudo (h : Handle) (tblInfo : TableInfo) (pid : Z) :
  tables (h_statsCache h) !! pid = None ->
  let tbl := fst (GetPartitionStats PseudoTable h tblInfo pid) in
  let h' := snd (GetPartitionStats PseudoTable h tblInfo pid) in
  tbl = set_PhysicalID (PseudoTable tblInfo) pid /\
  version (h_statsCache h') = version (h_statsCache h) /\
  tables (h_statsCache h') = <[pid := tbl]> (tables (h_statsCache h)) /\
  tables (h_statsCache h') !! pid = Some tbl /\
  Pseudo tbl = true /\
  PhysicalID tbl = pid.
Proof.
  intros Habsent. unfold GetPartitionStats. rewrite Habsent. simpl.
  rewrite updateStatsCache_accept by (simpl; lia). simpl.
  repeat split.
  - apply lookup_insert_eq.
  - apply PseudoTable_Pseudo.
Qed.

(** ** Storage calls that only read *)

Lemma set_log_set_log s l1 l2 : set_log (set_log s l1) l2 = set_log s l2.
Proof. reflexivity. Qed.

Lemma set_log_id s : set_log s (log s) = s.
Proof. destruct s; reflexivity. Qed.

Lemma reads_ret {A} (a : A) : reads (ret a).
Proof. intros s. exists []. simpl. by rewrite app_nil_r, set_log_id. Qed.

Lemma reads_lift {A} (r : result A) : reads (lift r).
Proof. intros s. exists []. simpl. by rewrite app_nil_r, set_log_id. Qed.

Lemma reads_bind {A B} (m : M A) (f : A -> M B) :
  reads m -> (forall a, reads (f a)) -> reads (bind m f).
Proof.
  intros Hm Hf s. destruct (Hm s) as [l1 H1]. unfold bind.
  destruct (m s) as [[a|e] s1]; simpl in H1; subst s1.
  - destruct (Hf a (set_log s (log s ++ l1))) as [l2 H2].
    exists (l1 ++ l2). rewrite H2. simpl.
    by rewrite set_log_set_log, app_assoc.
  - by exists l1.
Qed.

Lemma reads_try {A} (m : M A) : reads m -> reads (try m).
Proof.
  intros Hm s. destruct (Hm s) as [l Hl]. exists l.
  unfold try. by destruct (m s).
Qed.

Lemma ExecRestrictedSQL_run {A} (sql : SQL) (rows : Catalog -> A) s :
  ExecRestrictedSQL sql rows s =
    (match fault s (log s) sql with
     | Some e => Err e
     | None => Ok (rows (committed s))
     end, set_log s (log s ++ [sql])).
Proof. unfold ExecRestrictedSQL. by destruct (fault s (log s) sql). Qed.

Lemma ExecRestrictedSQLWithSnapshot_run {A} snapshot (sql : SQL)
    (rows : Catalog -> A) s :
  ExecRestrictedSQLWithSnapshot snapshot sql rows s =
    (match fault s (log s) sql with
     | Some e => Err e
     | None => Ok (rows snapshot)
     end, set_log s (log s ++ [sql])).
Proof. unfold ExecRestrictedSQLWithSnapshot. by destruct (fault s (log s) sql). Qed.

Lemma reads_ExecRestrictedSQL {A} (sql : SQL) (rows : Catalog -> A) :
  reads (ExecRestrictedSQL sql rows).
Proof. intros s. exists [sql]. by rewrite ExecRestrictedSQL_run. Qed.

Lemma reads_restrictedRead {A} hist (sql : SQL) (rows : Catalog -> A) :
  reads (restrictedRead hist sql rows).
Proof.
  intros s. exists [sql]. destruct hist as [snapshot|]; simpl.
  - by rewrite ExecRestrictedSQLWithSnapshot_run.
  - by rewrite ExecRestrictedSQL_run.
Qed.

Ltac reads_step :=
  match goal with
  | |- reads (bind _ _) => apply reads_bind; [| intros ?]
  | |- reads (ret _) => apply reads_ret
  | |- reads (lift _) => apply reads_lift
  | |- reads (try _) => apply reads_try
  | |- reads (ExecRestrictedSQL _ _) => apply reads_ExecRestrictedSQL
  | |- reads (restrictedRead _ _ _) => apply reads_restrictedRead
  | |- reads (match ?x with _ => _ end) => destruct x
  end.

Lemma reads_cmSketchFromStorage tblID isIndex histID hist :
  reads (cmSketchFromStorage tblID isIndex histID hist).
Proof. unfold cmSketchFromStorage. repeat reads_step. Qed.

Lemma reads_histogramFromStorage tableID colID tp distinct isIndex ver
    nullCount totColSize corr hist :
  reads (histogramFromStorage tableID colID tp distinct isIndex ver nullCount
           totColSize corr hist).
Proof. unfold histogramFromStorage. repeat reads_step. Qed.

Lemma reads_columnCountFromStorage tableID colID :
  reads (columnCountFromStorage tableID colID).
Proof. unfold columnCountFromStorage. repeat reads_step. Qed.

Lemma reads_indexStatsFromStorage row table tableInfo hist :
  reads (indexStatsFromStorage row table tableInfo hist).
Proof.
  unfold indexStatsFromStorage.
  repeat first [ apply reads_histogramFromStorage
               | apply reads_cmSketchFromStorage
               | reads_step ].
Qed.

Lemma reads_columnStatsFromStorage h row table tableInfo loadAll hist :
  reads (columnStatsFromStorage TotalRowCount h row table tableInfo loadAll hist).
Proof.
  unfold columnStatsFromStorage.
  repeat first [ apply reads_histogramFromStorage
               | apply reads_cmSketchFromStorage
               | apply reads_columnCountFromStorage
               | reads_step ].
Qed.

Lemma reads_tableStatsFromStorage_rows h rows : forall table tableInfo loadAll hist,
  reads (tableStatsFromStorage_rows TotalRowCount h rows table tableInfo loadAll hist).
Proof.
  induction rows as [|row rest IH]; intros table tableInfo loadAll hist; simpl.
  - apply reads_ret.
  - apply reads_bind; [| intros t; apply IH].
    destruct (0 <? hist_is_index row).
    + apply reads_indexStatsFromStorage.
    + apply reads_columnStatsFromStorage.
Qed.

Lemma reads_tableStatsFromStorage h tableInfo physicalID loadAll hist :
  reads (tableStatsFromStorage TotalRowCount h tableInfo physicalID loadAll hist).
Proof.
  unfold tableStatsFromStorage.
  repeat first [ apply reads_tableStatsFromStorage_rows | reads_step ].
Qed.

Lemma reads_Update_rows is_ rows : forall h tbls deleted lastVersion,
  reads (Update_rows TotalRowCount is_ rows h tbls deleted lastVersion).
Proof.
  induction rows as [|row rest IH]; intros h tbls deleted lastVersion; simpl.
  - apply reads_ret.
  - destruct (getTableByPhysicalID h is_ (meta_table_id row)) as [[tableInfo|] h1].
    + apply reads_bind; [apply reads_try, reads_tableStatsFromStorage |].
      intros [[tbl|]|e]; apply IH.
    + apply IH.
Qed.

Lemma reads_Update h is_ : reads (Update TotalRowCount h is_).
Proof.
  unfold Update. apply reads_bind; [apply reads_ExecRestrictedSQL |].
  intros rows. apply reads_bind; [apply reads_Update_rows |].
  intros [[[h1 tbls] deleted] lastVersion]. apply reads_ret.
Qed.

(** What a read leaves alone. *)
Lemma reads_frame {A} (m : M A) s :
  reads m ->
  committed (snd (m s)) = committed s /\
  txn (snd (m s)) = txn s /\
  fault (snd (m s)) = fault s /\
  exists l, log (snd (m s)) = log s ++ l.
Proof.
  intros Hm. destruct (Hm s) as [l Hl]. rewrite Hl. simpl. eauto.
Qed.

(** ** The look-back window *)

Lemma ComposeTS_zero physical :
  ComposeTS physical 0 = u64 (i64 (Z.shiftl physical 18)).
Proof. unfold ComposeTS, physicalShiftBits. by rewrite Z.lor_0_r. Qed.

Lemma DurationToTS_exact d :
  0 <= d < 2 ^ 63 ->
  DurationToTS d = Z.shiftl (d / 1000000) 18.
Proof.
  intros Hd. unfold DurationToTS. rewrite ComposeTS_zero.
  rewrite Z.quot_div_nonneg by lia.
  assert (Hq : 0 <= d / 1000000) by (apply Z.div_pos; lia).
  assert (Hm : 1000000 * (d / 1000000) <= d) by (apply Z.mul_div_le; lia).
  rewrite Z.shiftl_mul_pow2 by lia.
  rewrite i64_id by (unfold int64_range; lia).
  apply u64_id. unfold uint64_range. lia.
Qed.

Lemma insert_by_Permutation {A} (key : A -> Z) x l :
  Permutation (insert_by key x l) (x :: l).
Proof.
  induction l as [|y l IH]; simpl; [done |].
  destruct (key x <=? key y); [done |].
  rewrite IH. apply perm_swap.
Qed.

Lemma order_by_Permutation {A} (key : A -> Z) (l : list A) :
  Permutation (order_by key l) l.
Proof.
  unfold order_by. induction l as [|x l IH]; simpl; [done |].
  rewrite insert_by_Permutation. by constructor.
Qed.

Lemma rows_meta_In since c r :
  In r (rows_meta since c) <-> In r (stats_meta c) /\ since < meta_version r.
Proof.
  unfold rows_meta. rewrite <- !list_elem_of_In.
  rewrite (order_by_Permutation meta_version).
  rewrite list_elem_of_filter.
  destruct (Z.ltb_spec since (meta_version r)); simpl; intuition (done || lia).
Qed.

(** C6. The look-back window of [Update].  For every lease (an [int64]
    of nanoseconds) and every current version [high] (a [uint64]), the
    offset is [composeTS] of three leases in whole milliseconds and logical
    part 0, that is [((3 * lease / 1000000) << 18) | 0] in 64-bit
    arithmetic, and it is exactly that number whenever three leases fit an
    [int64]; [since] is [high - offset] when [high >= offset] and [0]
    otherwise, that is [max (high - offset) 0]; and the first statement
    [Update] runs is the stats_meta query from [since], whose rows are the
    stats_meta rows with a version strictly greater than [since]. *)
Theorem Update_look_back (h : Handle) (is_ : InfoSchema) (s : Store) :
  int64_range (Lease h) ->
  uint64_range (version (h_statsCache h)) ->
  let high := version (h_statsCache h) in
  let offset := DurationToTS (i64 (3 * Lease h)) in
  let since := Update_lastVersion h in
  offset = ComposeTS (Z.quot (i64 (3 * Lease h)) 1000000) 0 /\
  offset = u64 (Z.lor (i64 (Z.shiftl (Z.quot (i64 (3 * Lease h)) 1000000) 18)) 0) /\
  (0 <= Lease h -> 3 * Lease h < 2 ^ 63 ->
     offset = Z.shiftl (3 * Lease h / 1000000) 18) /\
  (offset <= high -> since = high - offset) /\
  (high < offset -> since = 0) /\
  since = Z.max (high - offset) 0 /\
  (exists l, log (snd (Update TotalRowCount h is_ s)) =
               log s ++ SelectMeta since :: l) /\
  (forall r, In r (rows_meta since (committed s)) <->
             In r (stats_meta (committed s)) /\ since < meta_version r).
Proof.
  intros Hlease Hhigh high offset since.
  assert (Hoff : uint64_range offset).
  { subst offset. unfold DurationToTS, ComposeTS. apply u64_range. }
  assert (Hge : offset <= high -> since = high - offset).
  { intros Hle. subst since. unfold Update_lastVersion. fold offset. fold high.
    destruct (Z.leb_spec offset high); [| lia].
    apply u64_id. unfold uint64_range in *. lia. }
  assert (Hlt : high < offset -> since = 0).
  { intros Hlo. subst since. unfold Update_lastVersion. fold offset. fold high.
    destruct (Z.leb_spec offset high); [lia | done]. }
  split; [reflexivity |].
  split; [reflexivity |].
  split.
  { intros Hpos Hfit. subst offset.
    rewrite i64_id by (unfold int64_range; lia).
    apply DurationToTS_exact. lia. }
  split; [exact Hge |].
  split; [exact Hlt |].
  split.
  { destruct (Z.le_gt_cases offset high) as [Hle|Hgt].
    - rewrite Hge by done. lia.
    - rewrite Hlt by done. lia. }
  split; [| apply rows_meta_In].
  unfold Update. fold since.
  unfold bind at 1. rewrite ExecRestrictedSQL_run.
  destruct (fault s (log s) (SelectMeta since)) as [e|].
  - exists []. done.
  - match goal with
    | |- context [bind ?m ?f (set_log ?s0 ?l0)] =>
        destruct (reads_bind m f) with (s := set_log s0 l0) as [l Hl]
    end.
    + apply reads_Update_rows.
    + intros [[[h1 tbls] deleted] lastVersion]. apply reads_ret.
    + exists l. rewrite Hl. simpl. by rewrite <- app_assoc.
Qed.

(** ** Tables the refresh treats as deleted *)

Lemma getTableByPhysicalID_frame h is_ physicalID :
  h_statsCache (snd (getTableByPhysicalID h is_ physicalID)) = h_statsCache h /\
  h_lease (snd (getTableByPhysicalID h is_ physicalID)) = h_lease h.
Proof.
  unfold getTableByPhysicalID.
  destruct (negb (SchemaMetaVersion is_ =? mu_schemaVersion h)); simpl;
    match goal with |- context [?m !! physicalID] => destruct (m !! physicalID) end;
    done.
Qed.

(** [tableStatsFromStorage] answers with no table and no error both when
    the histogram catalog has no row for the table and when the query for
    these rows fails. *)
Lemma tableStatsFromStorage_deleted h tableInfo physicalID loadAll s :
  fault s (log s) (SelectHistograms physicalID) <> None \/
  rows_histograms physicalID (committed s) = [] ->
  tableStatsFromStorage TotalRowCount h tableInfo physicalID loadAll None s =
    (Ok None, set_log s (log s ++ [SelectHistograms physicalID])).
Proof.
  intros Hcase. unfold tableStatsFromStorage, bind, try, restrictedRead.
  rewrite ExecRestrictedSQL_run.
  destruct (fault s (log s) (SelectHistograms physicalID)) as [e|]; [done |].
  destruct Hcase as [Hf|Hrows]; [done |]. by rewrite Hrows.
Qed.

(** A meta row whose table load answers "no table" puts the ID on the
    delete list. *)
Lemma Update_rows_deleted is_ rows : forall h tbls deleted lastVersion s,
  Forall (fun r => rows_histograms (meta_table_id r) (committed s) = []) rows ->
  exists h' s',
    Update_rows TotalRowCount is_ rows h tbls deleted lastVersion s =
      (Ok (h', tbls, deleted ++ map meta_table_id rows,
           List.last (map meta_version rows) lastVersion), s') /\
    h_statsCache h' = h_statsCache h /\
    committed s' = committed s.
Proof.
  induction rows as [|row rest IH]; intros h tbls deleted lastVersion s Hrows.
  - exists h, s. simpl. by rewrite app_nil_r.
  - apply Forall_cons in Hrows as [Hrow Hrest].
    assert (Hlast : List.last (map meta_version (row :: rest)) lastVersion =
                    List.last (map meta_version rest) (meta_version row)).
    { simpl. destruct (map meta_version rest) as [|v vs] eqn:Hvs; [done |].
      clear. revert v. induction vs as [|w ws IHw]; intros v; [done |].
      simpl in *. apply IHw. }
    rewrite Hlast. cbn [Update_rows map].
    pose proof (getTableByPhysicalID_frame h is_ (meta_table_id row)) as [Hsc _].
    destruct (getTableByPhysicalID h is_ (meta_table_id row)) as [[tableInfo|] h1];
      simpl in Hsc.
    + unfold bind, try. rewrite tableStatsFromStorage_deleted by (by right).
      destruct (IH h1 tbls (deleted ++ [meta_table_id row]) (meta_version row)
                  (set_log s (log s ++ [SelectHistograms (meta_table_id row)])))
        as (h' & s' & Hrun & Hh' & Hs'); [done |].
      exists h', s'. rewrite Hrun, <- app_assoc. simpl.
      split; [done |]. split; [congruence | done].
    + destruct (IH h1 tbls (deleted ++ [meta_table_id row]) (meta_version row) s)
        as (h' & s' & Hrun & Hh' & Hs'); [done |].
      exists h', s'. rewrite Hrun, <- app_assoc. simpl.
      split; [done |]. split; [congruence | done].
Qed.

(** C1, as the code has it.  Cold start: from an empty snapshot, with one
    stats_meta row for table 7 at version 100 and one for table 9 at
    version 200 and no histogram row for either table, [Update] leaves the
    snapshot at version 200 with no entry for table 7 nor for table 9: a
    table without histogram rows is treated as deleted. *)
Theorem Update_cold_start_no_histograms (h : Handle) (is_ : InfoSchema)
    (s : Store) (mc7 c7 mc9 c9 : Z) :
  h_statsCache h = {| tables := ∅; version := 0 |} ->
  stats_meta (committed s) =
    [ {| meta_version := 100; meta_table_id := 7;
         meta_modify_count := mc7; meta_count := c7 |};
      {| meta_version := 200; meta_table_id := 9;
         meta_modify_count := mc9; meta_count := c9 |} ] ->
  rows_histograms 7 (committed s) = [] ->
  rows_histograms 9 (committed s) = [] ->
  fault s (log s) (SelectMeta 0) = None ->
  exists h' s',
    Update TotalRowCount h is_ s = (Ok h', s') /\
    h_statsCache h' = {| tables := ∅; version := 200 |} /\
    tables (h_statsCache h') !! 7 = None /\
    tables (h_statsCache h') !! 9 = None.
Proof.
  intros Hempty Hmeta H7 H9 Hfault.
  assert (Hsince : Update_lastVersion h = 0).
  { unfold Update_lastVersion. rewrite Hempty. simpl.
    pose proof (u64_range (Z.lor (i64 (Z.shiftl
      (Z.quot (i64 (3 * Lease h)) 1000000) physicalShiftBits)) 0)) as Hr.
    unfold DurationToTS, ComposeTS. unfold uint64_range in Hr.
    destruct (Z.leb_spec (u64 (Z.lor (i64 (Z.shiftl
      (Z.quot (i64 (3 * Lease h)) 1000000) physicalShiftBits)) 0)) 0) as [Hle|];
      [| done].
    replace (u64 (Z.lor (i64 (Z.shiftl
      (Z.quot (i64 (3 * Lease h)) 1000000) physicalShiftBits)) 0)) with 0 by lia.
    done. }
  unfold Update. rewrite Hsince. unfold bind at 1.
  rewrite ExecRestrictedSQL_run, Hfault.
  unfold rows_meta. rewrite Hmeta. cbn [filter]. 
  set (s1 := set_log s (log s ++ [SelectMeta 0])).
  set (rows := order_by meta_version _).
  assert (Hrows : rows =
    [ {| meta_version := 100; meta_table_id := 7;
         meta_modify_count := mc7; meta_count := c7 |};
      {| meta_version := 200; meta_table_id := 9;
         meta_modify_count := mc9; meta_count := c9 |} ]) by reflexivity.
  rewrite Hrows. clear rows Hrows.
  match goal with
  | |- context [Update_rows _ _ ?rows _ _ _ _] =>
      destruct (Update_rows_deleted is_ rows h [] [] 0 s1)
        as (h' & s' & Hrun & Hh' & Hs')
  end.
  { repeat constructor; simpl; done. }
  unfold bind. rewrite Hrun. simpl.
  eexists _, s'. split; [reflexivity |].
  rewrite Hempty. unfold statsCache_update. simpl.
  rewrite !delete_empty.
  rewrite updateStatsCache_accept by (rewrite Hh', Hempty; simpl; lia).
  simpl. done.
Qed.

(** ** Errors during the refresh *)

(** A row whose table load returns an error is skipped: nothing is
    installed and nothing is deleted for it. *)
Lemma Update_rows_error_skips is_ row rest h tbls deleted lastVersion s
    tableInfo h1 e s1 :
  getTableByPhysicalID h is_ (meta_table_id row) = (Some tableInfo, h1) ->
  tableStatsFromStorage TotalRowCount h1 tableInfo (meta_table_id row) false None s =
    (Err e, s1) ->
  Update_rows TotalRowCount is_ (row :: rest) h tbls deleted lastVersion s =
  Update_rows TotalRowCount is_ rest h1 tbls deleted (meta_version row) s1.
Proof.
  intros Hres Hload. cbn [Update_rows]. rewrite Hres.
  unfold bind, try. by rewrite Hload.
Qed.

(** A row whose histogram catalog query fails is not skipped: the error is
    dropped by [tableStatsFromStorage] and the ID goes on the delete
    list. *)
Lemma Update_rows_query_failure_deletes is_ row rest h tbls deleted lastVersion s
    tableInfo h1 e :
  getTableByPhysicalID h is_ (meta_table_id row) = (Some tableInfo, h1) ->
  fault s (log s) (SelectHistograms (meta_table_id row)) = Some e ->
  Update_rows TotalRowCount is_ (row :: rest) h tbls deleted lastVersion s =
  Update_rows TotalRowCount is_ rest h1 tbls (deleted ++ [meta_table_id row])
    (meta_version row)
    (set_log s (log s ++ [SelectHistograms (meta_table_id row)])).
Proof.
  intros Hres Hfault. cbn [Update_rows]. rewrite Hres.
  unfold bind, try.
  rewrite tableStatsFromStorage_deleted by (left; congruence). done.
Qed.

(** ** The on-demand loader *)

(** C8, as the code has it.  When [LoadNeededHistograms] comes to a
    requested pair whose table the current snapshot does not hold, it goes
    on to the next pair and leaves the handle, the store and the
    needed-histogram set as they are: the request stays in the set. *)
Theorem LoadNeededHistograms_absent_table (col : tableColumnID)
    (rest : list tableColumnID) (h : Handle) (needed : neededColumns)
    (s : Store) :
  tables (h_statsCache h) !! TableID col = None ->
  LoadNeededHistograms_cols TotalRowCount (col :: rest) h needed s =
    LoadNeededHistograms_cols TotalRowCount rest h needed s /\
  LoadNeededHistograms TotalRowCount h [col] s = ((None, h, [col]), s).
Proof.
  intros Habsent. unfold LoadNeededHistograms, AllCols. simpl.
  rewrite Habsent. done.
Qed.

(** The loader publishes through [updateStatsCache] only: the version of
    the snapshot never decreases over a call. *)
Lemma LoadNeededHistograms_cols_version_le cols : forall h needed s,
  version (h_statsCache h) <=
  version (h_statsCache (snd (fst (fst (LoadNeededHistograms_cols TotalRowCount
                                          cols h needed s))))).
Proof.
  induction cols as [|col rest IH]; intros h needed s; cbn [LoadNeededHistograms_cols].
  - simpl. lia.
  - destruct (tables (h_statsCache h) !! TableID col) as [tbl|]; [| apply IH].
    destruct (Columns (Table_Copy tbl) !! ColumnID col) as [c|]; [| apply IH].
    destruct (0 <? col_Len c); [apply IH |].
    destruct (histogramFromStorage _ _ _ _ _ _ _ _ _ _ s) as [[hg|e] s1];
      [| simpl; lia].
    destruct (cmSketchFromStorage _ _ _ _ s1) as [[cms|e] s2]; [| simpl; lia].
    etrans; [| apply IH]. apply updateStatsCache_version_le.
Qed.

(** The loop of the refresh leaves the snapshot alone. *)
Lemma Update_rows_statsCache is_ rows :
  forall h tbls deleted lastVersion s h1 tbls1 deleted1 lastVersion1 s1,
  Update_rows TotalRowCount is_ rows h tbls deleted lastVersion s =
    (Ok (h1, tbls1, deleted1, lastVersion1), s1) ->
  h_statsCache h1 = h_statsCache h.
Proof.
  induction rows as [|row rest IH];
    intros h tbls deleted lastVersion s h1 tbls1 deleted1 lastVersion1 s1 Hrows.
  - simpl in Hrows. by injection Hrows as <- _ _ _ _.
  - cbn [Update_rows] in Hrows.
    pose proof (getTableByPhysicalID_frame h is_ (meta_table_id row)) as [Hf _].
    destruct (getTableByPhysicalID h is_ (meta_table_id row))
      as [[tableInfo|] h2]; simpl in Hf.
    + unfold bind, try in Hrows.
      destruct (tableStatsFromStorage _ _ _ _ _ _ s) as [[[tbl|]|e] s3];
        apply IH in Hrows; congruence.
    + apply IH in Hrows. congruence.
Qed.

(** So the refresh, which publishes through [updateStatsCache], never
    lowers the version of the snapshot. *)
Lemma Update_version_le h is_ s h' s' :
  Update TotalRowCount h is_ s = (Ok h', s') ->
  version (h_statsCache h) <= version (h_statsCache h').
Proof.
  unfold Update. unfold bind at 1.
  destruct (ExecRestrictedSQL _ _ s) as [[rows|e] s1]; [| done].
  unfold bind.
  destruct (Update_rows TotalRowCount is_ rows h [] [] (Update_lastVersion h) s1)
    as [[[[[h1 tbls] deleted] lastVersion]|e] s2] eqn:Hrows; [| done].
  intros Heq. injection Heq as <- _.
  apply Update_rows_statsCache in Hrows.
  etrans; [| apply updateStatsCache_version_le]. rewrite Hrows. lia.
Qed.

(** ** The writer path *)

Lemma Execute_run sql s :
  Execute sql s =
    match fault s (log s) sql with
    | Some e => (Err e, set_log s (log s ++ [sql]))
    | None => (Ok tt, run_stmt sql (set_log s (log s ++ [sql])))
    end.
Proof. reflexivity. Qed.

Lemma run_stmt_frame sql s :
  log (run_stmt sql s) = log s /\
  fault (run_stmt sql s) = fault s /\
  txn_fault (run_stmt sql s) = txn_fault s /\
  startTS (run_stmt sql s) = startTS s.
Proof. destruct sql; simpl; try done; by destruct (txn s). Qed.

Lemma Execute_frame sql s :
  log (snd (Execute sql s)) = log s ++ [sql] /\
  fault (snd (Execute sql s)) = fault s /\
  txn_fault (snd (Execute sql s)) = txn_fault s.
Proof.
  rewrite Execute_run. destruct (fault s (log s) sql); simpl; [done |].
  pose proof (run_stmt_frame sql (set_log s (log s ++ [sql]))) as (-> & -> & -> & _).
  done.
Qed.

(** Inside a transaction a data statement touches the working copy only. *)
Lemma Execute_data_in_txn sql s :
  is_data sql -> is_Some (txn s) ->
  committed (snd (Execute sql s)) = committed s /\
  is_Some (txn (snd (Execute sql s))).
Proof.
  intros Hdata [c Hc]. rewrite Execute_run.
  destruct (fault s (log s) sql); simpl; [by rewrite Hc |].
  destruct sql; simpl in *; try done; rewrite Hc; simpl; eauto.
Qed.

Lemma execSQLs_frame sqls : forall s,
  Forall is_data sqls -> is_Some (txn s) ->
  committed (snd (execSQLs sqls s)) = committed s /\
  is_Some (txn (snd (execSQLs sqls s))) /\
  fault (snd (execSQLs sqls s)) = fault s /\
  exists ran, ran `prefix_of` sqls /\
    log (snd (execSQLs sqls s)) = log s ++ ran /\
    (forall u, fst (execSQLs sqls s) = Ok u -> ran = sqls).
Proof.
  induction sqls as [|sql rest IH]; intros s Hdata Htxn.
  - simpl. repeat split; [done |]. exists []. by rewrite app_nil_r.
  - apply Forall_cons in Hdata as [Hsql Hrest].
    pose proof (Execute_data_in_txn sql s Hsql Htxn) as [Hc Ht].
    pose proof (Execute_frame sql s) as (Hl & Hf & _).
    cbn [execSQLs]. unfold bind.
    destruct (Execute sql s) as [[[]|e] s1] eqn:Hrun; simpl in *.
    + destruct (IH s1 Hrest Ht) as (Hc' & Ht' & Hf' & ran & Hpre & Hlog & Hok).
      repeat split; [congruence | done | congruence |].
      exists (sql :: ran). split; [by apply prefix_cons |].
      split; [by rewrite Hlog, Hl, <- app_assoc |].
      intros u Hu. f_equal. by apply (Hok u).
    + repeat split; [done | done | done |].
      exists [sql]. split; [by apply prefix_cons, prefix_nil |]. done.
Qed.

Lemma execSQLs_ok sqls : forall s,
  runs_clean (fault s) (log s) sqls ->
  fst (execSQLs sqls s) = Ok tt /\
  log (snd (execSQLs sqls s)) = log s ++ sqls.
Proof.
  induction sqls as [|sql rest IH]; intros s Hclean.
  - simpl. by rewrite app_nil_r.
  - pose proof (Execute_frame sql s) as (Hl & Hf & _).
    assert (Hnone : fault s (log s) sql = None).
    { rewrite <- (Hclean [] sql rest eq_refl). by rewrite app_nil_r. }
    cbn [execSQLs]. unfold bind. rewrite Execute_run in *.
    rewrite Hnone in *. simpl in Hl, Hf.
    destruct (IH (run_stmt sql (set_log s (log s ++ [sql])))) as [Hr Hlog].
    { intros pre q post ->. rewrite Hf, Hl, <- app_assoc.
      apply (Hclean (sql :: pre) q post). done. }
    split; [done |]. by rewrite Hlog, Hl, <- app_assoc.
Qed.

Lemma execSQLs_fails pre : forall sql post e s,
  runs_clean (fault s) (log s) pre ->
  fault s (log s ++ pre) sql = Some e ->
  fst (execSQLs (pre ++ sql :: post) s) = Err e /\
  log (snd (execSQLs (pre ++ sql :: post) s)) = log s ++ pre ++ [sql].
Proof.
  induction pre as [|x pre IH]; intros sql post e s Hclean Hfault.
  - simpl. unfold bind. rewrite Execute_run.
    rewrite app_nil_r in Hfault. rewrite Hfault. done.
  - pose proof (Execute_frame x s) as (Hl & Hf & _).
    assert (Hnone : fault s (log s) x = None).
    { rewrite <- (Hclean [] x pre eq_refl). by rewrite app_nil_r. }
    cbn [execSQLs app]. unfold bind. rewrite Execute_run in *.
    rewrite Hnone in *. simpl in Hl, Hf.
    destruct (IH sql post e (run_stmt x (set_log s (log s ++ [x])))) as [Hr Hlog].
    { intros p q r ->. rewrite Hf, Hl, <- app_assoc.
      apply (Hclean (x :: p) q r). done. }
    { rewrite Hf, Hl, <- app_assoc. done. }
    split; [done |]. by rewrite Hlog, Hl, <- !app_assoc.
Qed.

Lemma SaveStatsToStorage_buckets_data tableID isIndex hgID buckets :
  forall i prev sqls out,
  Forall is_data sqls ->
  SaveStatsToStorage_buckets tableID isIndex hgID i prev buckets sqls = Ok out ->
  Forall is_data out.
Proof.
  induction buckets as [|b rest IH]; intros i prev sqls out Hdata Hrun; simpl in Hrun.
  - by injection Hrun as <-.
  - destruct (ConvertTo (bkt_upper b) SessionStmtCtx TypeBlob); [| done].
    destruct (ConvertTo (bkt_lower b) SessionStmtCtx TypeBlob); [| done].
    eapply IH; [| exact Hrun].
    apply Forall_app. split; [done |]. by repeat constructor.
Qed.

Lemma SaveStatsToStorage_sqls_data ver tableID count isIndex hg cms sqls :
  SaveStatsToStorage_sqls ver tableID count isIndex hg cms = Ok sqls ->
  Forall is_data sqls.
Proof.
  unfold SaveStatsToStorage_sqls. intros Hrun.
  destruct (EncodeCMSketch cms); [| done].
  eapply SaveStatsToStorage_buckets_data; [| exact Hrun].
  destruct (0 <=? count); by repeat constructor.
Qed.

(** A bound that does not convert to blob fails the save. *)
Lemma SaveStatsToStorage_buckets_conversion_error tableID isIndex hgID buckets :
  forall i prev sqls b,
  In b buckets ->
  (exists e, ConvertTo (bkt_upper b) SessionStmtCtx TypeBlob = Err e) \/
  (exists e, ConvertTo (bkt_lower b) SessionStmtCtx TypeBlob = Err e) ->
  exists e,
    SaveStatsToStorage_buckets tableID isIndex hgID i prev buckets sqls = Err e.
Proof.
  induction buckets as [|b0 rest IH]; intros i prev sqls b Hin Hbad; [done |].
  simpl.
  destruct (ConvertTo (bkt_upper b0) SessionStmtCtx TypeBlob) as [up|e] eqn:Hup;
    [| by exists e].
  destruct (ConvertTo (bkt_lower b0) SessionStmtCtx TypeBlob) as [lo|e] eqn:Hlo;
    [| by exists e].
  destruct Hin as [->|Hin].
  - destruct Hbad as [[e He]|[e He]]; congruence.
  - by eapply IH.
Qed.

Lemma SaveStatsToStorage_body_run tableID count isIndex hg cms s :
  SaveStatsToStorage_body tableID count isIndex hg cms s =
    match txn_fault s with
    | Some e => (Err e, s)
    | None =>
        match SaveStatsToStorage_sqls (startTS s) tableID count isIndex hg cms with
        | Err e => (Err e, s)
        | Ok sqls => execSQLs sqls s
        end
    end.
Proof.
  unfold SaveStatsToStorage_body, bind, Txn, lift.
  destruct (txn_fault s); [done |].
  by destruct (SaveStatsToStorage_sqls (startTS s) tableID count isIndex hg cms).
Qed.

(** When [begin] itself is refused no transaction is open: the call returns
    that error and runs nothing else. *)
Lemma SaveStatsToStorage_begin_refused tableID count isIndex hg cms s e :
  fault s (log s) Begin = Some e ->
  SaveStatsToStorage tableID count isIndex hg cms s =
    (Some e, set_log s (log s ++ [Begin])).
Proof.
  intros Hbegin. unfold SaveStatsToStorage. by rewrite Execute_run, Hbegin.
Qed.

(** C7. Save-path atomicity.  Once [begin] has run, every call to
    [SaveStatsToStorage] ends the transaction: between [begin] and the last
    statement only data statements run; the last statement is [commit]
    when no step failed, and then the call returns what the commit
    returned; it is [rollback] when a step failed, and then the call
    returns the error of that step whatever the rollback did.  The steps
    that fail the call are the start of the transaction, the encoding of
    the sketch, the conversion of a bound and the first refused statement.
    A call that returns an error leaves the committed catalog as it was. *)
Theorem SaveStatsToStorage_finishes (tableID count isIndex : Z)
    (hg : Histogram) (cms : option CMSketch) (s : Store) :
  fault s (log s) Begin = None ->
  let s1 := snd (Execute Begin s) in
  let body := SaveStatsToStorage_body tableID count isIndex hg cms s1 in
  let out := SaveStatsToStorage tableID count isIndex hg cms s in
  let sqls := SaveStatsToStorage_sqls (startTS s) tableID count isIndex hg cms in
  (exists mid, log (snd body) = log s ++ Begin :: mid /\ Forall is_data mid) /\
  match fst body with
  | Ok _ =>
      log (snd out) = log (snd body) ++ [Commit] /\
      fst out = fault s (log (snd body)) Commit
  | Err e =>
      log (snd out) = log (snd body) ++ [Rollback] /\
      fst out = Some e
  end /\
  (forall e, txn_fault s = Some e -> fst body = Err e) /\
  (forall e, txn_fault s = None -> EncodeCMSketch cms = Err e -> fst body = Err e) /\
  (forall b, txn_fault s = None -> In b (hg_Buckets hg) ->
     (exists e, ConvertTo (bkt_upper b) SessionStmtCtx TypeBlob = Err e) \/
     (exists e, ConvertTo (bkt_lower b) SessionStmtCtx TypeBlob = Err e) ->
     exists e, fst body = Err e) /\
  (forall pre sql post e l, txn_fault s = None -> sqls = Ok l ->
     l = pre ++ sql :: post ->
     runs_clean (fault s) (log s ++ [Begin]) pre ->
     fault s (log s ++ [Begin] ++ pre) sql = Some e ->
     fst body = Err e) /\
  (forall l, txn_fault s = None -> sqls = Ok l ->
     runs_clean (fault s) (log s ++ [Begin]) l ->
     fst body = Ok tt /\ log (snd out) = log s ++ [Begin] ++ l ++ [Commit]) /\
  (fst out <> None -> committed (snd out) = committed s).
Proof.
  intros Hbegin s1 body out sqls.
  assert (Hs1 : s1 = run_stmt Begin (set_log s (log s ++ [Begin]))).
  { subst s1. rewrite Execute_run, Hbegin. done. }
  assert (Hlog1 : log s1 = log s ++ [Begin]) by (by rewrite Hs1).
  assert (Hf1 : fault s1 = fault s) by (by rewrite Hs1).
  assert (Htf1 : txn_fault s1 = txn_fault s) by (by rewrite Hs1).
  assert (Hts1 : startTS s1 = startTS s) by (by rewrite Hs1).
  assert (Hc1 : committed s1 = committed s) by (by rewrite Hs1).
  assert (Ht1 : is_Some (txn s1)) by (rewrite Hs1; simpl; eauto).
  assert (Hbody : body =
    match txn_fault s with
    | Some e => (Err e, s1)
    | None =>
        match sqls with
        | Err e => (Err e, s1)
        | Ok l => execSQLs l s1
        end
    end).
  { subst body sqls. rewrite SaveStatsToStorage_body_run, Htf1, Hts1. done. }
  assert (Hframe : committed (snd body) = committed s /\
                   fault (snd body) = fault s /\
                   exists mid, log (snd body) = log s ++ Begin :: mid /\
                               Forall is_data mid).
  { rewrite Hbody. destruct (txn_fault s) as [e|]; simpl.
    { repeat split; [done | done |]. exists []. by rewrite Hlog1. }
    destruct sqls as [l|e] eqn:Hsqls; simpl.
    2:{ repeat split; [done | done |]. exists []. by rewrite Hlog1. }
    pose proof (SaveStatsToStorage_sqls_data _ _ _ _ _ _ _ Hsqls) as Hdata.
    destruct (execSQLs_frame l s1 Hdata Ht1) as (Hc & _ & Hf & ran & Hpre & Hl & _).
    repeat split; [congruence | congruence |].
    exists ran. split; [by rewrite Hl, Hlog1, <- app_assoc |].
    destruct Hpre as [k ->]. by apply Forall_app in Hdata as [? _]. }
  destruct Hframe as (Hcb & Hfb & Hmid).
  assert (Hout : out = finishTransaction (err_of (fst body)) (snd body)).
  { subst out. unfold SaveStatsToStorage. fold s1.
    rewrite Execute_run, Hbegin. rewrite <- Hs1. fold body.
    by destruct body. }
  assert (Hend : match fst body with
    | Ok _ => log (snd out) = log (snd body) ++ [Commit] /\
              fst out = fault s (log (snd body)) Commit /\
              (fst out <> None -> committed (snd out) = committed s)
    | Err e => log (snd out) = log (snd body) ++ [Rollback] /\
               fst out = Some e /\
               committed (snd out) = committed s
    end).
  { rewrite Hout. destruct (fst body) as [u|e]; simpl.
    - rewrite Execute_run, Hfb.
      destruct (fault s (log (snd body)) Commit) as [e|]; simpl; [done |].
      repeat split; done.
    - pose proof (Execute_frame Rollback (snd body)) as (Hl & _ & _).
      rewrite Execute_run in *.
      destruct (fault (snd body) (log (snd body)) Rollback); simpl in *; done. }
  split; [exact Hmid |].
  split.
  { destruct (fst body); destruct Hend as (? & ? & ?); done. }
  split.
  { intros e He. rewrite Hbody, He. done. }
  split.
  { intros e Htxn Henc. rewrite Hbody, Htxn. subst sqls.
    unfold SaveStatsToStorage_sqls. rewrite Henc. done. }
  split.
  { intros b Htxn Hin Hbad. rewrite Hbody, Htxn. subst sqls.
    unfold SaveStatsToStorage_sqls.
    destruct (EncodeCMSketch cms) as [data|e]; [| by exists e].
    edestruct SaveStatsToStorage_buckets_conversion_error as [e He];
      [exact Hin | exact Hbad |].
    rewrite He. by exists e. }
  split.
  { intros pre sql post e l Htxn Hsqls -> Hclean Hfault.
    rewrite Hbody, Htxn, Hsqls.
    apply execSQLs_fails; rewrite Hf1, Hlog1; [done |].
    by rewrite <- app_assoc. }
  split.
  { intros l Htxn Hsqls Hclean.
    assert (Hrun : fst body = Ok tt /\ log (snd body) = log s ++ [Begin] ++ l).
    { rewrite Hbody, Htxn, Hsqls.
      destruct (execSQLs_ok l s1) as [Hr Hl]; [by rewrite Hf1, Hlog1 |].
      split; [done |]. by rewrite Hl, Hlog1, <- app_assoc. }
    destruct Hrun as [Hr Hl]. split; [done |].
    rewrite Hr in Hend. destruct Hend as (Hlo & _ & _).
    by rewrite Hlo, Hl, <- !app_assoc. }
  destruct (fst body); destruct Hend as (? & ? & ?); done.
Qed.

(** ** The bucket delta round trip *)

Lemma i64_delta_sum prev c :
  int64_range c -> i64 (prev + i64 (c - prev)) = c.
Proof.
  intros Hc. rewrite Z.add_comm, i64_add_l.
  replace (c - prev + prev) with c by lia. by apply i64_id.
Qed.

Lemma filter_bool_all {A} (p : A -> bool) (l : list A) :
  Forall (fun x => p x = true) l -> filter p l = l.
Proof.
  induction 1 as [|x l Hx _ IH]; [done |].
  rewrite filter_cons, decide_True by (by rewrite Hx). by rewrite IH.
Qed.

Lemma filter_bool_none {A} (p : A -> bool) (l : list A) :
  filter p (filter (fun x => negb (p x)) l) = [].
Proof.
  induction l as [|x l IH]; [done |].
  rewrite filter_cons. destruct (p x) eqn:Hx; simpl; [exact IH |].
  rewrite filter_cons, Hx. simpl. exact IH.
Qed.

Lemma order_by_sorted {A} (key : A -> Z) (l : list A) :
  StronglySorted (fun a b => key a <= key b) l -> order_by key l = l.
Proof.
  unfold order_by. induction 1 as [|x l Hs IH Hx]; [done |].
  simpl. rewrite IH. destruct l as [|y l']; [done |].
  simpl. apply Forall_cons in Hx as [Hxy _].
  destruct (Z.leb_spec (key x) (key y)); [done | lia].
Qed.

(** *** What the save writes *)

Lemma SaveStatsToStorage_buckets_saved tableID isIndex hgID tp bs :
  forall i prev sqls,
  Forall (bounds_convertible isIndex tp) bs ->
  exists ins,
    SaveStatsToStorage_buckets tableID isIndex hgID i prev bs sqls =
      Ok (sqls ++ ins) /\
    Forall is_insert ins /\
    saved_as tableID isIndex hgID i prev bs (omap bucket_row_of ins).
Proof.
  induction bs as [|b rest IH]; intros i prev sqls Hconv.
  - exists []. simpl. by rewrite app_nil_r.
  - apply Forall_cons in Hconv as [(lo & up & Hlo & Hup & _) Hrest].
    simpl. rewrite Hup, Hlo.
    destruct (IH (i + 1) (bkt_Count b)
                (sqls ++ [InsertBucket tableID isIndex hgID i
                            (if 0 <? i then i64 (bkt_Count b - prev) else bkt_Count b)
                            (bkt_Repeat b) (GetBytes lo) (GetBytes up)]) Hrest)
      as (ins & Hrun & Hins & Hsaved).
    eexists (_ :: ins). rewrite Hrun, <- app_assoc. simpl.
    split; [done |]. split; [by constructor |].
    repeat split; try done. by exists lo, up.
Qed.

Lemma saved_as_length tableID isIndex hgID bs : forall i prev rows,
  saved_as tableID isIndex hgID i prev bs rows -> length rows = length bs.
Proof.
  induction bs as [|b rest IH]; intros i prev [|r rows] Hs; simpl in *; try done.
  destruct Hs as (_ & _ & _ & _ & _ & _ & _ & Hrest). f_equal. by eapply IH.
Qed.

Lemma saved_as_key tableID isIndex hgID bs : forall i prev rows,
  saved_as tableID isIndex hgID i prev bs rows ->
  Forall (fun r => same_hist tableID isIndex hgID (bucket_table_id r)
                     (bucket_is_index r) (bucket_hist_id r) = true) rows.
Proof.
  induction bs as [|b rest IH]; intros i prev [|r rows] Hs; simpl in *; try done.
  destruct Hs as (Ht & Hi & Hh & _ & _ & _ & _ & Hrest).
  constructor; [| by eapply IH].
  unfold same_hist. rewrite Ht, Hi, Hh, !Z.eqb_refl. done.
Qed.

Lemma saved_as_ids tableID isIndex hgID bs : forall i prev rows,
  saved_as tableID isIndex hgID i prev bs rows ->
  map bucket_bucket_id rows = seqZ i (Z.of_nat (length bs)).
Proof.
  induction bs as [|b rest IH]; intros i prev [|r rows] Hs; simpl in *; try done.
  destruct Hs as (_ & _ & _ & Hid & _ & _ & _ & Hrest).
  rewrite seqZ_cons by lia. rewrite Hid. f_equal.
  rewrite (IH _ _ _ Hrest). f_equal; lia.
Qed.

Lemma saved_as_sorted tableID isIndex hgID bs : forall i prev rows,
  saved_as tableID isIndex hgID i prev bs rows ->
  Forall (fun r => i <= bucket_bucket_id r) rows /\
  StronglySorted (fun a b => bucket_bucket_id a <= bucket_bucket_id b) rows.
Proof.
  induction bs as [|b rest IH]; intros i prev [|r rows] Hs; simpl in *; try done.
  { split; constructor. }
  destruct Hs as (_ & _ & _ & Hid & _ & _ & _ & Hrest).
  destruct (IH _ _ _ Hrest) as [Hlb Hsorted].
  split.
  - constructor; [lia |]. eapply Forall_impl; [exact Hlb |]. simpl. lia.
  - constructor; [done |]. eapply Forall_impl; [exact Hlb |]. simpl. lia.
Qed.

Lemma saved_as_repeats tableID isIndex hgID bs : forall i prev rows,
  saved_as tableID isIndex hgID i prev bs rows ->
  map bucket_repeats rows = map bkt_Repeat bs.
Proof.
  induction bs as [|b rest IH]; intros i prev [|r rows] Hs; simpl in *; try done.
  destruct Hs as (_ & _ & _ & _ & _ & Hrep & _ & Hrest).
  rewrite Hrep. f_equal. by eapply IH.
Qed.

Lemma saved_as_counts tableID isIndex hgID bs : forall i prev rows,
  saved_as tableID isIndex hgID i prev bs rows ->
  Forall (fun b => int64_range (bkt_Count b)) bs ->
  0 <= i -> (i = 0 -> prev = 0) ->
  map bucket_count rows = map i64 (deltas_from prev (map bkt_Count bs)).
Proof.
  induction bs as [|b rest IH]; intros i prev [|r rows] Hs Hrange Hi Hprev;
    simpl in *; try done.
  destruct Hs as (_ & _ & _ & _ & Hcnt & _ & _ & Hrest).
  apply Forall_cons in Hrange as [Hb Hrange].
  rewrite Hcnt. f_equal.
  - destruct (Z.ltb_spec 0 i); [done |].
    rewrite Hprev by lia. rewrite Z.sub_0_r. by rewrite i64_id.
  - eapply IH; [exact Hrest | done | lia | lia].
Qed.

(** *** What the reload rebuilds *)

Lemma histogramFromStorage_rows_saved tableID isIndex hgID tp bs :
  forall i prev rows hg0 total,
  saved_as tableID isIndex hgID i prev bs rows ->
  Forall (fun b => int64_range (bkt_Count b)) bs ->
  Forall (bounds_convertible isIndex tp) bs ->
  (if 0 <? i then total = prev else total = 0) ->
  0 <= i ->
  exists hg',
    histogramFromStorage_rows isIndex tp rows hg0 total = Ok hg' /\
    map bkt_Count (hg_Buckets hg') =
      map bkt_Count (hg_Buckets hg0) ++ map bkt_Count bs /\
    map bkt_Repeat (hg_Buckets hg') =
      map bkt_Repeat (hg_Buckets hg0) ++ map bkt_Repeat bs.
Proof.
  induction bs as [|b rest IH]; intros i prev [|r rows] hg0 total Hs Hrange Hconv
    Htotal Hi; simpl in Hs; try done.
  { exists hg0. simpl. by rewrite !app_nil_r. }
  destruct Hs as (_ & _ & _ & _ & Hcnt & Hrep & (lo & up & Hlo & Hup & Hrlo & Hrup) & Hrest).
  apply Forall_cons in Hrange as [Hb Hrange].
  apply Forall_cons in Hconv as [(lo1 & up1 & Hlo1 & Hup1 & Hback) Hconv].
  assert (lo1 = lo) as -> by congruence.
  assert (up1 = up) as -> by congruence.
  assert (Hsum : i64 (total + bucket_count r) = bkt_Count b).
  { rewrite Hcnt. destruct (Z.ltb_spec 0 i).
    - subst total. by apply i64_delta_sum.
    - subst total. by apply i64_id. }
  cbn [histogramFromStorage_rows]. rewrite Hsum, Hrep, Hrlo, Hrup.
  assert (Hnext : if 0 <? i + 1 then bkt_Count b = bkt_Count b
                  else bkt_Count b = 0).
  { destruct (Z.ltb_spec 0 (i + 1)); [done | lia]. }
  destruct (isIndex =? 1) eqn:Hidx.
  - edestruct (IH (i + 1) (bkt_Count b) rows) as (hg' & Hrun & Hc & Hr);
      [exact Hrest | done | done | exact Hnext | lia |].
    exists hg'. split; [exact Hrun |].
    rewrite Hc, Hr. simpl. rewrite !map_app, <- !app_assoc. done.
  - destruct Hback as [Heq|(lo' & up' & Hlo' & Hup')].
    { apply Z.eqb_neq in Hidx. done. }
    rewrite Hlo', Hup'.
    edestruct (IH (i + 1) (bkt_Count b) rows) as (hg' & Hrun & Hc & Hr);
      [exact Hrest | done | done | exact Hnext | lia |].
    exists hg'. split; [exact Hrun |].
    rewrite Hc, Hr. simpl. rewrite !map_app, <- !app_assoc. done.
Qed.

(** *** Through the store *)

Lemma execSQLs_txn sqls : forall s c0,
  Forall is_data sqls ->
  (forall l sql, fault s l sql = None) ->
  txn s = Some c0 ->
  txn (snd (execSQLs sqls s)) =
    Some (foldl (fun c sql => apply_data sql c) c0 sqls).
Proof.
  induction sqls as [|sql rest IH]; intros s c0 Hdata Hclean Htxn; [done |].
  apply Forall_cons in Hdata as [Hsql Hrest].
  cbn [execSQLs foldl]. unfold bind. rewrite Execute_run, Hclean.
  apply IH; [done | |].
  - intros l q. pose proof (run_stmt_frame sql (set_log s (log s ++ [sql])))
      as (_ & -> & _). apply Hclean.
  - destruct sql; simpl in *; try done; by rewrite Htxn.
Qed.

Lemma SaveStatsToStorage_clean tableID count isIndex hg cms s sqls :
  (forall l sql, fault s l sql = None) ->
  txn_fault s = None ->
  SaveStatsToStorage_sqls (startTS s) tableID count isIndex hg cms = Ok sqls ->
  let out := SaveStatsToStorage tableID count isIndex hg cms s in
  fst out = None /\
  log (snd out) = log s ++ Begin :: sqls ++ [Commit] /\
  committed (snd out) = foldl (fun c sql => apply_data sql c) (view s) sqls /\
  fault (snd out) = fault s.
Proof.
  intros Hclean Htxn Hsqls out. subst out.
  unfold SaveStatsToStorage. rewrite Execute_run, Hclean.
  set (s1 := run_stmt Begin (set_log s (log s ++ [Begin]))).
  rewrite SaveStatsToStorage_body_run.
  change (txn_fault s1) with (txn_fault s). rewrite Htxn.
  change (startTS s1) with (startTS s). rewrite Hsqls.
  pose proof (SaveStatsToStorage_sqls_data _ _ _ _ _ _ _ Hsqls) as Hdata.
  assert (Hclean1 : forall l sql, fault s1 l sql = None) by apply Hclean.
  destruct (execSQLs_ok sqls s1) as [Hr Hl].
  { intros pre sql post _. apply Hclean1. }
  pose proof (execSQLs_txn sqls s1 (view s) Hdata Hclean1 eq_refl) as Ht.
  destruct (execSQLs_frame sqls s1 Hdata) as (_ & _ & Hf & _); [by eexists |].
  destruct (execSQLs sqls s1) as [r s2]. simpl in *. subst r. simpl.
  rewrite Execute_run, Hf, Hclean1. simpl.
  unfold view. simpl. rewrite Ht, Hl.
  repeat split; [| done]. by rewrite <- !app_assoc.
Qed.

Lemma stats_buckets_inserts ins : forall c,
  Forall is_insert ins ->
  stats_buckets (foldl (fun c sql => apply_data sql c) c ins) =
    stats_buckets c ++ omap bucket_row_of ins.
Proof.
  induction ins as [|sql rest IH]; intros c Hins; simpl.
  - by rewrite app_nil_r.
  - apply Forall_cons in Hins as [Hsql Hrest].
    destruct sql; simpl in Hsql; try done.
    rewrite IH by done. simpl. by rewrite <- app_assoc.
Qed.

Lemma deltas_from_in_range prev cs :
  Forall int64_range (deltas_from prev cs) ->
  map i64 (deltas_from prev cs) = deltas_from prev cs.
Proof.
  induction 1 as [|d ds Hd _ IH]; [done |].
  simpl. by rewrite i64_id, IH.
Qed.

(** Cumulative counts are not negative, and then every delta fits. *)
Lemma deltas_from_nonneg_in_range cs : forall prev,
  0 <= prev < 2 ^ 63 ->
  Forall (fun c => 0 <= c < 2 ^ 63) cs ->
  Forall int64_range (deltas_from prev cs).
Proof.
  induction cs as [|c rest IH]; intros prev Hprev Hcs; simpl; [constructor |].
  apply Forall_cons in Hcs as [Hc Hrest].
  constructor; [unfold int64_range; lia | by apply IH].
Qed.

(** C4. Bucket delta round trip.  For a histogram whose buckets hold the
    cumulative counts [c1, ..., cn] (each an [int64]), saved through a
    store that refuses nothing: [SaveStatsToStorage] commits, and the
    stats_buckets rows of the histogram, read in bucket_id order, are the
    rows of its INSERT statements, numbered [0 .. n-1], with the 64-bit
    deltas [c1, c2 - c1, ..., cn - c(n-1)] in their count column (the exact
    deltas whenever these fit an [int64]) and the repeat counts of the
    buckets; and [histogramFromStorage], reading these rows, returns a
    histogram whose buckets carry again the cumulative counts [c1, ...,
    cn] and the same repeat counts. *)
Theorem bucket_delta_round_trip (tableID count isIndex : Z) (hg : Histogram)
    (cms : option CMSketch) (tp : FieldType)
    (distinct ver nullCount totColSize : Z) (corr : float64) (s : Store) :
  Forall (fun b => int64_range (bkt_Count b)) (hg_Buckets hg) ->
  Forall (bounds_convertible isIndex tp) (hg_Buckets hg) ->
  (exists data, EncodeCMSketch cms = Ok data) ->
  (forall l sql, fault s l sql = None) ->
  txn_fault s = None ->
  let cs := map bkt_Count (hg_Buckets hg) in
  let saved := SaveStatsToStorage tableID count isIndex hg cms s in
  let rows := rows_buckets tableID isIndex (hg_ID hg) (committed (snd saved)) in
  let loaded := histogramFromStorage tableID (hg_ID hg) tp distinct isIndex
                  ver nullCount totColSize corr None (snd saved) in
  fst saved = None /\
  (exists sqls,
     SaveStatsToStorage_sqls (startTS s) tableID count isIndex hg cms = Ok sqls /\
     log (snd saved) = log s ++ Begin :: sqls ++ [Commit] /\
     omap bucket_row_of sqls = rows) /\
  map bucket_bucket_id rows = seqZ 0 (Z.of_nat (length cs)) /\
  map bucket_count rows = map i64 (deltas cs) /\
  (Forall int64_range (deltas cs) -> map bucket_count rows = deltas cs) /\
  map bucket_repeats rows = map bkt_Repeat (hg_Buckets hg) /\
  exists hg',
    fst loaded = Ok hg' /\
    map bkt_Count (hg_Buckets hg') = cs /\
    map bkt_Repeat (hg_Buckets hg') = map bkt_Repeat (hg_Buckets hg).
Proof.
  intros Hrange Hconv [data Hdata] Hclean Htxn cs saved rows loaded.
  set (meta := if 0 <=? count
               then ReplaceMeta (startTS s) tableID count
               else UpdateMetaVersion (startTS s) tableID).
  set (pre3 := [meta;
                ReplaceHistogram tableID isIndex (hg_ID hg) (hg_NDV hg) (startTS s)
                  (hg_NullCount hg) data (hg_TotColSize hg) (hg_Correlation hg);
                DeleteBuckets tableID isIndex (hg_ID hg)]).
  destruct (SaveStatsToStorage_buckets_saved tableID isIndex (hg_ID hg) tp
              (hg_Buckets hg) 0 0 pre3 Hconv) as (ins & Hrun & Hins & Hsaved).
  assert (Hsqls : SaveStatsToStorage_sqls (startTS s) tableID count isIndex hg cms =
                  Ok (pre3 ++ ins)).
  { unfold SaveStatsToStorage_sqls. rewrite Hdata. rewrite <- Hrun.
    subst pre3 meta. by destruct (0 <=? count). }
  destruct (SaveStatsToStorage_clean tableID count isIndex hg cms s _
              Hclean Htxn Hsqls) as (Hret & Hlog & Hcommitted & Hfault).
  fold saved in Hret, Hlog, Hcommitted, Hfault.
  assert (Hrows : rows = omap bucket_row_of ins).
  { subst rows. unfold rows_buckets. rewrite Hcommitted, foldl_app.
    rewrite stats_buckets_inserts by done.
    assert (Hpre : stats_buckets (foldl (fun c sql => apply_data sql c) (view s) pre3) =
                   filter (fun r => negb (same_hist tableID isIndex (hg_ID hg)
                             (bucket_table_id r) (bucket_is_index r)
                             (bucket_hist_id r)))
                          (stats_buckets (view s))).
    { subst pre3 meta. by destruct (0 <=? count). }
    rewrite Hpre, filter_app.
    rewrite (filter_bool_none (fun r => same_hist tableID isIndex (hg_ID hg)
               (bucket_table_id r) (bucket_is_index r) (bucket_hist_id r))).
    rewrite filter_bool_all by (eapply saved_as_key; exact Hsaved).
    simpl. apply order_by_sorted. eapply saved_as_sorted. exact Hsaved. }
  assert (Homap : omap bucket_row_of (pre3 ++ ins) = omap bucket_row_of ins).
  { rewrite omap_app. subst pre3 meta. by destruct (0 <=? count). }
  assert (Hcounts : map bucket_count rows = map i64 (deltas cs)).
  { rewrite Hrows. eapply saved_as_counts; [exact Hsaved | done | lia | done]. }
  split; [exact Hret |].
  split.
  { exists (pre3 ++ ins). split; [done |]. split; [done |]. by rewrite Homap. }
  split.
  { rewrite Hrows. subst cs. rewrite length_map.
    eapply saved_as_ids. exact Hsaved. }
  split; [exact Hcounts |].
  split.
  { intros Hfit. rewrite Hcounts. by apply deltas_from_in_range. }
  split.
  { rewrite Hrows. eapply saved_as_repeats. exact Hsaved. }
  subst loaded. unfold histogramFromStorage, bind, restrictedRead.
  rewrite ExecRestrictedSQL_run, Hfault, Hclean. fold rows. rewrite Hrows.
  edestruct (histogramFromStorage_rows_saved tableID isIndex (hg_ID hg) tp
               (hg_Buckets hg) 0 0 (omap bucket_row_of ins))
    as (hg' & Hload & Hc & Hr); [exact Hsaved | done | done | done | lia |].
  exists hg'. unfold lift. simpl. rewrite Hload.
  split; [done |]. rewrite Hc, Hr. done.
Qed.

(** ** Lazy loading of column histograms *)

Lemma columnCountFromStorage_run tableID colID s :
  columnCountFromStorage tableID colID s =
    (match fault s (log s) (SelectSumCount tableID colID) with
     | Some e => Err e
     | None =>
         match rows_sum_count tableID colID (committed s) with
         | None => Ok 0
         | Some d => MyDecimal_ToInt d
         end
     end, set_log s (log s ++ [SelectSumCount tableID colID])).
Proof.
  unfold columnCountFromStorage, bind. rewrite ExecRestrictedSQL_run.
  destruct (fault s (log s) (SelectSumCount tableID colID)); [done |].
  by destruct (rows_sum_count tableID colID (committed s)).
Qed.

Lemma histogramFromStorage_run tableID colID tp distinct isIndex ver nullCount
    totColSize corr s :
  histogramFromStorage tableID colID tp distinct isIndex ver nullCount
    totColSize corr None s =
    (match fault s (log s) (SelectBuckets tableID isIndex colID) with
     | Some e => Err e
     | None =>
         histogramFromStorage_rows isIndex tp
           (rows_buckets tableID isIndex colID (committed s))
           (set_Correlation
              (NewHistogram colID distinct nullCount ver tp
                 (Z.of_nat (length (rows_buckets tableID isIndex colID (committed s))))
                 totColSize) corr) 0
     end, set_log s (log s ++ [SelectBuckets tableID isIndex colID])).
Proof.
  unfold histogramFromStorage, bind, restrictedRead.
  rewrite ExecRestrictedSQL_run.
  by destruct (fault s (log s) (SelectBuckets tableID isIndex colID)).
Qed.

Lemma cmSketchFromStorage_log tblID isIndex histID hist s :
  snd (cmSketchFromStorage tblID isIndex histID hist s) =
    set_log s (log s ++ [SelectCMSketch tblID isIndex histID]).
Proof.
  unfold cmSketchFromStorage, bind, restrictedRead.
  destruct hist as [snapshot|].
  - rewrite ExecRestrictedSQLWithSnapshot_run.
    destruct (fault s (log s) (SelectCMSketch tblID isIndex histID)); [done |].
    by destruct (rows_cm_sketch tblID isIndex histID snapshot).
  - rewrite ExecRestrictedSQL_run.
    destruct (fault s (log s) (SelectCMSketch tblID isIndex histID)); [done |].
    by destruct (rows_cm_sketch tblID isIndex histID (committed s)).
Qed.

Lemma histogramFromStorage_log tableID colID tp distinct isIndex ver nullCount
    totColSize corr hist s :
  snd (histogramFromStorage tableID colID tp distinct isIndex ver nullCount
         totColSize corr hist s) =
    set_log s (log s ++ [SelectBuckets tableID isIndex colID]).
Proof.
  unfold histogramFromStorage, bind, restrictedRead.
  destruct hist as [snapshot|].
  - rewrite ExecRestrictedSQLWithSnapshot_run.
    by destruct (fault s (log s) (SelectBuckets tableID isIndex colID)).
  - rewrite ExecRestrictedSQL_run.
    by destruct (fault s (log s) (SelectBuckets tableID isIndex colID)).
Qed.

Lemma rows_sum_count_stored tableID colID c :
  match rows_sum_count tableID colID c with
  | None => 0
  | Some d => d
  end = stored_count_sum tableID colID c.
Proof.
  unfold rows_sum_count, stored_count_sum.
  by destruct (filter _ (stats_buckets c)).
Qed.

Lemma histogramFromStorage_rows_meta isIndex tp rows : forall hg0 total hg',
  histogramFromStorage_rows isIndex tp rows hg0 total = Ok hg' ->
  length (hg_Buckets hg') = (length (hg_Buckets hg0) + length rows)%nat /\
  hg_ID hg' = hg_ID hg0 /\
  hg_NDV hg' = hg_NDV hg0 /\
  hg_NullCount hg' = hg_NullCount hg0 /\
  hg_LastUpdateVersion hg' = hg_LastUpdateVersion hg0.
Proof.
  induction rows as [|row rest IH]; intros hg0 total hg' Hrun; simpl in Hrun.
  - injection Hrun as <-. simpl. repeat split. lia.
  - match type of Hrun with
    | match ?b with _ => _ end = _ => destruct b as [[lo up]|e]; [| done]
    end.
    apply IH in Hrun as (Hlen & Hid & Hndv & Hnull & Hver). simpl in *.
    rewrite length_app in Hlen. simpl in Hlen.
    repeat split; [lia | done | done | done | done].
Qed.

(** The statements [columnStatsFromStorage] runs for a column that the
    table metadata knows: the summary query alone when the buckets are not
    to be loaded, and otherwise no summary query. *)
Lemma columnStatsFromStorage_log h row table tableInfo loadAll hist colInfo s :
  find (fun colInfo => hist_hist_id row =? ci_ID colInfo) (ti_Columns tableInfo) =
    Some colInfo ->
  exists l,
    snd (columnStatsFromStorage TotalRowCount h row table tableInfo loadAll hist s) =
      set_log s (log s ++ l) /\
    if notNeedLoad h (ti_PKIsHandle tableInfo && HasPriKeyFlag (ci_Flag colInfo))
         (Columns table !! hist_hist_id row) (hist_version row) loadAll
    then l = [SelectSumCount (PhysicalID table) (hist_hist_id row)]
    else Forall (fun sql => ~ is_sum_count sql) l.
Proof.
  intros Hfind. unfold columnStatsFromStorage. rewrite Hfind.
  destruct (notNeedLoad h _ _ _ loadAll).
  - exists [SelectSumCount (PhysicalID table) (hist_hist_id row)].
    split; [| done]. unfold bind at 1. unfold bind at 1.
    rewrite columnCountFromStorage_run.
    destruct (fault s _ _); [done |].
    destruct (rows_sum_count _ _ _) as [d|]; [| done].
    by destruct (MyDecimal_ToInt d).
  - match goal with
    | |- context [if ?b then _ else _] => destruct b
    end.
    + unfold bind at 1. unfold bind at 1.
      pose proof (histogramFromStorage_log (PhysicalID table) (hist_hist_id row)
                    (ci_FieldType colInfo) (hist_distinct_count row) 0
                    (hist_version row) (hist_null_count row)
                    (hist_tot_col_size row) (hist_correlation row) hist s) as Hlog.
      destruct (histogramFromStorage _ _ _ _ _ _ _ _ _ _ s) as [[hg|e] s1];
        simpl in Hlog; subst s1.
      * unfold bind at 1.
        match goal with
        | |- context [cmSketchFromStorage ?a ?b ?c ?d ?s0] =>
            pose proof (cmSketchFromStorage_log a b c d s0) as Hlog;
            destruct (cmSketchFromStorage a b c d s0) as [[cms|e] s2];
            simpl in Hlog; subst s2
        end.
        -- eexists [_; _]. simpl. rewrite <- app_assoc. split; [done |].
           repeat constructor; by intros [].
        -- eexists [_; _]. simpl. rewrite <- app_assoc. split; [done |].
           repeat constructor; by intros [].
      * eexists [_]. split; [done |]. repeat constructor; by intros [].
    + exists []. rewrite app_nil_r, set_log_id. split; [| constructor].
      unfold bind.
      destruct (Columns table !! hist_hist_id row) as [c|]; [| done].
      by destruct (negb _).
Qed.

Lemma notNeedLoad_spec h isHandle col histVer loadAll :
  notNeedLoad h isHandle col histVer loadAll = true <->
  0 < Lease h /\
  isHandle = false /\
  (col = None \/
   exists c, col = Some c /\ col_Len c = 0 /\
             hg_LastUpdateVersion (col_Histogram c) < histVer) /\
  loadAll = false.
Proof.
  unfold notNeedLoad.
  rewrite !andb_true_iff, !negb_true_iff, Z.ltb_lt.
  split.
  - intros [[[Hlease Hhandle] Hcol] Hall].
    repeat split; try done.
    destruct col as [c|]; [right | by left].
    apply andb_true_iff in Hcol as [Hlen Hver].
    exists c. by rewrite <- Z.eqb_eq, <- Z.ltb_lt.
  - intros (Hlease & Hhandle & Hcol & Hall).
    repeat split; try done.
    destruct Hcol as [->|(c & -> & Hlen & Hver)]; [done |].
    apply andb_true_iff. by rewrite Z.eqb_eq, Z.ltb_lt.
Qed.

(** The summary load: the column installed under the histogram ID has no
    bucket and counts the stored bucket counts plus the null count. *)
Lemma columnStatsFromStorage_lazy h row table tableInfo loadAll hist colInfo s :
  find (fun colInfo => hist_hist_id row =? ci_ID colInfo) (ti_Columns tableInfo) =
    Some colInfo ->
  notNeedLoad h (ti_PKIsHandle tableInfo && HasPriKeyFlag (ci_Flag colInfo))
    (Columns table !! hist_hist_id row) (hist_version row) loadAll = true ->
  fault s (log s) (SelectSumCount (PhysicalID table) (hist_hist_id row)) = None ->
  int64_range (stored_count_sum (PhysicalID table) (hist_hist_id row) (committed s)) ->
  exists c',
    fst (columnStatsFromStorage TotalRowCount h row table tableInfo loadAll hist s) =
      Ok (set_Columns table (<[hist_hist_id row := c']> (Columns table))) /\
    hg_Buckets (col_Histogram c') = [] /\
    col_Count c' =
      i64 (stored_count_sum (PhysicalID table) (hist_hist_id row) (committed s) +
           hist_null_count row) /\
    hg_ID (col_Histogram c') = hist_hist_id row /\
    hg_NDV (col_Histogram c') = hist_distinct_count row /\
    hg_NullCount (col_Histogram c') = hist_null_count row /\
    hg_LastUpdateVersion (col_Histogram c') = hist_version row /\
    col_CMSketch c' = None.
Proof.
  intros Hfind Hlazy Hfault Hsum.
  unfold columnStatsFromStorage. rewrite Hfind, Hlazy.
  unfold bind at 1. unfold bind at 1.
  rewrite columnCountFromStorage_run, Hfault.
  pose proof (rows_sum_count_stored (PhysicalID table) (hist_hist_id row)
                (committed s)) as Hstored.
  destruct (rows_sum_count (PhysicalID table) (hist_hist_id row) (committed s))
    as [d|].
  - subst d. unfold MyDecimal_ToInt.
    destruct Hsum as [Hlo Hhi].
    apply Z.leb_le in Hlo. apply Z.ltb_lt in Hhi. rewrite Hlo, Hhi. simpl.
    eexists. split; [reflexivity |]. simpl. done.
  - rewrite <- Hstored. simpl.
    eexists. split; [reflexivity |]. simpl. done.
Qed.

Lemma neededColumns_Delete_singleton col : neededColumns_Delete [col] col = [].
Proof.
  unfold neededColumns_Delete, tableColumnID_eqb, neededColumns.
  rewrite filter_cons, !Z.eqb_refl. done.
Qed.

(** C5. Lazy-load gating.  (1) The buckets of a column are not loaded
    exactly when the lease is positive, the column is not the handle, the
    column has no bucket yet (no cached entry, or an empty one with
    [LastUpdateVersion < histVer]) and [loadAll] is false.  (2) For a
    column row whose column the table metadata knows, the summary query is
    run exactly in that case, and then it is the only statement run; when
    it succeeds, the column installed under the histogram ID has an empty
    histogram and [Count] the sum of the stored bucket counts (0 for SQL
    NULL) plus the null count of the row, in 64-bit arithmetic.  (3) A
    later [LoadNeededHistograms] for such a column, cached without bucket
    under its histogram ID, reads the stored buckets and publishes, at the
    same snapshot version, the column with the loaded histogram, one bucket
    per stored row, and [Count] its total row count; the request leaves
    the needed set. *)
Theorem lazy_load_gating (h : Handle) :
  (forall isHandle col histVer loadAll,
     notNeedLoad h isHandle col histVer loadAll = true <->
     0 < Lease h /\
     isHandle = false /\
     (col = None \/
      exists c, col = Some c /\ col_Len c = 0 /\
                hg_LastUpdateVersion (col_Histogram c) < histVer) /\
     loadAll = false) /\
  (forall row table tableInfo loadAll hist colInfo s,
     find (fun colInfo => hist_hist_id row =? ci_ID colInfo) (ti_Columns tableInfo) =
       Some colInfo ->
     let lazy :=
       notNeedLoad h (ti_PKIsHandle tableInfo && HasPriKeyFlag (ci_Flag colInfo))
         (Columns table !! hist_hist_id row) (hist_version row) loadAll in
     let out := columnStatsFromStorage TotalRowCount h row table tableInfo
                  loadAll hist s in
     let sum := stored_count_sum (PhysicalID table) (hist_hist_id row) (committed s) in
     exists l,
       log (snd out) = log s ++ l /\
       (Exists is_sum_count l <-> lazy = true) /\
       (lazy = true ->
          l = [SelectSumCount (PhysicalID table) (hist_hist_id row)]) /\
       (lazy = true ->
        fault s (log s) (SelectSumCount (PhysicalID table) (hist_hist_id row)) = None ->
        int64_range sum ->
        exists table' c',
          fst out = Ok table' /\
          Columns table' !! hist_hist_id row = Some c' /\
          hg_ID (col_Histogram c') = hist_hist_id row /\
          col_Len c' = 0 /\
          hg_Buckets (col_Histogram c') = [] /\
          col_Count c' = i64 (sum + hist_null_count row) /\
          (int64_range (sum + hist_null_count row) ->
             col_Count c' = sum + hist_null_count row))) /\
  (forall tid cid tbl c hg cms s s1 s2,
     tables (h_statsCache h) !! tid = Some tbl ->
     PhysicalID tbl = tid ->
     Columns tbl !! cid = Some c ->
     hg_ID (col_Histogram c) = cid ->
     col_Len c = 0 ->
     histogramFromStorage tid cid (ci_FieldType (col_Info c))
       (hg_NDV (col_Histogram c)) 0 (hg_LastUpdateVersion (col_Histogram c))
       (hg_NullCount (col_Histogram c)) (hg_TotColSize (col_Histogram c))
       (hg_Correlation (col_Histogram c)) None s = (Ok hg, s1) ->
     cmSketchFromStorage tid 0 cid None s1 = (Ok cms, s2) ->
     exists h' tbl' c',
       LoadNeededHistograms TotalRowCount h [{| TableID := tid; ColumnID := cid |}] s =
         ((None, h', []), s2) /\
       version (h_statsCache h') = version (h_statsCache h) /\
       tables (h_statsCache h') !! tid = Some tbl' /\
       Columns tbl' !! cid = Some c' /\
       col_Histogram c' = hg /\
       col_CMSketch c' = cms /\
       col_Count c' = TotalRowCount hg /\
       length (hg_Buckets hg) = length (rows_buckets tid 0 cid (committed s))).
Proof.
  split; [intros; apply notNeedLoad_spec |].
  split.
  - intros row table tableInfo loadAll hist colInfo s Hfind lazy out sum.
    destruct (columnStatsFromStorage_log h row table tableInfo loadAll hist
                colInfo s Hfind) as (l & Hlog & Hl).
    fold lazy in Hl. fold out in Hlog.
    exists l. split; [by rewrite Hlog |].
    split.
    { destruct lazy.
      - subst l. split; [done |]. intros _. by constructor.
      - split; [| done]. intros Hex. by apply Forall_Exists_neg in Hl. }
    split.
    { intros Hlazy. by rewrite Hlazy in Hl. }
    intros Hlazy Hfault Hsum.
    destruct (columnStatsFromStorage_lazy h row table tableInfo loadAll hist
                colInfo s Hfind Hlazy Hfault Hsum)
      as (c' & Hrun & Hempty & Hcount & Hid & _).
    eexists _, c'. split; [exact Hrun |]. simpl.
    split; [apply lookup_insert_eq |].
    split; [done |]. split; [unfold col_Len, hg_Len; by rewrite Hempty |].
    split; [done |]. split; [done |].
    intros Hfit. rewrite Hcount. by apply i64_id.
  - intros tid cid tbl c hg cms s s1 s2 Htbl Hpid Hcol Hid Hlen Hhist Hcms.
    unfold LoadNeededHistograms, AllCols. cbn [LoadNeededHistograms_cols].
    cbn [TableID ColumnID]. rewrite Htbl.
    change (Columns (Table_Copy tbl)) with (Columns tbl). rewrite Hcol, Hlen.
    rewrite Hid. simpl (0 <? 0). cbv iota.
    rewrite Hhist, Hcms. rewrite neededColumns_Delete_singleton.
    eexists _, _, _. split; [reflexivity |].
    rewrite updateStatsCache_accept by (simpl; lia).
    simpl. rewrite Hpid.
    split; [done |]. split; [apply lookup_insert_eq |].
    split; [apply lookup_insert_eq |].
    split; [done |]. split; [done |]. split; [done |].
    rewrite histogramFromStorage_run in Hhist.
    destruct (fault s (log s) (SelectBuckets tid 0 cid)); [done |].
    injection Hhist as Hrows _.
    apply histogramFromStorage_rows_meta in Hrows as (Hl & _). simpl in Hl. lia.
Qed.

(** * Further properties of the handle *)

(** ** The copy-on-write update *)

Lemma foldl_delete_lookup (ids : list Z) : forall (m : gmap Z Table) id,
  foldl (fun m id => delete id m) m ids !! id =
    if decide (id ∈ ids) then None else m !! id.
Proof.
  induction ids as [|d rest IH]; intros m id; cbn [foldl].
  - rewrite decide_False by apply not_elem_of_nil. done.
  - rewrite IH. destruct (decide (id ∈ rest)) as [Hin|Hnin].
    + rewrite decide_True by (by right). done.
    + rewrite lookup_delete. destruct (decide (d = id)) as [->|Hne].
      * rewrite decide_True by left. done.
      * rewrite decide_False; [done |].
        intros Hin. apply elem_of_cons in Hin as [?|?]; congruence.
Qed.

Lemma foldl_insert_lookup (tbls : list Table) : forall (m : gmap Z Table) id,
  foldl (fun m t => <[PhysicalID t := t]> m) m tbls !! id =
    match last_with_id id tbls with
    | Some t => Some t
    | None => m !! id
    end.
Proof.
  unfold last_with_id.
  induction tbls as [|t rest IH]; intros m id; simpl; [done |].
  rewrite IH, filter_cons.
  destruct (Z.eqb_spec (PhysicalID t) id) as [Heq|Hne]; simpl.
  - rewrite last_cons.
    destruct (last (filter _ rest)); [done |].
    rewrite Heq. apply lookup_insert_eq.
  - destruct (last (filter _ rest)); [done |].
    by apply lookup_insert_ne.
Qed.

(** X1.  What [update] builds: the new snapshot has the new version; an ID
    on the delete list is absent from it, also when a table with that ID
    was given; otherwise the ID holds the last given table with that
    physical ID, and, when none was given, what the old snapshot held. *)
Theorem statsCache_update_lookup (sc : statsCache) (tbls : list Table)
    (deletedIDs : list Z) (newVersion : Z) (id : Z) :
  version (statsCache_update sc tbls deletedIDs newVersion) = newVersion /\
  tables (statsCache_update sc tbls deletedIDs newVersion) !! id =
    if decide (id ∈ deletedIDs) then None
    else match last_with_id id tbls with
         | Some t => Some t
         | None => tables sc !! id
         end.
Proof.
  split; [done |]. unfold statsCache_update. simpl.
  rewrite foldl_delete_lookup. case_decide; [done |].
  apply foldl_insert_lookup.
Qed.

Lemma updateStatsCache_keyed h c :
  keyed_by_PhysicalID (h_statsCache h) -> keyed_by_PhysicalID c ->
  keyed_by_PhysicalID (h_statsCache (updateStatsCache h c)).
Proof.
  intros Hh Hc. unfold updateStatsCache.
  by destruct (version (h_statsCache h) <=? version c).
Qed.

Lemma updateStatsCache_frame h c :
  mu_pid2tid (updateStatsCache h c) = mu_pid2tid h /\
  mu_schemaVersion (updateStatsCache h c) = mu_schemaVersion h /\
  h_lease (updateStatsCache h c) = h_lease h.
Proof.
  unfold updateStatsCache.
  by destruct (version (h_statsCache h) <=? version c).
Qed.

(** ** The public read API *)

(** X2.  [GetPartitionStats] settles: whatever the first call returned, a
    second call for the same ID, with any table metadata, returns the same
    table and leaves the handle as the first call left it.  The pseudo
    table made on a miss is the one every later caller sees. *)
Theorem GetPartitionStats_twice (h : Handle) (tblInfo tblInfo' : TableInfo)
    (pid : Z) :
  let first := GetPartitionStats PseudoTable h tblInfo pid in
  GetPartitionStats PseudoTable (snd first) tblInfo' pid = first /\
  tables (h_statsCache (snd first)) !! pid = Some (fst first) /\
  version (h_statsCache (snd first)) = version (h_statsCache h) /\
  (forall id, id <> pid ->
     tables (h_statsCache (snd first)) !! id = tables (h_statsCache h) !! id).
Proof.
  unfold GetPartitionStats.
  destruct (tables (h_statsCache h) !! pid) as [tbl|] eqn:Hpid; simpl.
  - rewrite Hpid. done.
  - rewrite updateStatsCache_accept by (simpl; lia). simpl.
    rewrite lookup_insert_eq.
    split; [done |]. split; [done |]. split; [done |].
    intros id Hne. by apply lookup_insert_ne.
Qed.

(** X3.  [SetLastUpdateVersion] can only raise the version: afterwards the
    version is the greater of the old one and the requested one, and the
    tables, the partition index and the lease are what they were. *)
Theorem SetLastUpdateVersion_max (h : Handle) (v : Z) :
  LastUpdateVersion (SetLastUpdateVersion h v) = Z.max (LastUpdateVersion h) v /\
  tables (h_statsCache (SetLastUpdateVersion h v)) = tables (h_statsCache h) /\
  mu_pid2tid (SetLastUpdateVersion h v) = mu_pid2tid h /\
  mu_schemaVersion (SetLastUpdateVersion h v) = mu_schemaVersion h /\
  Lease (SetLastUpdateVersion h v) = Lease h.
Proof.
  unfold SetLastUpdateVersion, LastUpdateVersion, Lease.
  rewrite statsCache_update_nil.
  destruct (Z.le_gt_cases (version (h_statsCache h)) v) as [Hle|Hgt].
  - rewrite updateStatsCache_accept by done. simpl.
    repeat split. lia.
  - rewrite updateStatsCache_reject by (simpl; lia).
    repeat split. lia.
Qed.

(** ** What a table load keeps *)

Lemma bind_Ok_inv {A B} (m : M A) (k : A -> M B) s b s' :
  bind m k s = (Ok b, s') ->
  exists a s1, m s = (Ok a, s1) /\ k a s1 = (Ok b, s').
Proof.
  unfold bind. destruct (m s) as [[a|e] s1]; [| done].
  intros Hk. by exists a, s1.
Qed.

Lemma same_header_refl t : same_header t t.
Proof. by repeat split. Qed.

Lemma same_header_trans t1 t2 t3 :
  same_header t1 t2 -> same_header t2 t3 -> same_header t1 t3.
Proof.
  unfold same_header. intros (? & ? & ? & ? & ? & ? & ?) (? & ? & ? & ? & ? & ? & ?).
  repeat split; congruence.
Qed.

Lemma columnStatsFromStorage_header h row table tableInfo loadAll hist s t' s' :
  columnStatsFromStorage TotalRowCount h row table tableInfo loadAll hist s =
    (Ok t', s') ->
  same_header table t' /\ Indices t' = Indices table.
Proof.
  unfold columnStatsFromStorage. intros Hrun.
  apply bind_Ok_inv in Hrun as (col & s1 & _ & Hret).
  destruct col as [c|]; injection Hret as <- _; split; try done;
    by repeat split.
Qed.

Lemma indexStatsFromStorage_header row table tableInfo hist s t' s' :
  indexStatsFromStorage row table tableInfo hist s = (Ok t', s') ->
  same_header table t' /\ Columns t' = Columns table.
Proof.
  unfold indexStatsFromStorage. intros Hrun.
  apply bind_Ok_inv in Hrun as (idx & s1 & _ & Hret).
  destruct idx as [i|]; injection Hret as <- _; split; try done;
    by repeat split.
Qed.

Lemma tableStatsFromStorage_rows_header h rows :
  forall table tableInfo loadAll hist s t' s',
  tableStatsFromStorage_rows TotalRowCount h rows table tableInfo loadAll hist s =
    (Ok t', s') ->
  same_header table t'.
Proof.
  induction rows as [|row rest IH]; intros table tableInfo loadAll hist s t' s' Hrun;
    cbn [tableStatsFromStorage_rows] in Hrun.
  - injection Hrun as <- _. apply same_header_refl.
  - apply bind_Ok_inv in Hrun as (t1 & s1 & Hrow & Hrest).
    apply IH in Hrest.
    eapply same_header_trans; [| exact Hrest].
    destruct (0 <? hist_is_index row).
    + by apply indexStatsFromStorage_header in Hrow as [? _].
    + by apply columnStatsFromStorage_header in Hrow as [? _].
Qed.

Lemma tableStatsFromStorage_Some_inv (h : Handle) (tableInfo : TableInfo)
    (physicalID : Z) (loadAll : bool) (hist : option Catalog) (s s' : Store)
    (t : Table) :
  tableStatsFromStorage TotalRowCount h tableInfo physicalID loadAll hist s =
    (Ok (Some t), s') ->
  let start :=
    match tables (h_statsCache h) !! physicalID, hist with
    | Some cached, None => cached
    | _, _ => empty_Table physicalID
    end in
  Pseudo t = false /\
  PhysicalID t = PhysicalID start /\
  HavePhysicalID t = HavePhysicalID start /\
  Count t = Count start /\
  ModifyCount t = ModifyCount start /\
  Version t = Version start /\
  Name t = Name start /\
  fault s (log s) (SelectHistograms physicalID) = None /\
  rows_histograms physicalID
    (match hist with Some snapshot => snapshot | None => committed s end) <> [].
Proof.
  intros Hrun start. unfold tableStatsFromStorage in Hrun.
  apply bind_Ok_inv in Hrun as (res & s1 & Hread & Hrest).
  assert (Hres : res =
    match fault s (log s) (SelectHistograms physicalID) with
    | Some e => Err e
    | None => Ok (rows_histograms physicalID
                    (match hist with Some snapshot => snapshot | None => committed s end))
    end).
  { unfold try, restrictedRead in Hread. destruct hist as [snapshot|].
    - rewrite ExecRestrictedSQLWithSnapshot_run in Hread. by inversion Hread.
    - rewrite ExecRestrictedSQL_run in Hread. by inversion Hread. }
  destruct (fault s (log s) (SelectHistograms physicalID)) as [e|];
    subst res; [done |].
  destruct (rows_histograms physicalID _) as [|row rows] eqn:Hrows; [done |].
  apply bind_Ok_inv in Hrest as (t1 & s2 & Hload & Hret).
  injection Hret as <- _.
  apply tableStatsFromStorage_rows_header in Hload
    as (Hpid & Hhave & Hpseudo & Hcount & Hmod & Hver & Hname).
  simpl in Hpid, Hhave, Hpseudo, Hcount, Hmod, Hver, Hname.
  assert (Hstart : match tables (h_statsCache h) !! physicalID, hist with
                   | Some table, None => Table_Copy table
                   | _, _ => empty_Table physicalID
                   end = start).
  { subst start. destruct (tables (h_statsCache h) !! physicalID) as [[]|];
      destruct hist; done. }
  rewrite Hstart in Hpid, Hhave, Hcount, Hmod, Hver, Hname.
  repeat split; done.
Qed.

(** X4.  A table that [tableStatsFromStorage] returns is never pseudo; it
    comes from a histogram query that succeeded with at least one row; its
    physical ID, counts, version and name are those of the table the load
    started from: the cached entry when there is one and no history
    executor is given, a fresh table for the requested ID otherwise. *)
Theorem tableStatsFromStorage_loaded (h : Handle) (tableInfo : TableInfo)
    (physicalID : Z) (loadAll : bool) (hist : option Catalog) (s s' : Store)
    (t : Table) :
  tableStatsFromStorage TotalRowCount h tableInfo physicalID loadAll hist s =
    (Ok (Some t), s') ->
  let start :=
    match tables (h_statsCache h) !! physicalID, hist with
    | Some cached, None => cached
    | _, _ => empty_Table physicalID
    end in
  Pseudo t = false /\
  PhysicalID t = PhysicalID start /\
  HavePhysicalID t = HavePhysicalID start /\
  Count t = Count start /\
  ModifyCount t = ModifyCount start /\
  Version t = Version start /\
  Name t = Name start /\
  fault s (log s) (SelectHistograms physicalID) = None /\
  rows_histograms physicalID
    (match hist with Some snapshot => snapshot | None => committed s end) <> [].
Proof. apply tableStatsFromStorage_Some_inv. Qed.

(** ** What a refresh publishes *)

Lemma last_map_cons {A} (f : A -> Z) (x : A) (l : list A) (d : Z) :
  List.last (map f (x :: l)) d = List.last (map f l) (f x).
Proof.
  simpl. destruct (map f l) as [|v vs]; [done |].
  revert v. induction vs as [|w ws IH]; intros v; [done |].
  simpl in *. apply IH.
Qed.

(** The loop of the refresh always comes to its end: an error of a table
    load is caught.  The tables it collects are loaded tables of the rows'
    IDs, the IDs it collects are IDs of the rows, and each row adds at most
    one of either. *)
Lemma Update_rows_result is_ rows : forall h tbls deleted lastVersion s,
  exists h1 tbls1 deleted1 s1,
    Update_rows TotalRowCount is_ rows h tbls deleted lastVersion s =
      (Ok (h1, tbls ++ tbls1, deleted ++ deleted1,
           List.last (map meta_version rows) lastVersion), s1) /\
    h_statsCache h1 = h_statsCache h /\
    h_lease h1 = h_lease h /\
    Forall (fun t => Pseudo t = false /\
                     (keyed_by_PhysicalID (h_statsCache h) ->
                      PhysicalID t ∈ map meta_table_id rows)) tbls1 /\
    Forall (fun d => d ∈ map meta_table_id rows) deleted1 /\
    (length tbls1 + length deleted1 <= length rows)%nat.
Proof.
  induction rows as [|row rest IH]; intros h tbls deleted lastVersion s.
  - exists h, [], [], s. simpl. rewrite !app_nil_r.
    repeat split; try constructor.
  - rewrite last_map_cons. cbn [Update_rows].
    pose proof (getTableByPhysicalID_frame h is_ (meta_table_id row)) as [Hsc Hlease].
    assert (Hweak_t : forall h0 tbls1,
      h_statsCache h0 = h_statsCache h ->
      Forall (fun t => Pseudo t = false /\
                (keyed_by_PhysicalID (h_statsCache h0) ->
                 PhysicalID t ∈ map meta_table_id rest)) tbls1 ->
      Forall (fun t => Pseudo t = false /\
                (keyed_by_PhysicalID (h_statsCache h) ->
                 PhysicalID t ∈ map meta_table_id (row :: rest))) tbls1).
    { intros h0 tbls1 Hh0 Htbls. eapply Forall_impl; [exact Htbls |]. simpl.
      intros t [Hp Hk]. split; [done |].
      intros Hkeyed. right. apply Hk. by rewrite Hh0. }
    assert (Hweak_d : forall deleted1,
      Forall (fun d => d ∈ map meta_table_id rest) deleted1 ->
      Forall (fun d => d ∈ map meta_table_id (row :: rest)) deleted1).
    { intros deleted1 Hdel. eapply Forall_impl; [exact Hdel |]. simpl.
      intros d Hd. by right. }
    destruct (getTableByPhysicalID h is_ (meta_table_id row)) as [[tableInfo|] h0];
      simpl in Hsc, Hlease.
    + unfold bind, try.
      destruct (tableStatsFromStorage TotalRowCount h0 tableInfo (meta_table_id row)
                  false None s) as [[[tbl|]|e] s0] eqn:Hload.
      * destruct (IH h0 (tbls ++ [set_meta tbl (meta_version row) (meta_count row)
                                    (meta_modify_count row)
                                    (getFullTableName is_ tableInfo)])
                    deleted (meta_version row) s0)
          as (h1 & tbls1 & deleted1 & s1 & Hrun & Hsc1 & Hl1 & Htbls & Hdel & Hlen).
        exists h1, (set_meta tbl (meta_version row) (meta_count row)
                      (meta_modify_count row) (getFullTableName is_ tableInfo)
                    :: tbls1), deleted1, s1.
        rewrite Hrun, <- app_assoc. simpl.
        split; [done |]. split; [congruence |]. split; [congruence |].
        apply tableStatsFromStorage_Some_inv in Hload
          as (Hpseudo & Hpid & _). simpl in Hpid.
        split; [| split; [by apply Hweak_d | lia]].
        constructor; [| by apply (Hweak_t h0)].
        split; [done |]. simpl. intros Hkeyed. rewrite Hpid, Hsc.
        destruct (tables (h_statsCache h) !! meta_table_id row)
          as [cached|] eqn:Hc.
        -- rewrite (Hkeyed _ _ Hc). left.
        -- simpl. left.
      * destruct (IH h0 tbls (deleted ++ [meta_table_id row]) (meta_version row) s0)
          as (h1 & tbls1 & deleted1 & s1 & Hrun & Hsc1 & Hl1 & Htbls & Hdel & Hlen).
        exists h1, tbls1, (meta_table_id row :: deleted1), s1.
        rewrite Hrun, <- app_assoc. simpl.
        split; [done |]. split; [congruence |]. split; [congruence |].
        split; [by apply (Hweak_t h0) |].
        split; [constructor; [left | by apply Hweak_d] | lia].
      * destruct (IH h0 tbls deleted (meta_version row) s0)
          as (h1 & tbls1 & deleted1 & s1 & Hrun & Hsc1 & Hl1 & Htbls & Hdel & Hlen).
        exists h1, tbls1, deleted1, s1. rewrite Hrun.
        split; [done |]. split; [congruence |]. split; [congruence |].
        split; [by apply (Hweak_t h0) |].
        split; [by apply Hweak_d | simpl; lia].
    + destruct (IH h0 tbls (deleted ++ [meta_table_id row]) (meta_version row) s)
        as (h1 & tbls1 & deleted1 & s1 & Hrun & Hsc1 & Hl1 & Htbls & Hdel & Hlen).
      exists h1, tbls1, (meta_table_id row :: deleted1), s1.
      rewrite Hrun, <- app_assoc. simpl.
      split; [done |]. split; [congruence |]. split; [congruence |].
      split; [by apply (Hweak_t h0) |].
      split; [constructor; [left | by apply Hweak_d] | lia].
Qed.

(** The outcome of a refresh whose meta query was answered. *)
Lemma Update_result h is_ s :
  fault s (log s) (SelectMeta (Update_lastVersion h)) = None ->
  let rows := rows_meta (Update_lastVersion h) (committed s) in
  exists h1 tbls deleted s',
    Update TotalRowCount h is_ s =
      (Ok (updateStatsCache h1
             (statsCache_update (h_statsCache h) tbls deleted
                (List.last (map meta_version rows) (Update_lastVersion h)))), s') /\
    h_statsCache h1 = h_statsCache h /\
    h_lease h1 = h_lease h /\
    Forall (fun t => Pseudo t = false /\
                     (keyed_by_PhysicalID (h_statsCache h) ->
                      PhysicalID t ∈ map meta_table_id rows)) tbls /\
    Forall (fun d => d ∈ map meta_table_id rows) deleted /\
    (length tbls + length deleted <= length rows)%nat.
Proof.
  intros Hfault rows. unfold Update. unfold bind at 1.
  rewrite ExecRestrictedSQL_run, Hfault. fold rows.
  destruct (Update_rows_result is_ rows h [] [] (Update_lastVersion h)
              (set_log s (log s ++ [SelectMeta (Update_lastVersion h)])))
    as (h1 & tbls & deleted & s1 & Hrun & Hsc & Hl & Htbls & Hdel & Hlen).
  unfold bind. rewrite Hrun. simpl.
  exists h1, tbls, deleted, s1. done.
Qed.

Lemma Update_lastVersion_le h :
  uint64_range (version (h_statsCache h)) ->
  Update_lastVersion h <= version (h_statsCache h).
Proof.
  intros Hv. unfold Update_lastVersion.
  pose proof (u64_range (Z.lor (i64 (Z.shiftl
    (Z.quot (i64 (3 * Lease h)) 1000000) physicalShiftBits)) 0)) as Ho.
  unfold DurationToTS, ComposeTS.
  destruct (Z.leb_spec (u64 (Z.lor (i64 (Z.shiftl
    (Z.quot (i64 (3 * Lease h)) 1000000) physicalShiftBits)) 0))
    (version (h_statsCache h))) as [Hle|Hgt].
  - rewrite u64_id; unfold uint64_range in *; lia.
  - unfold uint64_range in *. lia.
Qed.

(** X5.  A refresh whose meta query is answered never fails, whatever
    happens to the table loads.  Afterwards the version of the snapshot is
    the greater of the old version and the version of the last meta row
    read.  When that last row lies below the old version, the whole
    refresh is discarded and the snapshot stays as it was; and when the
    query returns no row, the snapshot stays as it was too. *)
Theorem Update_publishes (h : Handle) (is_ : InfoSchema) (s : Store) :
  fault s (log s) (SelectMeta (Update_lastVersion h)) = None ->
  let rows := rows_meta (Update_lastVersion h) (committed s) in
  let lastVersion := List.last (map meta_version rows) (Update_lastVersion h) in
  exists h' s',
    Update TotalRowCount h is_ s = (Ok h', s') /\
    version (h_statsCache h') = Z.max (version (h_statsCache h)) lastVersion /\
    (lastVersion < version (h_statsCache h) -> h_statsCache h' = h_statsCache h) /\
    (uint64_range (version (h_statsCache h)) -> rows = [] ->
       h_statsCache h' = h_statsCache h) /\
    Lease h' = Lease h.
Proof.
  intros Hfault rows lastVersion.
  destruct (Update_result h is_ s Hfault)
    as (h1 & tbls & deleted & s' & Hrun & Hsc & Hl & Htbls & Hdel & Hlen).
  fold rows in Hrun, Htbls, Hdel, Hlen. fold lastVersion in Hrun.
  eexists _, s'. split; [exact Hrun |].
  pose proof (updateStatsCache_frame h1
                (statsCache_update (h_statsCache h) tbls deleted lastVersion))
    as (_ & _ & Hlease).
  destruct (Z.le_gt_cases (version (h_statsCache h)) lastVersion) as [Hle|Hgt].
  - rewrite updateStatsCache_accept by (rewrite Hsc; simpl; lia). simpl.
    split; [lia |]. split; [lia |]. split; [| done].
    intros Hrange Hrows.
    assert (Hlast : lastVersion = Update_lastVersion h).
    { subst lastVersion. by rewrite Hrows. }
    pose proof (Update_lastVersion_le h Hrange) as Hsince.
    rewrite Hrows in Hlen. simpl in Hlen.
    assert (Htbls0 : tbls = []) by (destruct tbls; [done | simpl in Hlen; lia]).
    assert (Hdel0 : deleted = []) by (destruct deleted; [done | simpl in Hlen; lia]).
    subst tbls deleted. rewrite statsCache_update_nil.
    destruct (h_statsCache h) as [tb v]. simpl in *. f_equal. lia.
  - rewrite updateStatsCache_reject by (rewrite Hsc; simpl; lia).
    rewrite Hsc. unfold Lease. split; [lia |]. split; [done |]. split; done.
Qed.

Lemma last_with_id_none id tbls :
  Forall (fun t => PhysicalID t <> id) tbls -> last_with_id id tbls = None.
Proof.
  unfold last_with_id. induction 1 as [|t rest Ht _ IH]; [done |].
  rewrite filter_cons.
  destruct (Z.eqb_spec (PhysicalID t) id); [done |]. simpl. exact IH.
Qed.

(** X6.  A refresh touches only the tables of the meta rows it read: in a
    snapshot whose entries sit under their own physical IDs, an ID that no
    row read by [Update] names holds after the refresh what it held
    before. *)
Theorem Update_frame (h : Handle) (is_ : InfoSchema) (s s' : Store)
    (h' : Handle) (id : Z) :
  keyed_by_PhysicalID (h_statsCache h) ->
  Update TotalRowCount h is_ s = (Ok h', s') ->
  id ∉ map meta_table_id (rows_meta (Update_lastVersion h) (committed s)) ->
  tables (h_statsCache h') !! id = tables (h_statsCache h) !! id.
Proof.
  intros Hkeyed Hrun Hid.
  assert (Hfault : fault s (log s) (SelectMeta (Update_lastVersion h)) = None).
  { unfold Update in Hrun. apply bind_Ok_inv in Hrun as (rows & s1 & Hread & _).
    rewrite ExecRestrictedSQL_run in Hread.
    by destruct (fault s (log s) (SelectMeta (Update_lastVersion h))). }
  destruct (Update_result h is_ s Hfault)
    as (h1 & tbls & deleted & s1 & Hrun1 & Hsc & _ & Htbls & Hdel & _).
  rewrite Hrun in Hrun1. injection Hrun1 as -> _.
  unfold updateStatsCache.
  destruct (version (h_statsCache h1) <=? _); simpl; [| by rewrite Hsc].
  rewrite foldl_delete_lookup, decide_False.
  - rewrite foldl_insert_lookup, last_with_id_none; [done |].
    eapply Forall_impl; [exact Htbls |]. simpl.
    intros t [_ Hin] Heq. apply Hid. rewrite <- Heq. by apply Hin.
  - intros Hin. apply Hid.
    by apply (proj1 (list.Forall_forall _ _) Hdel).
Qed.

(** ** What the on-demand loader keeps *)

Lemma tableColumnID_eqb_eq a b : tableColumnID_eqb a b = true <-> a = b.
Proof.
  unfold tableColumnID_eqb. rewrite andb_true_iff, !Z.eqb_eq.
  destruct a, b; simpl. split; [intros [-> ->]; done | intros [= -> ->]; done].
Qed.

Lemma neededColumns_Delete_elem needed col x :
  x ∈ neededColumns_Delete needed col <-> x ∈ needed /\ x <> col.
Proof.
  unfold neededColumns_Delete, neededColumns. rewrite list_elem_of_filter.
  pose proof (tableColumnID_eqb_eq x col) as Heq.
  destruct (tableColumnID_eqb x col); simpl; intuition (done || congruence).
Qed.

Lemma publish_same_key h tbl tbl' id :
  keyed_by_PhysicalID (h_statsCache h) ->
  tables (h_statsCache h) !! id = Some tbl ->
  PhysicalID tbl' = PhysicalID tbl ->
  let h' := updateStatsCache h
              (statsCache_update (h_statsCache h) [tbl'] []
                 (version (h_statsCache h))) in
  keyed_by_PhysicalID (h_statsCache h') /\
  dom (tables (h_statsCache h')) = dom (tables (h_statsCache h)).
Proof.
  intros Hkeyed Hid Hpid h'. subst h'.
  rewrite updateStatsCache_accept by (simpl; lia). simpl.
  rewrite Hpid, (Hkeyed _ _ Hid). split.
  - intros k t. simpl. rewrite lookup_insert. case_decide.
    + intros [= <-]. subst k. rewrite Hpid. by apply Hkeyed in Hid.
    + apply Hkeyed.
  - rewrite dom_insert_L. apply elem_of_dom_2 in Hid.
    apply set_eq. intros k. rewrite elem_of_union, elem_of_singleton.
    split; [intros [->|?]; done | by right].
Qed.

Lemma LoadNeededHistograms_cols_inv cols : forall h needed s,
  let out := LoadNeededHistograms_cols TotalRowCount cols h needed s in
  version (h_statsCache (loader_handle out)) = version (h_statsCache h) /\
  mu_pid2tid (loader_handle out) = mu_pid2tid h /\
  mu_schemaVersion (loader_handle out) = mu_schemaVersion h /\
  h_lease (loader_handle out) = h_lease h /\
  (forall x, x ∈ loader_needed out -> x ∈ needed) /\
  (keyed_by_PhysicalID (h_statsCache h) ->
     keyed_by_PhysicalID (h_statsCache (loader_handle out)) /\
     dom (tables (h_statsCache (loader_handle out))) = dom (tables (h_statsCache h))) /\
  committed (snd out) = committed s.
Proof.
  unfold loader_handle, loader_needed.
  induction cols as [|col rest IH]; intros h needed s;
    cbn [LoadNeededHistograms_cols];
    [repeat (match goal with |- _ /\ _ => split end); done |].
  assert (Hdrop : forall x,
    x ∈ snd (fst (LoadNeededHistograms_cols TotalRowCount rest h
                    (neededColumns_Delete needed col) s)) -> x ∈ needed).
  { intros x Hx. apply (IH h (neededColumns_Delete needed col) s) in Hx.
    by apply neededColumns_Delete_elem in Hx as [? _]. }
  destruct (tables (h_statsCache h) !! TableID col) as [tbl|] eqn:Htbl; [| apply IH].
  change (Columns (Table_Copy tbl)) with (Columns tbl).
  destruct (Columns tbl !! ColumnID col) as [c|].
  2:{ destruct (IH h (neededColumns_Delete needed col) s)
        as (? & ? & ? & ? & _ & ? & ?).
      repeat (match goal with |- _ /\ _ => split end);
        first [done | exact Hdrop]. }
  destruct (0 <? col_Len c).
  { destruct (IH h (neededColumns_Delete needed col) s)
      as (? & ? & ? & ? & _ & ? & ?).
    repeat (match goal with |- _ /\ _ => split end);
      first [done | exact Hdrop]. }
  pose proof (reads_histogramFromStorage (TableID col) (hg_ID (col_Histogram c))
                (ci_FieldType (col_Info c)) (hg_NDV (col_Histogram c)) 0
                (hg_LastUpdateVersion (col_Histogram c))
                (hg_NullCount (col_Histogram c)) (hg_TotColSize (col_Histogram c))
                (hg_Correlation (col_Histogram c)) None s) as [l1 Hl1].
  destruct (histogramFromStorage _ _ _ _ _ _ _ _ _ _ s) as [[hg|e] s1];
    simpl in Hl1; subst s1;
    [| repeat (match goal with |- _ /\ _ => split end); done].
  match goal with
  | |- context [cmSketchFromStorage ?a ?b ?c ?d ?s0] =>
      pose proof (reads_cmSketchFromStorage a b c d s0) as [l2 Hl2];
      destruct (cmSketchFromStorage a b c d s0) as [[cms|e] s2];
      simpl in Hl2; subst s2;
      [| repeat (match goal with |- _ /\ _ => split end); done]
  end.
  match goal with
  | |- context [LoadNeededHistograms_cols _ rest ?h2 ?n2 ?s2] =>
      set (hh := h2); set (ss := s2);
      destruct (IH hh n2 ss) as (Hv & Hp & Hs & Hl & Hn & Hk & Hc)
  end.
  assert (Hhh : version (h_statsCache hh) = version (h_statsCache h) /\
                mu_pid2tid hh = mu_pid2tid h /\
                mu_schemaVersion hh = mu_schemaVersion h /\
                h_lease hh = h_lease h).
  { subst hh. rewrite updateStatsCache_accept by (simpl; lia). done. }
  destruct Hhh as (Hv2 & Hp2 & Hs2 & Hl2).
  split; [congruence |]. split; [congruence |]. split; [congruence |].
  split; [congruence |].
  split.
  { intros x Hx. apply Hn in Hx.
    by apply neededColumns_Delete_elem in Hx as [? _]. }
  split; [| exact Hc].
  intros Hkeyed.
  destruct (publish_same_key h tbl
              (set_Columns (Table_Copy tbl)
                 (<[hg_ID (col_Histogram c) :=
                      {| col_Histogram := hg; col_CMSketch := cms;
                         col_PhysicalID := TableID col;
                         col_Count := TotalRowCount hg;
                         col_Info := col_Info c;
                         col_IsHandle := col_IsHandle c |}]> (Columns tbl)))
              (TableID col) Hkeyed Htbl eq_refl) as [Hk1 Hd1].
  destruct (Hk Hk1) as [Hk2 Hd2]. split; [exact Hk2 |].
  etrans; [exact Hd2 | exact Hd1].
Qed.

(** X7.  The on-demand loader changes neither the version of the snapshot
    nor the partition index nor the lease, only removes requests from the
    needed set, and issues reads only: the committed catalog is what it
    was.  On a snapshot whose entries sit under their own physical IDs it
    neither adds nor removes a table. *)
Theorem LoadNeededHistograms_keeps (h : Handle) (needed : neededColumns)
    (s : Store) :
  let out := LoadNeededHistograms TotalRowCount h needed s in
  version (h_statsCache (loader_handle out)) = version (h_statsCache h) /\
  mu_pid2tid (loader_handle out) = mu_pid2tid h /\
  mu_schemaVersion (loader_handle out) = mu_schemaVersion h /\
  Lease (loader_handle out) = Lease h /\
  (forall x, x ∈ loader_needed out -> x ∈ needed) /\
  (keyed_by_PhysicalID (h_statsCache h) ->
     keyed_by_PhysicalID (h_statsCache (loader_handle out)) /\
     dom (tables (h_statsCache (loader_handle out))) = dom (tables (h_statsCache h))) /\
  committed (snd out) = committed s.
Proof. apply LoadNeededHistograms_cols_inv. Qed.

Lemma LoadNeededHistograms_cols_no_load cols : forall h needed s,
  Forall (no_load_needed h) cols ->
  exists needed',
    LoadNeededHistograms_cols TotalRowCount cols h needed s =
      ((None, h, needed'), s) /\
    forall x, x ∈ needed' <->
      x ∈ needed /\ ~ (x ∈ cols /\ is_Some (tables (h_statsCache h) !! TableID x)).
Proof.
  induction cols as [|col rest IH]; intros h needed s Hcols.
  - exists needed. split; [done |]. intros x. split; [| by intros [? _]].
    intros Hx. split; [done |]. intros [Hin _]. by apply elem_of_nil in Hin.
  - apply Forall_cons in Hcols as [Hcol Hrest].
    cbn [LoadNeededHistograms_cols]. unfold no_load_needed in Hcol.
    destruct (tables (h_statsCache h) !! TableID col) as [tbl|] eqn:Htbl.
    + assert (Hstep : LoadNeededHistograms_cols TotalRowCount (col :: rest) h needed s =
                      LoadNeededHistograms_cols TotalRowCount rest h
                        (neededColumns_Delete needed col) s).
      { cbn [LoadNeededHistograms_cols]. rewrite Htbl.
        change (Columns (Table_Copy tbl)) with (Columns tbl).
        destruct (Columns tbl !! ColumnID col) as [c|]; [| done].
        apply Z.ltb_lt in Hcol. by rewrite Hcol. }
      cbn [LoadNeededHistograms_cols] in Hstep. rewrite Htbl in Hstep.
      rewrite Hstep.
      destruct (IH h (neededColumns_Delete needed col) s Hrest) as (needed' & Hrun & Hin).
      exists needed'. split; [done |]. intros x. rewrite Hin.
      rewrite neededColumns_Delete_elem, elem_of_cons.
      split.
      * intros [[Hx Hne] Hn]. split; [done |].
        intros [[->|Hxr] Hsome]; [done |]. by apply Hn.
      * intros [Hx Hn]. split; [split; [done |] |].
        -- intros ->. apply Hn. split; [by left | by rewrite Htbl].
        -- intros [Hxr Hsome]. apply Hn. split; [by right | done].
    + destruct (IH h needed s Hrest) as (needed' & Hrun & Hin).
      exists needed'. split; [done |]. intros x. rewrite Hin, elem_of_cons.
      split.
      * intros [Hx Hn]. split; [done |].
        intros [[->|Hxr] Hsome]; [by rewrite Htbl in Hsome; destruct Hsome |].
        by apply Hn.
      * intros [Hx Hn]. split; [done |].
        intros [Hxr Hsome]. apply Hn. split; [by right | done].
Qed.

(** X8.  The loader reads storage only for a column that is cached without
    buckets.  When every request is for a table that is not cached, a
    column that is not in its cached table, or a column that has buckets
    already, the call runs no statement, returns no error and leaves the
    handle as it is; it removes from the needed set exactly the requests
    whose table is cached. *)
Theorem LoadNeededHistograms_no_load (h : Handle) (needed : neededColumns)
    (s : Store) :
  Forall (no_load_needed h) needed ->
  exists needed',
    LoadNeededHistograms TotalRowCount h needed s = ((None, h, needed'), s) /\
    forall x, x ∈ needed' <->
      x ∈ needed /\ tables (h_statsCache h) !! TableID x = None.
Proof.
  intros Hneeded.
  destruct (LoadNeededHistograms_cols_no_load needed h needed s Hneeded)
    as (needed' & Hrun & Hin).
  exists needed'. split; [exact Hrun |]. intros x. rewrite Hin.
  split.
  - intros [Hx Hn]. split; [done |].
    destruct (tables (h_statsCache h) !! TableID x) eqn:Hx'; [| done].
    exfalso. apply Hn. split; [done | by eexists].
  - intros [Hx Hnone]. split; [done |]. intros [_ Hsome].
    rewrite Hnone in Hsome. by destruct Hsome.
Qed.

(** X9.  The loader stops at the first request it cannot serve.  When the
    column of the first request is cached without buckets and either the
    read of its buckets returns an error, or the histogram loads and the
    read or the decoding of its sketch returns an error, the call returns
    that error; the snapshot and the needed set are as they were, so the
    loaded histogram is not installed, and the requests after it are not
    looked at. *)
Theorem LoadNeededHistograms_stops_at_error (h : Handle) (col : tableColumnID)
    (rest : list tableColumnID) (needed : neededColumns) (s : Store)
    (tbl : Table) (c : Column) (e : error) :
  tables (h_statsCache h) !! TableID col = Some tbl ->
  Columns tbl !! ColumnID col = Some c ->
  col_Len c <= 0 ->
  let load := histogramFromStorage (TableID col) (hg_ID (col_Histogram c))
                (ci_FieldType (col_Info c)) (hg_NDV (col_Histogram c)) 0
                (hg_LastUpdateVersion (col_Histogram c))
                (hg_NullCount (col_Histogram c)) (hg_TotColSize (col_Histogram c))
                (hg_Correlation (col_Histogram c)) None s in
  let sketch := cmSketchFromStorage (TableID col) 0 (ColumnID col) None (snd load) in
  fst load = Err e \/ ((exists hg, fst load = Ok hg) /\ fst sketch = Err e) ->
  exists s',
    LoadNeededHistograms_cols TotalRowCount (col :: rest) h needed s =
      ((Some e, h, needed), s') /\
    committed s' = committed s /\
    exists l, log s' = log s ++ SelectBuckets (TableID col) 0 (hg_ID (col_Histogram c)) :: l.
Proof.
  intros Htbl Hcol Hlen load sketch Herr. subst sketch load.
  cbn [LoadNeededHistograms_cols]. rewrite Htbl.
  change (Columns (Table_Copy tbl)) with (Columns tbl). rewrite Hcol.
  destruct (Z.ltb_spec 0 (col_Len c)) as [Hpos|_]; [lia |].
  pose proof (histogramFromStorage_log (TableID col) (hg_ID (col_Histogram c))
                (ci_FieldType (col_Info c)) (hg_NDV (col_Histogram c)) 0
                (hg_LastUpdateVersion (col_Histogram c))
                (hg_NullCount (col_Histogram c)) (hg_TotColSize (col_Histogram c))
                (hg_Correlation (col_Histogram c)) None s) as Hl1.
  destruct (histogramFromStorage _ _ _ _ _ _ _ _ _ _ s) as [[hg|e1] s1];
    simpl in Hl1, Herr.
  - destruct Herr as [Herr|[_ Herr]]; [done |].
    pose proof (cmSketchFromStorage_log (TableID col) 0 (ColumnID col) None s1)
      as Hl2.
    destruct (cmSketchFromStorage (TableID col) 0 (ColumnID col) None s1)
      as [[cms|e2] s2]; simpl in Herr, Hl2; [done |].
    injection Herr as ->. exists s2. split; [done |].
    subst s2 s1. simpl. split; [done |]. eexists. by rewrite <- app_assoc.
  - destruct Herr as [Herr|[[hg Hhg] _]]; [| done].
    injection Herr as ->. exists s1. split; [done |].
    subst s1. simpl. split; [done |]. by exists [].
Qed.

(** ** The invariant of the snapshot *)

(** X10.  Every entry of the snapshot sits under its own physical ID: a new
    or cleared handle has it so, and every operation that publishes keeps
    it so. *)
Theorem keyed_by_PhysicalID_kept (h : Handle) :
  keyed_by_PhysicalID (h_statsCache (NewHandle (Lease h))) /\
  keyed_by_PhysicalID (h_statsCache (Clear h)) /\
  (keyed_by_PhysicalID (h_statsCache h) ->
     (forall v, keyed_by_PhysicalID (h_statsCache (SetLastUpdateVersion h v))) /\
     (forall tblInfo pid,
        keyed_by_PhysicalID
          (h_statsCache (snd (GetPartitionStats PseudoTable h tblInfo pid)))) /\
     (forall is_ s h' s',
        Update TotalRowCount h is_ s = (Ok h', s') ->
        keyed_by_PhysicalID (h_statsCache h')) /\
     (forall needed s,
        keyed_by_PhysicalID
          (h_statsCache (loader_handle (LoadNeededHistograms TotalRowCount h needed s))))).
Proof.
  split; [by intros id tbl |]. split; [by intros id tbl |].
  intros Hkeyed. split; [| split; [| split]].
  - intros v. unfold SetLastUpdateVersion.
    by apply updateStatsCache_keyed, statsCache_update_keyed.
  - intros tblInfo pid. unfold GetPartitionStats.
    destruct (tables (h_statsCache h) !! pid); simpl; [done |].
    by apply updateStatsCache_keyed, statsCache_update_keyed.
  - intros is_ s h' s' Hrun.
    assert (Hfault : fault s (log s) (SelectMeta (Update_lastVersion h)) = None).
    { unfold Update in Hrun. apply bind_Ok_inv in Hrun as (rows & s1 & Hread & _).
      rewrite ExecRestrictedSQL_run in Hread.
      by destruct (fault s (log s) (SelectMeta (Update_lastVersion h))). }
    destruct (Update_result h is_ s Hfault)
      as (h1 & tbls & deleted & s1 & Hrun1 & Hsc & _).
    rewrite Hrun in Hrun1. injection Hrun1 as -> _.
    apply updateStatsCache_keyed; [by rewrite Hsc |].
    by apply statsCache_update_keyed.
  - intros needed s.
    by apply (LoadNeededHistograms_cols_inv needed h needed s).
Qed.

(** ** Resolving partitions *)

Lemma foldl_flat_map {A B C} (f : A -> C -> A) (g : B -> list C) (l : list B) :
  forall a, foldl f a (flat_map g l) = foldl (fun a x => foldl f a (g x)) a l.
Proof.
  induction l as [|x l IH]; intros a; simpl; [done |].
  by rewrite foldl_app, IH.
Qed.

Lemma buildPartitionID2TableID_pairs is_ :
  buildPartitionID2TableID is_ =
    foldl (fun m p => <[p.1 := p.2]> m) ∅ (partition_pairs is_).
Proof.
  unfold buildPartitionID2TableID, partition_pairs.
  rewrite foldl_flat_map. generalize (∅ : gmap Z Z).
  induction (AllSchemas is_) as [|db dbs IHdb]; intros m; simpl; [done |].
  rewrite <- IHdb. f_equal. rewrite foldl_flat_map. clear IHdb.
  revert m. induction (db_Tables db) as [|tbl tbls IHt]; intros m; simpl; [done |].
  rewrite <- IHt. f_equal.
  destruct (ti_Partition tbl) as [defs|]; [| done].
  clear IHt. revert m. induction defs as [|d defs IHd]; intros m; simpl; [done |].
  apply IHd.
Qed.

Lemma foldl_pairs_lookup_none (pairs : list (Z * Z)) d : forall (m : gmap Z Z),
  (forall tid, (d, tid) ∉ pairs) ->
  foldl (fun m p => <[p.1 := p.2]> m) m pairs !! d = m !! d.
Proof.
  induction pairs as [|[k v] rest IH]; intros m Hnone; simpl; [done |].
  rewrite IH.
  - apply lookup_insert_ne. intros ->. apply (Hnone v). left.
  - intros tid Hin. apply (Hnone tid). by right.
Qed.

Lemma foldl_pairs_lookup_unique (pairs : list (Z * Z)) d tid : forall (m : gmap Z Z),
  (d, tid) ∈ pairs ->
  (forall tid', (d, tid') ∈ pairs -> tid' = tid) ->
  foldl (fun m p => <[p.1 := p.2]> m) m pairs !! d = Some tid.
Proof.
  induction pairs as [|[k v] rest IH]; intros m Hin Huniq; simpl.
  - by apply elem_of_nil in Hin.
  - destruct (decide ((d, tid) ∈ rest)) as [Hrest|Hrest].
    + apply IH; [done |]. intros tid' Hin'. apply Huniq. by right.
    + apply elem_of_cons in Hin as [[= <- <-]|Hin]; [| done].
      rewrite foldl_pairs_lookup_none; [apply lookup_insert_eq |].
      intros tid' Hin'. assert (tid' = tid) as -> by (apply Huniq; by right).
      done.
Qed.

(** X11.  Resolution of a physical ID against a schema for which the
    partition index of the handle is not stale.  After the lookup the
    index is the one built from this schema and carries its meta version;
    the snapshot and the lease are untouched.  An ID that no partitioned
    table lists as a partition is looked up as a table ID; an ID that is
    listed, by tables of one and the same ID, is looked up as that table.
    When the schema meta version is the one the index was built at, the
    lookup changes nothing in the handle, so a second lookup never
    rebuilds. *)
Theorem getTableByPhysicalID_resolves (h : Handle) (is_ : InfoSchema)
    (physicalID : Z) :
  resolver_fresh h is_ ->
  let out := getTableByPhysicalID h is_ physicalID in
  mu_schemaVersion (snd out) = SchemaMetaVersion is_ /\
  mu_pid2tid (snd out) = buildPartitionID2TableID is_ /\
  h_statsCache (snd out) = h_statsCache h /\
  Lease (snd out) = Lease h /\
  ((forall tid, (physicalID, tid) ∉ partition_pairs is_) ->
     fst out = TableByID is_ physicalID) /\
  (forall tid, (physicalID, tid) ∈ partition_pairs is_ ->
     (forall tid', (physicalID, tid') ∈ partition_pairs is_ -> tid' = tid) ->
     fst out = TableByID is_ tid) /\
  (mu_schemaVersion h = SchemaMetaVersion is_ -> snd out = h) /\
  (forall id, snd (getTableByPhysicalID (snd out) is_ id) = snd out).
Proof.
  intros Hfresh out.
  assert (Hout : out =
    (match buildPartitionID2TableID is_ !! physicalID with
     | Some id => TableByID is_ id
     | None => TableByID is_ physicalID
     end,
     if negb (SchemaMetaVersion is_ =? mu_schemaVersion h)
     then {| mu_pid2tid := buildPartitionID2TableID is_;
             mu_schemaVersion := SchemaMetaVersion is_;
             h_statsCache := h_statsCache h; h_lease := h_lease h |}
     else h)).
  { subst out. unfold getTableByPhysicalID.
    destruct (Z.eqb_spec (SchemaMetaVersion is_) (mu_schemaVersion h)) as [Heq|Hne];
      simpl.
    - rewrite Hfresh by done.
      by destruct (buildPartitionID2TableID is_ !! physicalID).
    - by destruct (buildPartitionID2TableID is_ !! physicalID). }
  assert (Hsnd : mu_schemaVersion (snd out) = SchemaMetaVersion is_ /\
                 mu_pid2tid (snd out) = buildPartitionID2TableID is_ /\
                 h_statsCache (snd out) = h_statsCache h /\
                 h_lease (snd out) = h_lease h).
  { rewrite Hout. simpl.
    destruct (Z.eqb_spec (SchemaMetaVersion is_) (mu_schemaVersion h)) as [Heq|Hne];
      simpl; [| done].
    repeat split; [done |]. by apply Hfresh. }
  destruct Hsnd as (Hver & Hmap & Hsc & Hlease).
  split; [done |]. split; [done |]. split; [done |]. split; [done |].
  split.
  { intros Hnone. rewrite Hout. simpl.
    rewrite buildPartitionID2TableID_pairs, foldl_pairs_lookup_none by done.
    by rewrite lookup_empty. }
  split.
  { intros tid Hin Huniq. rewrite Hout. simpl.
    by rewrite buildPartitionID2TableID_pairs,
      (foldl_pairs_lookup_unique _ _ tid). }
  split.
  { intros Heq. rewrite Hout. simpl.
    by rewrite Heq, Z.eqb_refl. }
  intros id. unfold getTableByPhysicalID at 1.
  rewrite Hver, Z.eqb_refl. simpl.
  by destruct (mu_pid2tid (snd out) !! id).
Qed.

(** ** The timestamp of a duration *)

(** X12.  For a duration that is not negative, [DurationToTS] puts its
    whole milliseconds into the physical part and nothing into the logical
    part: shifting the timestamp right by 18 gives the milliseconds back,
    the low 18 bits are 0, a duration under one millisecond gives 0, and a
    longer duration never gives a smaller timestamp. *)
Theorem DurationToTS_physical (d : Z) :
  0 <= d < 2 ^ 63 ->
  DurationToTS d = d / 1000000 * 2 ^ 18 /\
  Z.shiftr (DurationToTS d) 18 = d / 1000000 /\
  Z.land (DurationToTS d) (Z.ones 18) = 0 /\
  (d < 1000000 -> DurationToTS d = 0) /\
  (forall d', d <= d' < 2 ^ 63 -> DurationToTS d <= DurationToTS d').
Proof.
  intros Hd.
  assert (Hexact : forall x, 0 <= x < 2 ^ 63 ->
                     DurationToTS x = x / 1000000 * 2 ^ 18).
  { intros x Hx. rewrite DurationToTS_exact by done.
    by rewrite Z.shiftl_mul_pow2 by lia. }
  rewrite (Hexact d Hd).
  split; [done |]. split.
  { rewrite Z.shiftr_div_pow2 by lia. apply Z.div_mul. lia. }
  split.
  { rewrite Z.land_ones by lia. apply Z_mod_mult. }
  split.
  { intros Hsmall. rewrite Z.div_small by lia. done. }
  intros d' Hd'. rewrite (Hexact d') by lia.
  apply Z.mul_le_mono_nonneg_r; [lia |].
  apply Z.div_le_mono; lia.
Qed.

(** X13.  With a lease of less than a third of a millisecond, and so with
    lease 0, the look-back window is empty: [Update] asks for the meta
    rows strictly above the current version. *)
Theorem Update_no_look_back (h : Handle) :
  0 <= 3 * Lease h < 1000000 ->
  uint64_range (version (h_statsCache h)) ->
  DurationToTS (i64 (3 * Lease h)) = 0 /\
  Update_lastVersion h = version (h_statsCache h).
Proof.
  intros Hlease Hv.
  assert (Hoff : DurationToTS (i64 (3 * Lease h)) = 0).
  { rewrite i64_id by (unfold int64_range; lia).
    rewrite DurationToTS_exact by lia.
    rewrite Z.div_small by lia. done. }
  split; [done |].
  unfold Update_lastVersion. rewrite Hoff.
  unfold uint64_range in Hv.
  destruct (Z.leb_spec 0 (version (h_statsCache h))); [| lia].
  rewrite Z.sub_0_r. by apply u64_id.
Qed.

(** ** More on the writer path *)

(** X14.  [execSQLs] runs the statements in order and stops at the first
    one that is refused.  It returns no error exactly when none is
    refused, and then all of them have run; otherwise it returns the error
    of the first refused statement, and the statements after that one are
    never sent. *)
Theorem execSQLs_first_error (sqls : list SQL) (s : Store) :
  match fst (execSQLs sqls s) with
  | Ok _ =>
      runs_clean (fault s) (log s) sqls /\
      log (snd (execSQLs sqls s)) = log s ++ sqls
  | Err e =>
      exists pre sql post,
        sqls = pre ++ sql :: post /\
        runs_clean (fault s) (log s) pre /\
        fault s (log s ++ pre) sql = Some e /\
        log (snd (execSQLs sqls s)) = log s ++ pre ++ [sql]
  end.
Proof.
  revert s. induction sqls as [|sql rest IH]; intros s.
  - simpl. split; [| by rewrite app_nil_r].
    intros pre q post Heq. by destruct pre.
  - cbn [execSQLs]. unfold bind. rewrite Execute_run.
    destruct (fault s (log s) sql) as [e|] eqn:Hsql.
    + simpl. exists [], sql, rest. rewrite app_nil_r.
      split; [done |]. split; [| done].
      intros pre q post Heq. by destruct pre.
    + set (s1 := run_stmt sql (set_log s (log s ++ [sql]))).
      assert (Hf1 : fault s1 = fault s)
        by (subst s1; by destruct (run_stmt_frame sql (set_log s (log s ++ [sql])))
                           as (_ & -> & _)).
      assert (Hl1 : log s1 = log s ++ [sql])
        by (subst s1; by destruct (run_stmt_frame sql (set_log s (log s ++ [sql])))
                           as (-> & _)).
      specialize (IH s1). rewrite Hf1, Hl1 in IH.
      destruct (fst (execSQLs rest s1)) as [u|e].
      * destruct IH as [Hclean Hlog]. split; [| by rewrite Hlog, <- app_assoc].
        intros pre q post Heq. destruct pre as [|x pre]; simpl in Heq.
        -- injection Heq as <- _. by rewrite app_nil_r.
        -- injection Heq as <- ->.
           specialize (Hclean pre q post eq_refl).
           by rewrite <- app_assoc in Hclean.
      * destruct IH as (pre & q & post & -> & Hclean & Hq & Hlog).
        exists (sql :: pre), q, post. split; [done |].
        split.
        -- intros p x r Heq. destruct p as [|y p]; simpl in Heq.
           ++ injection Heq as <- _. by rewrite app_nil_r.
           ++ injection Heq as <- ->.
              specialize (Hclean p x r eq_refl).
              by rewrite <- app_assoc in Hclean.
        -- split; [by rewrite <- app_assoc in Hq |].
           by rewrite Hlog, <- !app_assoc.
Qed.

Lemma SaveStatsToStorage_sqls_error ver tableID count isIndex hg cms :
  (exists e, EncodeCMSketch cms = Err e) \/
  (exists b, In b (hg_Buckets hg) /\
     ((exists e, ConvertTo (bkt_upper b) SessionStmtCtx TypeBlob = Err e) \/
      (exists e, ConvertTo (bkt_lower b) SessionStmtCtx TypeBlob = Err e))) ->
  exists e, SaveStatsToStorage_sqls ver tableID count isIndex hg cms = Err e.
Proof.
  unfold SaveStatsToStorage_sqls. intros [[e He]|(b & Hin & Hbad)].
  - rewrite He. by exists e.
  - destruct (EncodeCMSketch cms) as [data|e]; [| by exists e].
    by eapply SaveStatsToStorage_buckets_conversion_error.
Qed.

(** X15.  [SaveStatsToStorage] builds all its statements before it sends
    the first.  When the sketch does not encode or a bound of some bucket
    does not convert to blob, the only statements sent are [begin] and
    [rollback]: the call returns an error and no catalog row is written. *)
Theorem SaveStatsToStorage_nothing_sent (tableID count isIndex : Z)
    (hg : Histogram) (cms : option CMSketch) (s : Store) :
  fault s (log s) Begin = None ->
  txn_fault s = None ->
  (exists e, EncodeCMSketch cms = Err e) \/
  (exists b, In b (hg_Buckets hg) /\
     ((exists e, ConvertTo (bkt_upper b) SessionStmtCtx TypeBlob = Err e) \/
      (exists e, ConvertTo (bkt_lower b) SessionStmtCtx TypeBlob = Err e))) ->
  let out := SaveStatsToStorage tableID count isIndex hg cms s in
  (exists e, fst out = Some e) /\
  log (snd out) = log s ++ [Begin; Rollback] /\
  committed (snd out) = committed s.
Proof.
  intros Hbegin Htxn Hbad out. subst out.
  destruct (SaveStatsToStorage_sqls_error (startTS s) tableID count isIndex hg cms Hbad)
    as [e He].
  unfold SaveStatsToStorage. rewrite Execute_run, Hbegin.
  rewrite SaveStatsToStorage_body_run.
  change (txn_fault (run_stmt Begin (set_log s (log s ++ [Begin]))))
    with (txn_fault s).
  change (startTS (run_stmt Begin (set_log s (log s ++ [Begin]))))
    with (startTS s).
  rewrite Htxn, He. simpl. rewrite Execute_run. simpl.
  destruct (fault s (log s ++ [Begin]) Rollback); simpl;
    (split; [by exists e |]); by rewrite <- app_assoc.
Qed.

(** X16.  The statements of a save, in the order in which they are sent
    when nothing fails: one statement on stats_meta, which replaces the row
    when the count is not negative and only sets its version when it is,
    then the REPLACE of the histogram row with the encoded sketch, then the
    DELETE of the old buckets, then one INSERT per bucket, numbered from 0,
    each with the repeat count of its bucket. *)
Theorem SaveStatsToStorage_sqls_order (ver tableID count isIndex : Z)
    (hg : Histogram) (cms : option CMSketch) (tp : FieldType) (data : bytes) :
  EncodeCMSketch cms = Ok data ->
  Forall (bounds_convertible isIndex tp) (hg_Buckets hg) ->
  exists inserts,
    SaveStatsToStorage_sqls ver tableID count isIndex hg cms =
      Ok ((if 0 <=? count
           then ReplaceMeta ver tableID count
           else UpdateMetaVersion ver tableID)
          :: ReplaceHistogram tableID isIndex (hg_ID hg) (hg_NDV hg) ver
               (hg_NullCount hg) data (hg_TotColSize hg) (hg_Correlation hg)
          :: DeleteBuckets tableID isIndex (hg_ID hg)
          :: inserts) /\
    Forall is_insert inserts /\
    length inserts = length (hg_Buckets hg) /\
    map bucket_bucket_id (omap bucket_row_of inserts) =
      seqZ 0 (Z.of_nat (length (hg_Buckets hg))) /\
    map bucket_repeats (omap bucket_row_of inserts) =
      map bkt_Repeat (hg_Buckets hg).
Proof.
  intros Hdata Hconv. unfold SaveStatsToStorage_sqls. rewrite Hdata.
  set (pre3 := (_ ++ [DeleteBuckets tableID isIndex (hg_ID hg)])).
  destruct (SaveStatsToStorage_buckets_saved tableID isIndex (hg_ID hg) tp
              (hg_Buckets hg) 0 0 pre3 Hconv) as (ins & Hrun & Hins & Hsaved).
  exists ins. rewrite Hrun. subst pre3.
  split; [by destruct (0 <=? count) |].
  split; [done |].
  assert (Hlen : length (omap bucket_row_of ins) = length ins).
  { clear -Hins. induction Hins as [|sql l Hsql _ IH]; [done |].
    destruct sql; simpl in Hsql; try done. cbn. f_equal. exact IH. }
  split; [rewrite <- Hlen; by eapply saved_as_length |].
  split; [by eapply saved_as_ids | by eapply saved_as_repeats].
Qed.

(** X17.  [SaveMetaToStorage] once [begin] has run.  When the transaction
    cannot be had, [rollback] follows [begin] at once; when the REPLACE is
    refused, [rollback] follows it; in both cases the call returns the
    error of the step, whatever the rollback did, and the committed catalog
    is as it was.  When the REPLACE runs, [commit] follows and the call
    returns what the commit returned; after a successful commit stats_meta
    holds for the table the one row with the start timestamp as version and
    the given count and modify count, and the rows of the other tables as
    the session saw them. *)
Theorem SaveMetaToStorage_finishes (tableID count modifyCount : Z) (s : Store) :
  fault s (log s) Begin = None ->
  let out := SaveMetaToStorage tableID count modifyCount s in
  let replace := ReplaceMetaModify (startTS s) tableID count modifyCount in
  match txn_fault s with
  | Some e =>
      fst out = Some e /\
      log (snd out) = log s ++ [Begin; Rollback] /\
      committed (snd out) = committed s
  | None =>
      match fault s (log s ++ [Begin]) replace with
      | Some e =>
          fst out = Some e /\
          log (snd out) = log s ++ [Begin; replace; Rollback] /\
          committed (snd out) = committed s
      | None =>
          fst out = fault s (log s ++ [Begin; replace]) Commit /\
          log (snd out) = log s ++ [Begin; replace; Commit] /\
          (fst out <> None -> committed (snd out) = committed s) /\
          (fst out = None ->
             stats_meta (committed (snd out)) =
               filter (fun r => negb (meta_table_id r =? tableID))
                      (stats_meta (view s)) ++
               [{| meta_version := startTS s; meta_table_id := tableID;
                   meta_modify_count := modifyCount; meta_count := count |}] /\
             stats_histograms (committed (snd out)) = stats_histograms (view s) /\
             stats_buckets (committed (snd out)) = stats_buckets (view s))
      end
  end.
Proof.
  intros Hbegin out replace. subst out.
  unfold SaveMetaToStorage. rewrite Execute_run, Hbegin.
  unfold bind, Txn.
  change (txn_fault (run_stmt Begin (set_log s (log s ++ [Begin]))))
    with (txn_fault s).
  destruct (txn_fault s) as [e|].
  - simpl. rewrite Execute_run. simpl.
    destruct (fault s (log s ++ [Begin]) Rollback); simpl;
      by rewrite <- app_assoc.
  - change (startTS (run_stmt Begin (set_log s (log s ++ [Begin]))))
      with (startTS s).
    fold replace. rewrite Execute_run. simpl.
    destruct (fault s (log s ++ [Begin]) replace) as [e|]; simpl.
    + rewrite Execute_run. simpl.
      destruct (fault s ((log s ++ [Begin]) ++ [replace]) Rollback); simpl;
        by rewrite <- !app_assoc.
    + rewrite Execute_run. simpl. rewrite <- !app_assoc. simpl.
      destruct (fault s (log s ++ [Begin; replace]) Commit) as [e|]; simpl.
      * repeat split; done.
      * repeat split; done.
Qed.

(** ** Decoding histograms *)

Lemma restrictedRead_run {A} hist (sql : SQL) (rows : Catalog -> A) s :
  restrictedRead hist sql rows s =
    (match fault s (log s) sql with
     | Some e => Err e
     | None => Ok (rows (read_source hist s))
     end, set_log s (log s ++ [sql])).
Proof.
  unfold restrictedRead, read_source. destruct hist as [snapshot|].
  - apply ExecRestrictedSQLWithSnapshot_run.
  - apply ExecRestrictedSQL_run.
Qed.

Lemma histogramFromStorage_rows_fields isIndex tp rows : forall hg0 total hg',
  histogramFromStorage_rows isIndex tp rows hg0 total = Ok hg' ->
  hg_Tp hg' = hg_Tp hg0 /\
  hg_TotColSize hg' = hg_TotColSize hg0 /\
  hg_Correlation hg' = hg_Correlation hg0 /\
  map bkt_Count (hg_Buckets hg') =
    map bkt_Count (hg_Buckets hg0) ++ running_totals total (map bucket_count rows) /\
  map bkt_Repeat (hg_Buckets hg') =
    map bkt_Repeat (hg_Buckets hg0) ++ map bucket_repeats rows.
Proof.
  induction rows as [|row rest IH]; intros hg0 total hg' Hrun; simpl in Hrun.
  - injection Hrun as <-. simpl. by rewrite !app_nil_r.
  - match type of Hrun with
    | match ?b with _ => _ end = _ => destruct b as [[lo up]|e]; [| done]
    end.
    apply IH in Hrun as (Htp & Hsz & Hcorr & Hc & Hr). simpl in *.
    rewrite !map_app in Hc, Hr. simpl in Hc, Hr.
    rewrite <- !app_assoc in Hc, Hr. done.
Qed.

Lemma histogramFromStorage_rows_index tp rows : forall hg0 total,
  exists hg', histogramFromStorage_rows 1 tp rows hg0 total = Ok hg'.
Proof.
  induction rows as [|row rest IH]; intros hg0 total; simpl; [by eexists |].
  apply IH.
Qed.

(** X18.  What [histogramFromStorage] returns.  An error of the buckets
    query is returned as it is.  A histogram that is returned carries the
    arguments as its ID, NDV, null count, version, type, total size and
    correlation, and has one bucket per stored row, in bucket_id order,
    whose count is the running [int64] total of the stored counts up to it
    and whose repeat count is the stored one.  For an index ([isIndex = 1])
    the bounds are taken as stored, so the load succeeds whenever the query
    does. *)
Theorem histogramFromStorage_returns (tableID colID : Z) (tp : FieldType)
    (distinct isIndex ver nullCount totColSize : Z) (corr : float64)
    (hist : option Catalog) (s : Store) :
  let out := histogramFromStorage tableID colID tp distinct isIndex ver
               nullCount totColSize corr hist s in
  let rows := rows_buckets tableID isIndex colID (read_source hist s) in
  (forall e, fault s (log s) (SelectBuckets tableID isIndex colID) = Some e ->
     fst out = Err e) /\
  (forall hg, fst out = Ok hg ->
     hg_ID hg = colID /\ hg_NDV hg = distinct /\ hg_NullCount hg = nullCount /\
     hg_LastUpdateVersion hg = ver /\ hg_Tp hg = tp /\
     hg_TotColSize hg = totColSize /\ hg_Correlation hg = corr /\
     length (hg_Buckets hg) = length rows /\
     map bkt_Count (hg_Buckets hg) = running_totals 0 (map bucket_count rows) /\
     map bkt_Repeat (hg_Buckets hg) = map bucket_repeats rows) /\
  (isIndex = 1 ->
   fault s (log s) (SelectBuckets tableID isIndex colID) = None ->
   exists hg, fst out = Ok hg).
Proof.
  intros out rows.
  assert (Hout : fst out =
    match fault s (log s) (SelectBuckets tableID isIndex colID) with
    | Some e => Err e
    | None =>
        histogramFromStorage_rows isIndex tp rows
          (set_Correlation
             (NewHistogram colID distinct nullCount ver tp
                (Z.of_nat (length rows)) totColSize) corr) 0
    end).
  { subst out rows. unfold histogramFromStorage, bind.
    rewrite restrictedRead_run.
    by destruct (fault s (log s) (SelectBuckets tableID isIndex colID)). }
  rewrite Hout. split; [by intros e -> |]. split.
  - intros hg Hhg.
    destruct (fault s (log s) (SelectBuckets tableID isIndex colID)); [done |].
    pose proof (histogramFromStorage_rows_meta _ _ _ _ _ _ Hhg)
      as (Hlen & Hid & Hndv & Hnull & Hver).
    pose proof (histogramFromStorage_rows_fields _ _ _ _ _ _ Hhg)
      as (Htp & Hsz & Hcorr & Hc & Hr).
    simpl in *. repeat split; done.
  - intros -> ->. apply histogramFromStorage_rows_index.
Qed.

(** ** Rows that need no reload *)

Lemma set_Indices_id table histID i :
  Indices table !! histID = Some i ->
  set_Indices table (<[histID := i]> (Indices table)) = table.
Proof.
  intros Hi. unfold set_Indices. rewrite insert_id by done. by destruct table.
Qed.

(** X19.  An index that is cached at least as new as the stored histogram
    is not reloaded: [indexStatsFromStorage] runs no statement and returns
    the table as it was.  This holds whether or not the table metadata
    still knows the index. *)
Theorem indexStatsFromStorage_up_to_date (row : HistRow) (table : Table)
    (tableInfo : TableInfo) (hist : option Catalog) (s : Store) (i : Index) :
  Indices table !! hist_hist_id row = Some i ->
  hist_version row <= hg_LastUpdateVersion (idx_Histogram i) ->
  indexStatsFromStorage row table tableInfo hist s = (Ok table, s).
Proof.
  intros Hi Hver. unfold indexStatsFromStorage. rewrite Hi.
  destruct (Z.ltb_spec (hg_LastUpdateVersion (idx_Histogram i)) (hist_version row));
    [lia |].
  unfold bind, ret.
  destruct (find _ (ti_Indices tableInfo)); by rewrite set_Indices_id.
Qed.

Lemma set_TotColSize_id hg : set_TotColSize hg (hg_TotColSize hg) = hg.
Proof. by destruct hg. Qed.

(** X20.  A column that is cached at least as new as the stored histogram
    is not reloaded either, whatever the lease, unless [loadAll] asks for
    it: for a column of the table metadata [columnStatsFromStorage] runs no
    statement and puts back, under the ID of the cached column, the cached
    column with the stored total size as its only change.  Its buckets,
    sketch, count, NDV and null count are not refreshed. *)
Theorem columnStatsFromStorage_up_to_date (h : Handle) (row : HistRow)
    (table : Table) (tableInfo : TableInfo) (hist : option Catalog) (s : Store)
    (c : Column) (colInfo : ColumnInfo) :
  Columns table !! hist_hist_id row = Some c ->
  hist_version row <= hg_LastUpdateVersion (col_Histogram c) ->
  find (fun colInfo => hist_hist_id row =? ci_ID colInfo) (ti_Columns tableInfo) =
    Some colInfo ->
  exists c',
    columnStatsFromStorage TotalRowCount h row table tableInfo false hist s =
      (Ok (set_Columns table (<[hg_ID (col_Histogram c) := c']> (Columns table))), s) /\
    col_Histogram c' = set_TotColSize (col_Histogram c) (hist_tot_col_size row) /\
    col_CMSketch c' = col_CMSketch c /\
    col_Count c' = col_Count c /\
    col_PhysicalID c' = col_PhysicalID c /\
    col_Info c' = col_Info c /\
    col_IsHandle c' = col_IsHandle c.
Proof.
  intros Hc Hver Hfind. unfold columnStatsFromStorage. rewrite Hc, Hfind.
  assert (Hlt : (hg_LastUpdateVersion (col_Histogram c) <? hist_version row) = false)
    by (apply Z.ltb_ge; lia).
  unfold notNeedLoad. rewrite Hlt, andb_false_r, andb_false_r. simpl.
  unfold bind, ret.
  destruct (Z.eqb_spec (hg_TotColSize (col_Histogram c)) (hist_tot_col_size row))
    as [Heq|Hne]; simpl.
  - exists c. split; [done |]. rewrite <- Heq, set_TotColSize_id. done.
  - eexists. split; [reflexivity |]. done.
Qed.

(** ** The catalog after a save *)



(** ** The IDs of a loaded table *)

Lemma find_some_id {A} (f : A -> bool) (l : list A) (x : A) :
  find f l = Some x -> In x l /\ f x = true.
Proof. apply find_some. Qed.

Lemma columnStatsFromStorage_ids h row table tableInfo loadAll hist s t' s' :
  columnStatsFromStorage TotalRowCount h row table tableInfo loadAll hist s =
    (Ok t', s') ->
  columns_keyed table ->
  columns_keyed t' /\
  (forall id, is_Some (Columns t' !! id) ->
     is_Some (Columns table !! id) \/ In id (map ci_ID (ti_Columns tableInfo))).
Proof.
  unfold columnStatsFromStorage. intros Hrun Hkeyed.
  apply bind_Ok_inv in Hrun as (col & s1 & Hcol & Hret).
  assert (Hnew : match col with
    | None => True
    | Some c =>
        (Columns table !! hist_hist_id row = Some c) \/
        (hg_ID (col_Histogram c) = hist_hist_id row /\
         (is_Some (Columns table !! hist_hist_id row) \/
          In (hist_hist_id row) (map ci_ID (ti_Columns tableInfo))))
    end).
  { destruct (find _ (ti_Columns tableInfo)) as [colInfo|] eqn:Hfind.
    - apply find_some_id in Hfind as [Hin Hid]. apply Z.eqb_eq in Hid.
      assert (Hmeta : In (hist_hist_id row) (map ci_ID (ti_Columns tableInfo))).
      { rewrite Hid. by apply in_map. }
      destruct (notNeedLoad _ _ _ _ _).
      + apply bind_Ok_inv in Hcol as (cnt & s2 & _ & Hc).
        injection Hc as <- _. simpl. right. split; [done | by right].
      + match type of Hcol with
        | (if ?b then _ else _) _ = _ => destruct b
        end.
        * apply bind_Ok_inv in Hcol as (hg & s2 & Hhg & Hc).
          apply bind_Ok_inv in Hc as (cms & s3 & _ & Hc).
          injection Hc as <- _. simpl. right. split; [| by right].
          unfold histogramFromStorage in Hhg.
          apply bind_Ok_inv in Hhg as (rows & s4 & _ & Hrows).
          unfold lift in Hrows. injection Hrows as Hrows _.
          by apply histogramFromStorage_rows_meta in Hrows as (_ & -> & _).
        * destruct (Columns table !! hist_hist_id row) as [c|] eqn:Hc.
          -- destruct (negb _); injection Hcol as <- _; simpl.
             ++ right. split; [by apply Hkeyed in Hc | left; by eexists].
             ++ by left.
          -- by injection Hcol as <- _.
    - injection Hcol as <- _.
      destruct (Columns table !! hist_hist_id row) eqn:Hc; [by left | done]. }
  destruct col as [c|]; injection Hret as <- _; [| split; [done | by left]].
  simpl.
  assert (Hkey : hg_ID (col_Histogram c) = hist_hist_id row).
  { destruct Hnew as [Hc|[Hid _]]; [by apply Hkeyed in Hc | done]. }
  rewrite Hkey. split.
  - intros id c0. simpl. rewrite lookup_insert. case_decide.
    + intros [= <-]. congruence.
    + apply Hkeyed.
  - intros id. rewrite lookup_insert. case_decide; [| by left].
    subst id. intros _.
    destruct Hnew as [Hc|[_ [Hc|Hm]]]; [left; by eexists | by left | by right].
Qed.

Lemma indexStatsFromStorage_ids row table tableInfo hist s t' s' :
  indexStatsFromStorage row table tableInfo hist s = (Ok t', s') ->
  forall id, is_Some (Indices t' !! id) ->
    is_Some (Indices table !! id) \/ In id (map ii_ID (ti_Indices tableInfo)).
Proof.
  unfold indexStatsFromStorage. intros Hrun.
  apply bind_Ok_inv in Hrun as (idx & s1 & Hidx & Hret).
  assert (Hnew : is_Some idx ->
    is_Some (Indices table !! hist_hist_id row) \/
    In (hist_hist_id row) (map ii_ID (ti_Indices tableInfo))).
  { destruct (find _ (ti_Indices tableInfo)) as [idxInfo|] eqn:Hfind.
    - apply find_some_id in Hfind as [Hin Hid]. apply Z.eqb_eq in Hid.
      intros _. right. rewrite Hid. by apply in_map.
    - injection Hidx as <- _. by left. }
  destruct idx as [i|]; injection Hret as <- _; [| by left].
  simpl. intros id. rewrite lookup_insert. case_decide; [| by left].
  subst id. intros _. apply Hnew. by eexists.
Qed.

Lemma tableStatsFromStorage_rows_ids h rows :
  forall table tableInfo loadAll hist s t' s',
  tableStatsFromStorage_rows TotalRowCount h rows table tableInfo loadAll hist s =
    (Ok t', s') ->
  columns_keyed table ->
  columns_keyed t' /\
  (forall id, is_Some (Columns t' !! id) ->
     is_Some (Columns table !! id) \/ In id (map ci_ID (ti_Columns tableInfo))) /\
  (forall id, is_Some (Indices t' !! id) ->
     is_Some (Indices table !! id) \/ In id (map ii_ID (ti_Indices tableInfo))).
Proof.
  induction rows as [|row rest IH];
    intros table tableInfo loadAll hist s t' s' Hrun Hkeyed;
    cbn [tableStatsFromStorage_rows] in Hrun.
  - injection Hrun as <- _. split; [done |]. split; intros id; by left.
  - apply bind_Ok_inv in Hrun as (t1 & s1 & Hrow & Hrest).
    assert (H1 : columns_keyed t1 /\
      (forall id, is_Some (Columns t1 !! id) ->
         is_Some (Columns table !! id) \/ In id (map ci_ID (ti_Columns tableInfo))) /\
      (forall id, is_Some (Indices t1 !! id) ->
         is_Some (Indices table !! id) \/ In id (map ii_ID (ti_Indices tableInfo)))).
    { destruct (0 <? hist_is_index row).
      - pose proof (indexStatsFromStorage_ids _ _ _ _ _ _ _ Hrow) as Hidx.
        apply indexStatsFromStorage_header in Hrow as [_ Hcols].
        split; [| split; [| done]].
        + intros id c. rewrite Hcols. apply Hkeyed.
        + intros id. rewrite Hcols. by left.
      - pose proof (columnStatsFromStorage_ids _ _ _ _ _ _ _ _ _ Hrow Hkeyed)
          as [Hk Hc].
        apply columnStatsFromStorage_header in Hrow as [_ Hidx].
        split; [done |]. split; [done |].
        intros id. rewrite Hidx. by left. }
    destruct H1 as (Hk1 & Hc1 & Hi1).
    destruct (IH _ _ _ _ _ _ _ Hrest Hk1) as (Hk2 & Hc2 & Hi2).
    split; [done |]. split.
    + intros id Hid. destruct (Hc2 id Hid) as [?|?]; [by apply Hc1 | by right].
    + intros id Hid. destruct (Hi2 id Hid) as [?|?]; [by apply Hi1 | by right].
Qed.

(** X22.  A loaded table has statistics only for what was cached or is in
    the table metadata.  When the columns of the table the load starts
    from sit under their histogram IDs, so do the columns of the table
    [tableStatsFromStorage] returns; each of its columns was in the
    starting table or has the ID of a column of the metadata, and each of
    its indices was in the starting table or has the ID of an index of the
    metadata.  A table loaded without a cached entry has no other columns
    and indices than those of the metadata. *)
Theorem tableStatsFromStorage_known_ids (h : Handle) (tableInfo : TableInfo)
    (physicalID : Z) (loadAll : bool) (hist : option Catalog) (s s' : Store)
    (t : Table) :
  tableStatsFromStorage TotalRowCount h tableInfo physicalID loadAll hist s =
    (Ok (Some t), s') ->
  columns_keyed (load_start h physicalID hist) ->
  columns_keyed t /\
  (forall id, is_Some (Columns t !! id) ->
     is_Some (Columns (load_start h physicalID hist) !! id) \/
     In id (map ci_ID (ti_Columns tableInfo))) /\
  (forall id, is_Some (Indices t !! id) ->
     is_Some (Indices (load_start h physicalID hist) !! id) \/
     In id (map ii_ID (ti_Indices tableInfo))) /\
  (load_start h physicalID hist = empty_Table physicalID ->
     (forall id, is_Some (Columns t !! id) -> In id (map ci_ID (ti_Columns tableInfo))) /\
     (forall id, is_Some (Indices t !! id) -> In id (map ii_ID (ti_Indices tableInfo)))).
Proof.
  intros Hrun Hkeyed. unfold tableStatsFromStorage in Hrun.
  apply bind_Ok_inv in Hrun as (res & s1 & _ & Hrest).
  destruct res as [[|row rows]|e]; [done | | done].
  apply bind_Ok_inv in Hrest as (t1 & s2 & Hload & Hret).
  injection Hret as <- _.
  assert (Hstart : forall tb : Table,
    match tables (h_statsCache h) !! physicalID, hist with
    | Some table, None => Table_Copy table
    | _, _ => empty_Table physicalID
    end = tb -> Columns tb = Columns (load_start h physicalID hist) /\
                Indices tb = Indices (load_start h physicalID hist)).
  { intros tb <-. unfold load_start.
    destruct (tables (h_statsCache h) !! physicalID) as [[]|]; by destruct hist. }
  destruct (Hstart _ eq_refl) as [Hcols Hidxs].
  apply tableStatsFromStorage_rows_ids in Hload as (Hk & Hc & Hi).
  - simpl in Hc, Hi. rewrite Hcols in Hc. rewrite Hidxs in Hi.
    split; [done |]. split; [done |]. split; [done |].
    intros Hfresh. rewrite Hfresh in Hc, Hi. simpl in Hc, Hi.
    split; intros id Hid.
    + destruct (Hc id Hid) as [Hs|?]; [| done].
      rewrite lookup_empty in Hs. by destruct Hs.
    + destruct (Hi id Hid) as [Hs|?]; [| done].
      rewrite lookup_empty in Hs. by destruct Hs.
  - intros id c. simpl. rewrite Hcols. apply Hkeyed.
Qed.

(** ** The entries of a refreshed snapshot *)

Lemma insert_by_sorted {A} (key : A -> Z) (x : A) (l : list A) :
  StronglySorted (fun a b => key a <= key b) l ->
  StronglySorted (fun a b => key a <= key b) (insert_by key x l).
Proof.
  induction 1 as [|y l Hs IH Hy]; simpl.
  - constructor; constructor.
  - destruct (Z.leb_spec (key x) (key y)).
    + constructor; [by constructor |].
      constructor; [done |].
      eapply Forall_impl; [exact Hy |]. simpl. intros z Hz. lia.
    + constructor; [exact IH |].
      apply list.Forall_forall. intros z Hz.
      rewrite insert_by_Permutation in Hz.
      apply elem_of_cons in Hz as [-> | Hz]; [lia |].
      by apply (proj1 (list.Forall_forall _ _) Hy).
Qed.

Lemma order_by_StronglySorted {A} (key : A -> Z) (l : list A) :
  StronglySorted (fun a b => key a <= key b) (order_by key l).
Proof.
  unfold order_by. induction l as [|x l IH]; simpl; [constructor |].
  by apply insert_by_sorted.
Qed.

Lemma sorted_last_max {A} (key : A -> Z) (l : list A) :
  StronglySorted (fun a b => key a <= key b) l ->
  forall d x, x ∈ l -> key x <= List.last (map key l) d.
Proof.
  induction 1 as [|y l Hs IH Hy]; intros d x Hx.
  - by apply elem_of_nil in Hx.
  - rewrite last_map_cons.
    destruct l as [|z l'].
    + apply list_elem_of_singleton in Hx as ->. simpl. lia.
    + apply elem_of_cons in Hx as [-> | Hx].
      * apply Forall_cons in Hy as [Hyz _].
        etransitivity; [exact Hyz |]. apply IH. left.
      * by apply IH.
Qed.

Lemma getTableByPhysicalID_known h is_ physicalID tableInfo :
  fst (getTableByPhysicalID h is_ physicalID) = Some tableInfo ->
  exists tid, TableByID is_ tid = Some tableInfo.
Proof.
  unfold getTableByPhysicalID.
  match goal with
  | |- context [mu_pid2tid ?hh !! physicalID] =>
      destruct (mu_pid2tid hh !! physicalID) as [tid|]
  end; simpl; intros Hsome; by eexists.
Qed.

Lemma Update_rows_installed is_ rows :
  forall h tbls deleted lastVersion s h1 tbls' deleted' lastVersion' s1,
  Update_rows TotalRowCount is_ rows h tbls deleted lastVersion s =
    (Ok (h1, tbls', deleted', lastVersion'), s1) ->
  exists tbls1, tbls' = tbls ++ tbls1 /\ Forall (installed_from is_ rows) tbls1.
Proof.
  induction rows as [|row rest IH];
    intros h tbls deleted lastVersion s h1 tbls' deleted' lastVersion' s1 Hrun;
    cbn [Update_rows] in Hrun.
  - injection Hrun as _ <- _ _ _. exists []. by rewrite app_nil_r.
  - assert (Hweak : forall tbls1,
      Forall (installed_from is_ rest) tbls1 ->
      Forall (installed_from is_ (row :: rest)) tbls1).
    { intros tbls1 Htbls. eapply Forall_impl; [exact Htbls |]. simpl.
      intros t (Hp & r & tid & ti & Hr & Hrest). split; [done |].
      exists r, tid, ti. split; [by right | done]. }
    pose proof (getTableByPhysicalID_known h is_ (meta_table_id row)) as Hknown.
    destruct (getTableByPhysicalID h is_ (meta_table_id row)) as [[tableInfo|] h0];
      simpl in Hknown.
    + unfold bind, try in Hrun.
      destruct (tableStatsFromStorage TotalRowCount h0 tableInfo (meta_table_id row)
                  false None s) as [[[tbl|]|e] s0] eqn:Hload.
      * apply IH in Hrun as (tbls1 & -> & Htbls).
        eexists (_ :: tbls1). rewrite <- app_assoc. split; [done |].
        constructor; [| by apply Hweak].
        apply tableStatsFromStorage_Some_inv in Hload as (Hpseudo & _).
        destruct (Hknown _ eq_refl) as [tid Htid].
        split; [done |]. exists row, tid, tableInfo.
        split; [left |]. by repeat split.
      * apply IH in Hrun as (tbls1 & -> & Htbls).
        exists tbls1. split; [done | by apply Hweak].
      * apply IH in Hrun as (tbls1 & -> & Htbls).
        exists tbls1. split; [done | by apply Hweak].
    + apply IH in Hrun as (tbls1 & -> & Htbls).
      exists tbls1. split; [done | by apply Hweak].
Qed.

Lemma last_with_id_elem id tbls t :
  last_with_id id tbls = Some t -> t ∈ tbls /\ PhysicalID t = id.
Proof.
  unfold last_with_id. intros Hlast.
  assert (Hin : t ∈ filter (fun t => PhysicalID t =? id) tbls).
  { apply last_Some in Hlast as [l' ->]. apply elem_of_app. right. left. }
  apply list_elem_of_filter in Hin as [Hid Hin].
  split; [done |]. apply Z.eqb_eq. by apply Is_true_true.
Qed.

(** X23.  The entries of the snapshot after a refresh.  Each of them is
    either the entry the snapshot held under that ID before, or a table
    made from a meta row that this refresh read: it is not pseudo, it
    carries the version, count and modify count of that row and the full
    name of a table of the schema, it sits under its own physical ID, and
    its version lies above the version the refresh read from and is at
    most the version of the new snapshot. *)
Theorem Update_entries (h : Handle) (is_ : InfoSchema) (s s' : Store)
    (h' : Handle) :
  Update TotalRowCount h is_ s = (Ok h', s') ->
  let rows := rows_meta (Update_lastVersion h) (committed s) in
  forall id t, tables (h_statsCache h') !! id = Some t ->
    tables (h_statsCache h) !! id = Some t \/
    (installed_from is_ rows t /\
     PhysicalID t = id /\
     Update_lastVersion h < Version t <= version (h_statsCache h')).
Proof.
  intros Hrun rows id t Hlookup.
  unfold Update in Hrun.
  apply bind_Ok_inv in Hrun as (rows0 & s1 & Hread & Hrest).
  rewrite ExecRestrictedSQL_run in Hread.
  destruct (fault s (log s) (SelectMeta (Update_lastVersion h))); [done |].
  injection Hread as <- <-. fold rows in Hrest.
  apply bind_Ok_inv in Hrest as ([[[h1 tbls] deleted] lastVersion] & s2 & Hloop & Hret).
  injection Hret as <- _.
  destruct (Update_rows_result is_ rows h [] [] (Update_lastVersion h)
              (set_log s (log s ++ [SelectMeta (Update_lastVersion h)])))
    as (h1' & tbls1 & deleted1 & s1' & Hrun1 & Hsc & _).
  rewrite Hloop in Hrun1. injection Hrun1 as -> _ _ -> _. simpl in Hsc.
  pose proof (Update_rows_installed _ _ _ _ _ _ _ _ _ _ _ _ Hloop)
    as (tbls2 & Heq & Hinst). simpl in Heq. subst tbls2.
  unfold updateStatsCache in Hlookup |- *.
  match type of Hlookup with
  | context [if ?b then _ else _] => destruct b
  end; [| left; by rewrite <- Hsc].
  simpl in Hlookup |- *.
  rewrite foldl_delete_lookup in Hlookup.
  destruct (decide (id ∈ deleted)); [done |].
  rewrite foldl_insert_lookup in Hlookup.
  destruct (last_with_id id tbls) as [t0|] eqn:Hlast; [| by left].
  injection Hlookup as ->. right.
  apply last_with_id_elem in Hlast as [Hin Hid].
  pose proof (proj1 (list.Forall_forall _ _) Hinst t Hin) as Ht.
  split; [exact Ht |]. split; [exact Hid |].
  destruct Ht as (_ & row & _ & _ & Hrow & _ & -> & _).
  split.
  - apply list_elem_of_In, rows_meta_In in Hrow. lia.
  - apply sorted_last_max; [| exact Hrow].
    apply order_by_StronglySorted.
Qed.

(** ** The name of a table *)

Lemma getFullTableName_from_step is_ tblInfo schema rest :
  getFullTableName_from is_ tblInfo (schema :: rest) =
    if schema_has is_ tblInfo schema
    then db_Name schema +:+ "." +:+ ti_Name tblInfo
    else getFullTableName_from is_ tblInfo rest.
Proof.
  unfold schema_has. simpl.
  by destruct (TableByName is_ (db_Name schema) (ti_Name tblInfo)).
Qed.

Lemma getFullTableName_from_skip is_ tblInfo pre : forall rest,
  Forall (fun schema => schema_has is_ tblInfo schema = false) pre ->
  getFullTableName_from is_ tblInfo (pre ++ rest) =
    getFullTableName_from is_ tblInfo rest.
Proof.
  induction pre as [|schema pre IH]; intros rest Hpre; [done |].
  apply Forall_cons in Hpre as [Hschema Hpre].
  change ((schema :: pre) ++ rest) with (schema :: (pre ++ rest)).
  rewrite getFullTableName_from_step, Hschema. by apply IH.
Qed.

(** X24.  The full name of a table is taken from the first schema, in the
    order of [AllSchemas], in which a table of that name is found and has
    the same ID: it is the name of that schema, a dot and the table name,
    whatever the later schemas hold.  When no schema has such a table, as
    for a table that was renamed or dropped, the name is the table ID in
    decimal. *)
Theorem getFullTableName_first_match (is_ : InfoSchema) (tblInfo : TableInfo) :
  (forall pre schema post,
     AllSchemas is_ = pre ++ schema :: post ->
     Forall (fun schema => schema_has is_ tblInfo schema = false) pre ->
     schema_has is_ tblInfo schema = true ->
     getFullTableName is_ tblInfo =
       db_Name schema +:+ "." +:+ ti_Name tblInfo) /\
  (Forall (fun schema => schema_has is_ tblInfo schema = false) (AllSchemas is_) ->
   getFullTableName is_ tblInfo = pretty (ti_ID tblInfo)) /\
  (getFullTableName is_ tblInfo = pretty (ti_ID tblInfo) \/
   exists schema, schema ∈ AllSchemas is_ /\
     schema_has is_ tblInfo schema = true /\
     getFullTableName is_ tblInfo =
       db_Name schema +:+ "." +:+ ti_Name tblInfo).
Proof.
  unfold getFullTableName. split; [| split].
  - intros pre schema post -> Hpre Hschema.
    rewrite getFullTableName_from_skip by done.
    by rewrite getFullTableName_from_step, Hschema.
  - intros Hnone.
    rewrite <- (app_nil_r (AllSchemas is_)).
    by rewrite getFullTableName_from_skip.
  - induction (AllSchemas is_) as [|schema rest IH]; [by left |].
    rewrite getFullTableName_from_step.
    destruct (schema_has is_ tblInfo schema) eqn:Hschema.
    + right. exists schema. split; [left | done].
    + destruct IH as [Hid | (db & Hin & Hdb & Hname)]; [by left |].
      right. exists db. split; [by right | done].
Qed.

End Properties.

(** * The properties at concrete inputs *)

Section Concrete.
#[local] Existing Instance example_stats.

(** C1, refuted as stated: in scenario S1 the snapshot after [Update] is
    not one that holds tables 7 and 9 at versions 100 and 200. *)
Lemma Update_cold_start_counterexample :
  let r := fst (Update example_TotalRowCount (NewHandle 3000000000)
                  example_schema (example_store cold_catalog no_fault)) in
  ~ exists h',
      r = Ok h' /\
      version (h_statsCache h') = 200 /\
      (exists t7, tables (h_statsCache h') !! 7 = Some t7 /\
                  Version t7 = 100 /\ Pseudo t7 = false /\
                  Columns t7 = ∅ /\ Indices t7 = ∅) /\
      (exists t9, tables (h_statsCache h') !! 9 = Some t9 /\
                  Version t9 = 200 /\ Pseudo t9 = false /\
                  Columns t9 = ∅ /\ Indices t9 = ∅).
Proof.
  intros r (h' & Hr & _ & (t7 & H7 & _) & _).
  vm_compute in Hr. injection Hr as <-.
  vm_compute in H7. discriminate.
Qed.

Lemma Update_cold_start_no_histograms_witness :
  exists h' s',
    Update example_TotalRowCount (NewHandle 3000000000) example_schema
      (example_store cold_catalog no_fault) = (Ok h', s') /\
    h_statsCache h' = {| tables := ∅; version := 200 |} /\
    tables (h_statsCache h') !! 7 = None /\
    tables (h_statsCache h') !! 9 = None.
Proof.
  apply (Update_cold_start_no_histograms example_TotalRowCount
           (NewHandle 3000000000) example_schema
           (example_store cold_catalog no_fault) 0 10 0 20);
    reflexivity.
Defined.

(** C2, the code at the failing input.  Table 7 is cached, its meta row has
    version 300, the schema resolves it, and the query of the histogram
    catalog for it fails.  [Update] does not skip the row: it returns
    without error and publishes a snapshot at version 300 from which the
    entry of table 7 has been removed. *)
Theorem Update_histogram_query_failure_deletes :
  let h := example_handle 0 in
  let s := example_store example_catalog fault_histograms7 in
  tables (h_statsCache h) !! 7 = Some example_cached7 /\
  fault s [SelectMeta 50] (SelectHistograms 7) = Some "read error"%string /\
  exists h',
    fst (Update example_TotalRowCount h example_schema s) = Ok h' /\
    version (h_statsCache h') = 300 /\
    tables (h_statsCache h') !! 7 = None.
Proof.
  intros h s. split; [reflexivity |]. split; [reflexivity |].
  eexists. split; [vm_compute; reflexivity |].
  split; vm_compute; reflexivity.
Qed.

(** The sibling path: when it is the buckets query that fails, the load of
    table 7 returns the error, the row is skipped and the cached entry
    stays. *)
Lemma Update_bucket_query_failure_skips :
  let h := example_handle 0 in
  let s := example_store example_catalog fault_buckets in
  exists h',
    fst (Update example_TotalRowCount h example_schema s) = Ok h' /\
    version (h_statsCache h') = 300 /\
    tables (h_statsCache h') !! 7 = Some example_cached7.
Proof.
  intros h s. eexists. split; [vm_compute; reflexivity |].
  split; vm_compute; reflexivity.
Qed.

(** Scenario S2: the schema no longer resolves table 7, whose meta row has
    version 300; the refresh removes the cached entry. *)
Lemma Update_dropped_table :
  exists h',
    fst (Update example_TotalRowCount (example_handle 0) dropped_schema
           (example_store example_catalog no_fault)) = Ok h' /\
    version (h_statsCache h') = 300 /\
    tables (h_statsCache h') !! 7 = None.
Proof.
  eexists. split; [vm_compute; reflexivity |].
  split; vm_compute; reflexivity.
Qed.

(** Scenario S5: the load of the table at version 20 fails; the refresh
    installs the tables at versions 10 and 30 and ends at version 30. *)
Lemma Update_error_mid_cycle :
  exists h' t7 t11,
    fst (Update example_TotalRowCount (NewHandle 0) example_schema
           (example_store three_tables_catalog fault_buckets9)) = Ok h' /\
    version (h_statsCache h') = 30 /\
    tables (h_statsCache h') !! 7 = Some t7 /\ Version t7 = 10 /\
    tables (h_statsCache h') !! 9 = None /\
    tables (h_statsCache h') !! 11 = Some t11 /\ Version t11 = 30.
Proof.
  do 3 eexists. split; [vm_compute; reflexivity |].
  split; [reflexivity |].
  split; [vm_compute; reflexivity |]. split; [reflexivity |].
  split; [vm_compute; reflexivity |].
  split; [vm_compute; reflexivity |]. reflexivity.
Qed.

(** C8, refuted as stated: the snapshot of a new handle has no entry for
    table 7, and the request for its column 1 is still in the
    needed-histogram set after [LoadNeededHistograms]. *)
Lemma LoadNeededHistograms_absent_table_counterexample :
  let h := NewHandle 0 in
  let out := fst (LoadNeededHistograms example_TotalRowCount h [example_needed]
                    (example_store cold_catalog no_fault)) in
  tables (h_statsCache h) !! TableID example_needed = None /\
  ~ (~ In example_needed (snd out)).
Proof.
  intros h out. split; [reflexivity |].
  intros Hdropped. apply Hdropped. vm_compute. left. reflexivity.
Qed.

Lemma LoadNeededHistograms_absent_table_witness :
  LoadNeededHistograms_cols example_TotalRowCount [example_needed]
    (NewHandle 0) [example_needed] (example_store cold_catalog no_fault) =
    LoadNeededHistograms_cols example_TotalRowCount []
      (NewHandle 0) [example_needed] (example_store cold_catalog no_fault) /\
  LoadNeededHistograms example_TotalRowCount (NewHandle 0) [example_needed]
    (example_store cold_catalog no_fault) =
    ((None, NewHandle 0, [example_needed]), example_store cold_catalog no_fault).
Proof.
  apply (LoadNeededHistograms_absent_table example_TotalRowCount example_needed
           [] (NewHandle 0) [example_needed]
           (example_store cold_catalog no_fault)).
  reflexivity.
Defined.

Lemma updateStatsCache_monotone_witness :
  StronglySorted (fun a b => version a <= version b)
    (h_statsCache (example_handle 0) ::
     snapshots (example_handle 0)
       [ {| tables := ∅; version := 60 |};
         {| tables := ∅; version := 40 |};
         {| tables := ∅; version := 70 |} ]) /\
  version {| tables := ∅; version := 60 |} <= version {| tables := ∅; version := 70 |}.
Proof.
  pose proof (updateStatsCache_monotone (example_handle 0)
                {| tables := ∅; version := 60 |}
                [ {| tables := ∅; version := 60 |};
                  {| tables := ∅; version := 40 |};
                  {| tables := ∅; version := 70 |} ])
    as (_ & _ & _ & Hsorted & Hpairs).
  split; [exact Hsorted |].
  apply (Hpairs 0%nat 2%nat); [lia | reflexivity | reflexivity | reflexivity | reflexivity].
Defined.

Lemma SetLastUpdateVersion_lower_noop_witness :
  SetLastUpdateVersion (example_handle 0) 49 = example_handle 0 /\
  tables (h_statsCache (SetLastUpdateVersion (example_handle 0) 49)) =
    tables (h_statsCache (example_handle 0)) /\
  LastUpdateVersion (SetLastUpdateVersion (example_handle 0) 49) =
    LastUpdateVersion (example_handle 0).
Proof.
  apply (SetLastUpdateVersion_lower_noop (example_handle 0) 49).
  simpl. lia.
Defined.

Lemma GetPartitionStats_pseudo_witness :
  let tbl := fst (GetPartitionStats example_PseudoTable (example_handle 0) example_t9 9) in
  let h' := snd (GetPartitionStats example_PseudoTable (example_handle 0) example_t9 9) in
  tbl = set_PhysicalID (example_PseudoTable example_t9) 9 /\
  version (h_statsCache h') = version (h_statsCache (example_handle 0)) /\
  tables (h_statsCache h') = <[9 := tbl]> (tables (h_statsCache (example_handle 0))) /\
  tables (h_statsCache h') !! 9 = Some tbl /\
  Pseudo tbl = true /\
  PhysicalID tbl = 9.
Proof.
  apply (GetPartitionStats_pseudo example_PseudoTable
           (fun tblInfo => eq_refl) (example_handle 0) example_t9 9).
  reflexivity.
Defined.

Lemma Update_look_back_witness :
  let h := set_statsCache (example_handle 3000000000)
             {| tables := ∅; version := 3000000000000 |} in
  int64_range (Lease h) /\
  uint64_range (version (h_statsCache h)) /\
  DurationToTS (i64 (3 * Lease h)) = 2359296000 /\
  Update_lastVersion h = 3000000000000 - 2359296000.
Proof.
  intros h.
  assert (Hlease : int64_range (Lease h)).
  { vm_compute. split; [discriminate | reflexivity]. }
  assert (Hhigh : uint64_range (version (h_statsCache h))).
  { vm_compute. split; [discriminate | reflexivity]. }
  pose proof (Update_look_back example_TotalRowCount h example_schema
                (example_store cold_catalog no_fault) Hlease Hhigh) as H.
  cbv zeta in H.
  destruct H as (_ & _ & Hexact & Hge & _).
  split; [exact Hlease |]. split; [exact Hhigh |].
  assert (Hoff : DurationToTS (i64 (3 * Lease h)) = 2359296000).
  { rewrite Hexact.
    - vm_compute. reflexivity.
    - vm_compute. discriminate.
    - vm_compute. reflexivity. }
  split; [exact Hoff |].
  rewrite Hge.
  - rewrite Hoff. reflexivity.
  - rewrite Hoff. vm_compute. discriminate.
Defined.

Lemma bucket_delta_round_trip_witness :
  let s := example_store cold_catalog no_fault in
  let saved := SaveStatsToStorage 5 1000 0 example_hg None s in
  let rows := rows_buckets 5 0 (hg_ID example_hg) (committed (snd saved)) in
  fst saved = None /\
  map bucket_count rows = [10; 15; 15] /\
  map bucket_repeats rows = [1; 2; 3] /\
  exists hg',
    fst (histogramFromStorage 5 (hg_ID example_hg) 3 30 0 1000 2 0 0 None
           (snd saved)) = Ok hg' /\
    map bkt_Count (hg_Buckets hg') = [10; 25; 40] /\
    map bkt_Repeat (hg_Buckets hg') = [1; 2; 3].
Proof.
  intros s saved rows.
  assert (Hrange : Forall (fun b => int64_range (bkt_Count b)) (hg_Buckets example_hg)).
  { repeat constructor; vm_compute; discriminate. }
  assert (Hconv : Forall (bounds_convertible 0 3) (hg_Buckets example_hg)).
  { repeat constructor; exists [], []; repeat split; right; by exists [], []. }
  assert (Henc : exists data, EncodeCMSketch None = Ok data) by (by exists []).
  pose proof (bucket_delta_round_trip 5 1000 0 example_hg None 3 30 1000 2 0 0 s
                Hrange Hconv Henc (fun _ _ => eq_refl) eq_refl) as H.
  cbv zeta in H. fold s in H. fold saved in H. fold rows in H.
  destruct H as (Hret & _ & _ & Hcounts & _ & Hrep & Hload).
  split; [exact Hret |]. split; [exact Hcounts |]. split; [exact Hrep |].
  exact Hload.
Defined.

Lemma SaveStatsToStorage_finishes_witness :
  let s := example_store cold_catalog fault_delete in
  let out := SaveStatsToStorage 5 1000 0 example_hg None s in
  fault s (log s) Begin = None /\
  fst out = Some "write conflict"%string /\
  List.last (log (snd out)) Begin = Rollback /\
  committed (snd out) = committed s.
Proof.
  intros s out.
  assert (Hbegin : fault s (log s) Begin = None) by reflexivity.
  pose proof (SaveStatsToStorage_finishes 5 1000 0 example_hg None s Hbegin) as H.
  cbv zeta in H. fold out in H.
  destruct H as (_ & Hend & _ & _ & _ & _ & _ & Hatomic).
  assert (Hbody : fst (SaveStatsToStorage_body 5 1000 0 example_hg None
                         (snd (Execute Begin s))) = Err "write conflict"%string)
    by (vm_compute; reflexivity).
  rewrite Hbody in Hend. destruct Hend as [Hlog Hret].
  split; [exact Hbegin |]. split; [exact Hret |].
  split; [rewrite Hlog; apply last_last |].
  apply Hatomic. rewrite Hret. discriminate.
Defined.

Lemma lazy_load_gating_witness :
  let h := example_handle 3000000000 in
  let s := example_store example_catalog no_fault in
  exists table' c',
    fst (columnStatsFromStorage example_TotalRowCount h example_hist_row
           example_cached7 example_t7 false None s) = Ok table' /\
    Columns table' !! 1 = Some c' /\
    col_Len c' = 0 /\
    col_Count c' = 42.
Proof.
  intros h s.
  pose proof (lazy_load_gating example_TotalRowCount h) as (_ & Hpath & _).
  specialize (Hpath example_hist_row example_cached7 example_t7 false None
                example_column s eq_refl).
  cbv zeta in Hpath. destruct Hpath as (l & _ & _ & _ & Hload).
  assert (Hlazy : notNeedLoad h
            (ti_PKIsHandle example_t7 && HasPriKeyFlag (ci_Flag example_column))
            (Columns example_cached7 !! hist_hist_id example_hist_row)
            (hist_version example_hist_row) false = true)
    by (vm_compute; reflexivity).
  assert (Hsum : stored_count_sum (PhysicalID example_cached7)
                   (hist_hist_id example_hist_row) (committed s) = 40)
    by (vm_compute; reflexivity).
  destruct (Hload Hlazy eq_refl) as (table' & c' & Hrun & Hcol & _ & Hlen & _ & _ & Hexact).
  { rewrite Hsum. vm_compute. split; [discriminate | reflexivity]. }
  exists table', c'. split; [exact Hrun |]. split; [exact Hcol |].
  split; [exact Hlen |].
  rewrite Hexact, Hsum; [reflexivity |].
  rewrite Hsum. vm_compute. split; [discriminate | reflexivity].
Defined.

(** Scenario: with a positive lease, [Update] loads column 1 of table 7 in
    summary form, with no bucket and [Count = 40 + 2]; the loader then
    promotes it to the three stored buckets with the cumulative counts 10,
    25, 40, and drops the request. *)
Lemma lazy_then_promoted :
  let s := example_store example_catalog no_fault in
  exists h1 t1 c1 h2 t2 c2,
    fst (Update example_TotalRowCount (example_handle 3000000000)
           example_schema s) = Ok h1 /\
    tables (h_statsCache h1) !! 7 = Some t1 /\
    Version t1 = 300 /\
    Columns t1 !! 1 = Some c1 /\
    hg_Buckets (col_Histogram c1) = [] /\
    col_Count c1 = 42 /\
    fst (LoadNeededHistograms example_TotalRowCount h1 [example_needed] s) =
      (None, h2, []) /\
    tables (h_statsCache h2) !! 7 = Some t2 /\
    Columns t2 !! 1 = Some c2 /\
    map bkt_Count (hg_Buckets (col_Histogram c2)) = [10; 25; 40] /\
    col_Count c2 = 42.
Proof.
  intros s. do 6 eexists.
  split; [vm_compute; reflexivity |].
  split; [vm_compute; reflexivity |].
  split; [reflexivity |].
  split; [vm_compute; reflexivity |].
  split; [reflexivity |].
  split; [reflexivity |].
  split; [vm_compute; reflexivity |].
  split; [vm_compute; reflexivity |].
  split; [vm_compute; reflexivity |].
  split; reflexivity.
Qed.

End Concrete.

(** * The further properties at concrete inputs *)

Section MoreConcrete.
#[local] Existing Instance example_stats.

Lemma tableStatsFromStorage_loaded_witness :
  let out := tableStatsFromStorage example_TotalRowCount (example_handle 0)
               example_t7 7 false None
               (example_store example_catalog no_fault) in
  exists t, fst out = Ok (Some t) /\
    Pseudo t = false /\ PhysicalID t = 7 /\ Count t = 5 /\ Version t = 50.
Proof.
  intros out.
  assert (Hrun : exists t s', out = (Ok (Some t), s'))
    by (vm_compute; do 2 eexists; reflexivity).
  destruct Hrun as (t & s' & Hrun).
  pose proof (tableStatsFromStorage_loaded example_TotalRowCount _ _ _ _ _ _ _ _
                Hrun) as H.
  cbv zeta in H. destruct H as (Hpseudo & Hid & _ & Hcount & _ & Hver & _).
  exists t. rewrite Hrun. split; [reflexivity |].
  split; [exact Hpseudo |]. split; [exact Hid |].
  split; [exact Hcount | exact Hver].
Defined.

Lemma Update_publishes_witness :
  exists h' s',
    Update example_TotalRowCount (example_handle 0) example_schema
      (example_store example_catalog no_fault) = (Ok h', s') /\
    version (h_statsCache h') = 300 /\
    Lease h' = 0.
Proof.
  pose proof (Update_publishes example_TotalRowCount (example_handle 0)
                example_schema (example_store example_catalog no_fault)
                eq_refl) as H.
  cbv zeta in H. destruct H as (h' & s' & Hrun & Hver & _ & _ & Hlease).
  exists h', s'. split; [exact Hrun |].
  split; [rewrite Hver; vm_compute; reflexivity | exact Hlease].
Defined.

Lemma Update_frame_witness :
  let h := SetLastUpdateVersion (example_handle 0) 150 in
  exists h',
    fst (Update example_TotalRowCount h example_schema
           (example_store cold_catalog no_fault)) = Ok h' /\
    version (h_statsCache h') = 200 /\
    tables (h_statsCache h') !! 7 = Some example_cached7.
Proof.
  intros h.
  assert (Hrun : exists h' s',
            Update example_TotalRowCount h example_schema
              (example_store cold_catalog no_fault) = (Ok h', s') /\
            version (h_statsCache h') = 200).
  { do 2 eexists. split; vm_compute; reflexivity. }
  destruct Hrun as (h' & s' & Hrun & Hver).
  assert (Hkeyed : keyed_by_PhysicalID (h_statsCache h)).
  { intros id tbl Hin. change (tables (h_statsCache h))
      with ({[ 7 := example_cached7 ]} : gmap Z Table) in Hin.
    apply lookup_singleton_Some in Hin as [<- <-]. reflexivity. }
  assert (Hrows : map meta_table_id
                    (rows_meta (Update_lastVersion h)
                       (committed (example_store cold_catalog no_fault))) = [9])
    by (vm_compute; reflexivity).
  pose proof (Update_frame example_TotalRowCount h example_schema _ _ h' 7
                Hkeyed Hrun) as H.
  exists h'. rewrite Hrun. split; [reflexivity |]. split; [exact Hver |].
  rewrite H; [reflexivity |].
  rewrite Hrows. intros Hin. apply list_elem_of_singleton in Hin. discriminate.
Defined.

Lemma LoadNeededHistograms_no_load_witness :
  let s := example_store example_catalog no_fault in
  exists needed',
    LoadNeededHistograms example_TotalRowCount (example_handle 0)
      [example_needed] s = ((None, example_handle 0, needed'), s) /\
    example_needed ∉ needed'.
Proof.
  intros s.
  assert (Hno : Forall (no_load_needed (example_handle 0)) [example_needed]).
  { constructor; [vm_compute; exact I | constructor]. }
  destruct (LoadNeededHistograms_no_load example_TotalRowCount
              (example_handle 0) [example_needed] s Hno)
    as (needed' & Hrun & Hneeded).
  exists needed'. split; [exact Hrun |].
  intros Hin. apply Hneeded in Hin as [_ Hcached]. discriminate Hcached.
Defined.

Lemma LoadNeededHistograms_stops_at_error_witness :
  let s := example_store example_catalog fault_buckets in
  exists s',
    LoadNeededHistograms_cols example_TotalRowCount [example_needed]
      (summary_handle 0) [example_needed] s =
      ((Some "read error"%string, summary_handle 0, [example_needed]), s') /\
    committed s' = committed s.
Proof.
  intros s.
  assert (Hlen : col_Len summary_column <= 0) by (vm_compute; discriminate).
  destruct (LoadNeededHistograms_stops_at_error example_TotalRowCount
              (summary_handle 0) example_needed [] [example_needed] s
              summary_cached7 summary_column "read error"%string
              eq_refl eq_refl Hlen (or_introl eq_refl))
    as (s' & Hrun & Hcommitted & _).
  exists s'. split; [exact Hrun | exact Hcommitted].
Defined.

Lemma getTableByPhysicalID_resolves_witness :
  let out := getTableByPhysicalID (NewHandle 0) partitioned_schema 21 in
  fst out = Some example_t20 /\
  mu_schemaVersion (snd out) = 5 /\
  h_statsCache (snd out) = h_statsCache (NewHandle 0).
Proof.
  intros out.
  assert (Hfresh : resolver_fresh (NewHandle 0) partitioned_schema).
  { intros Hsame. discriminate Hsame. }
  pose proof (getTableByPhysicalID_resolves (NewHandle 0) partitioned_schema 21
                Hfresh) as H.
  cbv zeta in H. fold out in H.
  destruct H as (Hver & _ & Hcache & _ & _ & Hpart & _).
  split; [| split; [exact Hver | exact Hcache]].
  assert (Hpairs : partition_pairs partitioned_schema = [(21, 20); (22, 20)])
    by reflexivity.
  rewrite (Hpart 20); [reflexivity | |].
  - rewrite Hpairs. apply list_elem_of_here.
  - intros tid'. rewrite Hpairs. intros Hin.
    apply elem_of_cons in Hin as [Heq | Hin]; [by injection Heq |].
    apply list_elem_of_singleton in Hin. discriminate Hin.
Defined.

Lemma DurationToTS_physical_witness :
  DurationToTS 3000000000 = 786432000 /\
  Z.shiftr (DurationToTS 3000000000) 18 = 3000 /\
  DurationToTS 999999 = 0.
Proof.
  assert (Hd : 0 <= 3000000000 < 2 ^ 63) by lia.
  destruct (DurationToTS_physical 3000000000 Hd) as (Hts & Hshift & _).
  split; [rewrite Hts; reflexivity |].
  split; [rewrite Hshift; reflexivity |].
  assert (Hsmall : 0 <= 999999 < 2 ^ 63) by lia.
  destruct (DurationToTS_physical 999999 Hsmall) as (_ & _ & _ & Hzero & _).
  apply Hzero. lia.
Defined.

Lemma Update_no_look_back_witness :
  DurationToTS (i64 (3 * Lease (example_handle 300000))) = 0 /\
  Update_lastVersion (example_handle 300000) = 50.
Proof.
  assert (Hlease : 0 <= 3 * Lease (example_handle 300000) < 1000000)
    by (simpl; lia).
  assert (Hver : uint64_range (version (h_statsCache (example_handle 300000))))
    by (unfold uint64_range; simpl; lia).
  destruct (Update_no_look_back (example_handle 300000) Hlease Hver)
    as [Hoff Hlast].
  split; [exact Hoff | exact Hlast].
Defined.

Lemma SaveStatsToStorage_sqls_order_witness :
  exists inserts,
    SaveStatsToStorage_sqls 1000 7 40 0 example_hg None =
      Ok (ReplaceMeta 1000 7 40
          :: ReplaceHistogram 7 0 1 30 1000 2 [] 0 0
          :: DeleteBuckets 7 0 1
          :: inserts) /\
    length inserts = 3%nat /\
    map bucket_bucket_id (omap bucket_row_of inserts) = [0; 1; 2] /\
    map bucket_repeats (omap bucket_row_of inserts) = [1; 2; 3].
Proof.
  assert (Hconv : Forall (bounds_convertible 0 3) (hg_Buckets example_hg)).
  { repeat constructor; exists [], []; repeat split; right; by exists [], []. }
  destruct (SaveStatsToStorage_sqls_order 1000 7 40 0 example_hg None 3 []
              eq_refl Hconv)
    as (inserts & Hsqls & _ & Hlen & Hids & Hrep).
  exists inserts. split; [exact Hsqls |].
  split; [exact Hlen |]. split; [exact Hids | exact Hrep].
Defined.

Lemma SaveMetaToStorage_finishes_witness :
  let s := example_store cold_catalog no_fault in
  let out := SaveMetaToStorage 7 11 3 s in
  fst out = None /\
  log (snd out) = [Begin; ReplaceMetaModify 1000 7 11 3; Commit] /\
  stats_meta (committed (snd out)) =
    [ {| meta_version := 200; meta_table_id := 9;
         meta_modify_count := 0; meta_count := 20 |};
      {| meta_version := 1000; meta_table_id := 7;
         meta_modify_count := 3; meta_count := 11 |} ].
Proof.
  intros s out.
  pose proof (SaveMetaToStorage_finishes 7 11 3 s eq_refl) as H.
  cbv zeta in H. fold out in H.
  change (txn_fault s) with (@None error) in H.
  change (fault s (log s ++ [Begin]) (ReplaceMetaModify (startTS s) 7 11 3))
    with (@None error) in H.
  cbv iota in H.
  destruct H as (Hret & Hlog & _ & Hmeta).
  change (fault s (log s ++ [Begin; ReplaceMetaModify (startTS s) 7 11 3]) Commit)
    with (@None error) in Hret.
  split; [exact Hret |]. split; [exact Hlog |].
  destruct (Hmeta Hret) as (Hrows & _). rewrite Hrows. reflexivity.
Defined.

Lemma indexStatsFromStorage_up_to_date_witness :
  let s := example_store example_catalog no_fault in
  indexStatsFromStorage example_index_row summary_cached7 example_t7 None s =
    (Ok summary_cached7, s).
Proof.
  intros s.
  apply (indexStatsFromStorage_up_to_date example_index_row summary_cached7
           example_t7 None s example_index).
  - reflexivity.
  - simpl. lia.
Defined.

Lemma columnStatsFromStorage_up_to_date_witness :
  let s := example_store example_catalog no_fault in
  exists c',
    columnStatsFromStorage example_TotalRowCount (summary_handle 3000000000)
      resized_hist_row summary_cached7 example_t7 false None s =
      (Ok (set_Columns summary_cached7 (<[1 := c']> (Columns summary_cached7))), s) /\
    hg_TotColSize (col_Histogram c') = 64 /\
    hg_NDV (col_Histogram c') = 30 /\
    col_Count c' = 42.
Proof.
  intros s.
  assert (Hver : hist_version resized_hist_row <=
                 hg_LastUpdateVersion (col_Histogram summary_column))
    by (simpl; lia).
  destruct (columnStatsFromStorage_up_to_date example_TotalRowCount
              (summary_handle 3000000000) resized_hist_row summary_cached7
              example_t7 None s summary_column example_column
              eq_refl Hver eq_refl)
    as (c' & Hrun & Hhg & _ & Hcount & _).
  exists c'. split; [exact Hrun |].
  rewrite Hhg, Hcount. repeat split.
Defined.


Lemma tableStatsFromStorage_known_ids_witness :
  let out := tableStatsFromStorage example_TotalRowCount (example_handle 0)
               example_t7 7 true None
               (example_store example_catalog no_fault) in
  exists t, fst out = Ok (Some t) /\
    columns_keyed t /\
    (forall id, is_Some (Columns t !! id) -> id = 1) /\
    (forall id, Indices t !! id = None).
Proof.
  intros out.
  assert (Hrun : exists t s', out = (Ok (Some t), s'))
    by (vm_compute; do 2 eexists; reflexivity).
  destruct Hrun as (t & s' & Hrun).
  assert (Hstart : load_start (example_handle 0) 7 None = example_cached7)
    by reflexivity.
  assert (Hkeyed : columns_keyed (load_start (example_handle 0) 7 None)).
  { rewrite Hstart. intros id c Hin. discriminate Hin. }
  destruct (tableStatsFromStorage_known_ids example_TotalRowCount _ _ _ _ _ _ _ _
              Hrun Hkeyed) as (Hk & Hcols & Hidxs & _).
  exists t. rewrite Hrun. split; [reflexivity |]. split; [exact Hk |].
  rewrite Hstart in Hcols, Hidxs. split.
  - intros id Hid. destruct (Hcols id Hid) as [[c Hc] | [Heq | []]];
      [discriminate Hc | by symmetry].
  - intros id. destruct (Indices t !! id) as [i|] eqn:Hi; [| reflexivity].
    destruct (Hidxs id (ex_intro _ i Hi)) as [[i' Hi'] | []]. discriminate Hi'.
Defined.

Lemma Update_entries_witness :
  exists h' t,
    fst (Update example_TotalRowCount (example_handle 0) example_schema
           (example_store example_catalog no_fault)) = Ok h' /\
    tables (h_statsCache h') !! 7 = Some t /\
    Pseudo t = false /\ PhysicalID t = 7 /\ 50 < Version t <= 300.
Proof.
  assert (Hrun : exists h' s' t,
            Update example_TotalRowCount (example_handle 0) example_schema
              (example_store example_catalog no_fault) = (Ok h', s') /\
            tables (h_statsCache h') !! 7 = Some t /\
            Version t = 300 /\
            version (h_statsCache h') = 300).
  { do 3 eexists. split; [vm_compute; reflexivity |].
    split; [vm_compute; reflexivity |]. split; reflexivity. }
  destruct Hrun as (h' & s' & t & Hrun & Hlookup & Hver & Hnew).
  assert (Hsince : Update_lastVersion (example_handle 0) = 50)
    by (vm_compute; reflexivity).
  pose proof (Update_entries example_TotalRowCount _ _ _ _ _ Hrun) as H.
  cbv zeta in H.
  destruct (H 7 t Hlookup) as [Hold | ((Hpseudo & _) & Hid & Hlo & Hhi)].
  - vm_compute in Hold. injection Hold as <-. discriminate Hver.
  - exists h', t. rewrite Hrun. split; [reflexivity |].
    split; [exact Hlookup |]. split; [exact Hpseudo |]. split; [exact Hid |].
    rewrite Hsince in Hlo. rewrite Hnew in Hhi. split; [exact Hlo | exact Hhi].
Defined.

End MoreConcrete.

Section StrictConcrete.
#[local] Existing Instance strict_stats.

Lemma SaveStatsToStorage_nothing_sent_witness :
  let out := SaveStatsToStorage 7 2 0 long_bound_hg None strict_store in
  fst out = Some "data too long"%string /\
  log (snd out) = [Begin; Rollback] /\
  committed (snd out) = committed strict_store.
Proof.
  intros out.
  assert (Hbad : exists b, In b (hg_Buckets long_bound_hg) /\
            ((exists e, ConvertTo (bkt_upper b) SessionStmtCtx TypeBlob = Err e) \/
             (exists e, ConvertTo (bkt_lower b) SessionStmtCtx TypeBlob = Err e))).
  { eexists. split; [right; left; reflexivity |].
    left. by exists "data too long"%string. }
  pose proof (SaveStatsToStorage_nothing_sent 7 2 0 long_bound_hg None
                strict_store eq_refl eq_refl (or_intror Hbad)) as H.
  cbv zeta in H. fold out in H.
  destruct H as (_ & Hlog & Hcommitted).
  split; [vm_compute; reflexivity |].
  split; [exact Hlog | exact Hcommitted].
Defined.

End StrictConcrete.
